(** * IDAES process-modelling layer: staged initialisation and its bookkeeping

    A shallow embedding of

    - [idaes/property_models/activity_coeff_models/activity_coeff_prop_pack.py]
      (module [ActivityCoeff]): construction of an activity-coefficient state
      block and the five-solve initialisation routine with its flag
      dictionary;
    - [idaes/generic_models/flowsheets/supercritical_powerplant_simple.py]
      (module [Flowsheet]): input specification and the staged initialiser of
      the supercritical power-plant flowsheet;
    - [idaes/core/tests/test_have_pynumero.py] (module [Pynumero]): the
      three-variable smoke-test NLP.

    Pyomo variables carry a value and a [fixed] flag, constraints an [active]
    flag.  Python floats are represented by rationals; the theorems only
    depend on constants that are exactly representable.  The nonlinear solver,
    [degrees_of_freedom], the unit models' own [initialize] methods and
    [copy_port_values] are external to the modelled files and enter as
    parameters.

    The definitions come first (modules [ActivityCoeff], [Flowsheet],
    [Pynumero], [Examples]); the lemmas about them follow
    ([ActivityCoeffFacts], [FlowsheetFacts]) and the statements about the
    three files follow ([ActivityCoeffTheorems], [FlowsheetTheorems],
    [PynumeroTheorems], [InitializerTheorems]).  Further lemmas
    ([ActivityCoeffMore], [FlowsheetMore]) and the statements built on them
    ([ActivityCoeffProperties], [FlowsheetProperties]) close the
    development. *)

From Stdlib Require Import ZArith QArith.QArith_base QArith.Qabs.
From stdpp Require Import base tactics option list strings gmap fin_maps.

(** ** Exceptions *)

Inductive Exn :=
  | AttributeError (name : string)   (* a component that was never built *)
  | KeyError                          (* a dict or indexed component lookup *)
  | UnboundLocalError                 (* the loop variable [k] of an empty loop *)
  | ConfigurationError                (* raised by [build] *)
  | AssertionError                    (* a failed [assert] *)
  | DofException.                     (* "State vars fixed but degrees of freedom ..." *)

Inductive Res (A : Type) :=
  | Ok (a : A)
  | Raise (e : Exn).
Arguments Ok {A} a.
Arguments Raise {A} e.

#[export] Instance Res_bind : MBind Res :=
  λ A B f m, match m with Ok a => f a | Raise e => Raise e end.

Module ActivityCoeff.

(** ** Data model *)

Inductive ActivityCoeffModel := Ideal | NRTL | Wilson.
Inductive ValidPhase := Liq | Vap | Vap_Liq | Liq_Vap.

#[export] Instance ActivityCoeffModel_eq_dec : EqDecision ActivityCoeffModel.
Proof. solve_decision. Defined.
#[export] Instance ValidPhase_eq_dec : EqDecision ValidPhase.
Proof. solve_decision. Defined.

(** The parameter block: its two configuration options and the component
    list supplied by the concrete package. *)
Record ParameterBlock := mkParams {
  activity_coeff_model : ActivityCoeffModel;
  valid_phase : ValidPhase;
  component_list : list string
}.

(** [ActivityCoeffParameterData.build]: the phase list. *)
Definition phase_list (p : ParameterBlock) : list string :=
  match valid_phase p with
  | Liq_Vap | Vap_Liq => ["Liq"; "Vap"]
  | Liq => ["Liq"]
  | Vap => ["Vap"]
  end.

Record VarData := mkVar { value : option Q; fixed : bool }.

(** A Pyomo component (Var or Constraint) is a container of data objects
    keyed by its index tuple; a scalar component has the single index []. *)
Abbreviation Index := (list string).
Abbreviation Var := (gmap (list string) VarData).
Abbreviation Constraint := (gmap (list string) bool).

Record BlockData := mkBlock {
  params : ParameterBlock;
  defined_state : bool;
  has_phase_equilibrium : bool;
  var_objects : gmap string Var;
  constraint_objects : gmap string Constraint
}.

(** An indexed state block: its keys in iteration order, each with its data
    object. *)
Abbreviation StateBlock := (list (nat * BlockData)).

Definition lookup_var (b : BlockData) (name : string) (i : Index) : option VarData :=
  var_objects b !! name ≫= (.!! i).

Definition lookup_con (b : BlockData) (name : string) (i : Index) : option bool :=
  constraint_objects b !! name ≫= (.!! i).

(** Every in-place mutation of the routine is pointwise on data objects. *)
Definition map_vars (g : string → Index → VarData → VarData) (b : BlockData) : BlockData :=
  mkBlock (params b) (defined_state b) (has_phase_equilibrium b)
    (map_imap (λ n c, Some (map_imap (λ i d, Some (g n i d)) c)) (var_objects b))
    (constraint_objects b).

Definition map_cons (h : string → Index → bool → bool) (b : BlockData) : BlockData :=
  mkBlock (params b) (defined_state b) (has_phase_equilibrium b)
    (var_objects b)
    (map_imap (λ n c, Some (map_imap (λ i a, Some (h n i a)) c)) (constraint_objects b)).

Definition fix_data (v : Q) (d : VarData) : VarData := mkVar (Some v) true.
Definition unfix_data (d : VarData) : VarData := mkVar (value d) false.

(** [blk[k].<name>] for a variable, then [[i]] on it. *)
Definition get_var (name : string) (i : Index) (b : BlockData) : Res VarData :=
  match var_objects b !! name with
  | None => Raise (AttributeError name)
  | Some c => match c !! i with
              | None => Raise KeyError
              | Some d => Ok d
              end
  end.

(** [x.fix(v)] on one data object. *)
Definition fix_at (name : string) (i : Index) (v : Q) : BlockData → BlockData :=
  map_vars (λ n j d, if decide (n = name ∧ j = i) then fix_data v d else d).

Definition unfix_at (name : string) (i : Index) : BlockData → BlockData :=
  map_vars (λ n j d, if decide (n = name ∧ j = i) then unfix_data d else d).

(** [blk[k].<name>.fix(v)] and [.unfix()] on a whole container. *)
Definition fix_all (name : string) (v : Q) (b : BlockData) : Res BlockData :=
  match var_objects b !! name with
  | None => Raise (AttributeError name)
  | Some _ => Ok (map_vars (λ n _ d, if decide (n = name) then fix_data v d else d) b)
  end.

Definition unfix_all (name : string) (b : BlockData) : Res BlockData :=
  match var_objects b !! name with
  | None => Raise (AttributeError name)
  | Some _ => Ok (map_vars (λ n _ d, if decide (n = name) then unfix_data d else d) b)
  end.

(** [blk[k].<name>.activate()] / [.deactivate()]. *)
Definition set_active (name : string) (act : bool) (b : BlockData) : Res BlockData :=
  match constraint_objects b !! name with
  | None => Raise (AttributeError name)
  | Some _ => Ok (map_cons (λ n _ a, if decide (n = name) then act else a) b)
  end.

(** [for c in blk[k].component_objects(Constraint):
       if c.local_name in names: c.activate()] (or [deactivate]). *)
Definition set_active_in (names : list string) (act : bool) : BlockData → BlockData :=
  map_cons (λ n _ a, if decide (n ∈ names) then act else a).

(** [for k in blk.keys(): body(k, blk[k])]. *)
Fixpoint for_each (body : nat → BlockData → Res BlockData) (blk : StateBlock) : Res StateBlock :=
  match blk with
  | [] => Ok []
  | (k, b) :: rest =>
      b' ← body k b;
      rest' ← for_each body rest;
      Ok ((k, b') :: rest')
  end.

Definition for_each_pure (body : BlockData → BlockData) (blk : StateBlock) : StateBlock :=
  prod_map id body <$> blk.

(** ** Construction ([ActivityCoeffStateBlockData.build]) *)

Definition new_var (idxs : list Index) (init : option Q) : Var :=
  list_to_map ((λ i, (i, mkVar init false)) <$> idxs).

Definition add_var (name : string) (idxs : list Index) (init : option Q) (b : BlockData) : BlockData :=
  mkBlock (params b) (defined_state b) (has_phase_equilibrium b)
    (<[name := new_var idxs init]> (var_objects b)) (constraint_objects b).

(** A constraint rule is called once per index; it may mutate the block and
    returns [true] for a relation and [false] for [Constraint.Skip]. *)
Fixpoint run_rule (rule : Index → BlockData → BlockData * bool) (idxs : list Index)
    (b : BlockData) (acc : Constraint) : BlockData * Constraint :=
  match idxs with
  | [] => (b, acc)
  | i :: rest =>
      let '(b', keep) := rule i b in
      run_rule rule rest b' (if keep then <[i := true]> acc else acc)
  end.

Definition add_con (name : string) (idxs : list Index)
    (rule : Index → BlockData → BlockData * bool) (b : BlockData) : BlockData :=
  let '(b', c) := run_rule rule idxs b ∅ in
  mkBlock (params b') (defined_state b') (has_phase_equilibrium b')
    (var_objects b') (<[name := c]> (constraint_objects b')).

Definition relation : Index → BlockData → BlockData * bool := λ _ b, (b, true).

Definition scalar : list Index := [[]].
Definition over (l : list string) : list Index := (λ i, [i]) <$> l.
Definition over2 (l1 l2 : list string) : list Index :=
  i ← l1; (λ j, [i; j]) <$> l2.

Definition one_over_len (l : list string) : Q := 1 # Pos.of_nat (length l).

Definition _make_state_vars (b : BlockData) : BlockData :=
  let cl := component_list (params b) in
  add_var "temperature" scalar (Some 298.15%Q)
    (add_var "pressure" scalar (Some 101325%Q)
      (add_var "mole_frac" (over cl) (Some (one_over_len cl))
        (add_var "flow_mol" scalar (Some 1%Q) b))).

Definition _make_vars (b : BlockData) : BlockData :=
  let cl := component_list (params b) in
  add_var "mole_frac_phase" (over2 (phase_list (params b)) cl) (Some (one_over_len cl))
    (add_var "flow_mol_phase" (over (phase_list (params b))) (Some 0.5%Q) b).

(** The outlet-only constraint shared by the three equation builders. *)
Definition make_mol_frac_out (b : BlockData) : BlockData :=
  if defined_state b then b else add_con "eq_mol_frac_out" scalar relation b.

(** [_make_liq_phase_eq] and [_make_vap_phase_eq] declare the same
    components (only the phase named in the relations differs). *)
Definition _make_liq_phase_eq (b : BlockData) : BlockData :=
  make_mol_frac_out
    (add_con "eq_comp" (over (component_list (params b))) relation
      (add_con "eq_total" scalar relation b)).

Definition _make_vap_phase_eq (b : BlockData) : BlockData :=
  make_mol_frac_out
    (add_con "eq_comp" (over (component_list (params b))) relation
      (add_con "eq_total" scalar relation b)).

(** Properties built on demand when a rule first refers to them
    ([_temperature_bubble], [_temperature_dew], [_pressure_sat]); the
    expressions they declare carry no flag and are left out. *)
Definition _temperature_bubble (b : BlockData) : BlockData :=
  add_con "eq_temperature_bubble" scalar relation
    (add_var "temperature_bubble" scalar (Some 298.15%Q) b).

Definition _temperature_dew (b : BlockData) : BlockData :=
  add_con "eq_temperature_dew" scalar relation
    (add_var "temperature_dew" scalar (Some 298.15%Q) b).

Definition _pressure_sat (b : BlockData) : BlockData :=
  let cl := component_list (params b) in
  add_con "eq_P_vap" (over cl) relation
    (add_var "pressure_sat" (over cl) (Some 101325%Q) b).

Definition _make_flash_eq (b : BlockData) : BlockData :=
  let cl := component_list (params b) in
  let b := add_con "eq_total" scalar relation b in
  let b := add_con "eq_comp" (over cl) relation b in
  let b := add_con "eq_sum_mol_frac" scalar relation b in
  let b := make_mol_frac_out b in
  let t := value <$> lookup_var b "temperature" [] in
  let b := add_var "_temperature_equilibrium" scalar (mjoin t) b in
  let b := add_var "_t1" scalar (mjoin t) b in
  let b := add_con "_t1_constraint" scalar relation (_temperature_bubble b) in
  let b := add_con "_teq_constraint" scalar relation (_temperature_dew b) in
  add_con "eq_phase_equilibrium" (over cl) relation (_pressure_sat b).

(** [rule_Gij_coeff]: off the diagonal a relation, on the diagonal the
    coefficient is fixed to one and the constraint skipped. *)
Definition rule_Gij_coeff (ij : Index) (b : BlockData) : BlockData * bool :=
  match ij with
  | [i; j] => if decide (i ≠ j) then (b, true)
              else (fix_at "Gij_coeff" [i; j] 1%Q b, false)
  | _ => (b, true)
  end.

(** The variables and constraints the two models share. *)
Definition make_activity_eqs (b : BlockData) : BlockData :=
  let cl := component_list (params b) in
  let b := add_var "Gij_coeff" (over2 cl cl) (Some 1%Q) b in
  let b := add_var "activity_coeff_comp" (over cl) (Some 1%Q) b in
  let b := add_var "A" (over cl) (Some 1%Q) b in
  let b := add_var "B" (over cl) (Some 1%Q) b in
  let b := add_con "eq_Gij_coeff" (over2 cl cl) rule_Gij_coeff b in
  let b := add_con "eq_A" (over cl) relation b in
  let b := add_con "eq_B" (over cl) relation b in
  add_con "eq_activity_coeff" (over cl) relation b.

Definition _make_NRTL_eq (b : BlockData) : BlockData :=
  let cl := component_list (params b) in
  make_activity_eqs
    (add_var "tau" (over2 cl cl) (Some 1%Q)
      (add_var "alpha" (over2 cl cl) (Some 0.3%Q) b)).

Definition _make_Wilson_eq (b : BlockData) : BlockData :=
  let cl := component_list (params b) in
  make_activity_eqs
    (add_var "tau" (over2 cl cl) (Some 1%Q)
      (add_var "vol_mol_comp" (over cl) (Some 1%Q) b)).

(** The test repeated in [build] and in [initialize]. *)
Definition two_phase (has_pe : bool) (p : ParameterBlock) : bool :=
  has_pe || bool_decide (valid_phase p = Liq_Vap) || bool_decide (valid_phase p = Vap_Liq).

Definition build (p : ParameterBlock) (defined has_pe : bool) : Res BlockData :=
  if has_pe && bool_decide (valid_phase p ∈ [Vap; Liq]) then Raise ConfigurationError
  else
    let b := _make_vars (_make_state_vars (mkBlock p defined has_pe ∅ ∅)) in
    let b := if negb has_pe && bool_decide (valid_phase p = Liq)
             then _make_liq_phase_eq b else b in
    let b := if two_phase has_pe p then
               let b := if bool_decide (activity_coeff_model p = NRTL)
                        then _make_NRTL_eq b else b in
               let b := if bool_decide (activity_coeff_model p = Wilson)
                        then _make_Wilson_eq b else b in
               _make_flash_eq b
             else b in
    let b := if negb has_pe && bool_decide (valid_phase p = Vap)
             then _make_vap_phase_eq b else b in
    Ok b.

(** ** The solver interface *)

(** [pyomo.opt.TerminationCondition]: the routine only compares against
    [optimal]; every other member of the enumeration is carried by name. *)
Inductive TerminationCondition :=
  | optimal
  | other_condition (name : string).

#[export] Instance TerminationCondition_eq_dec : EqDecision TerminationCondition.
Proof. solve_decision. Defined.

(** What a solve hands back: a termination condition and, per key, the
    values it found. *)
Record SolverResults := mkResults {
  termination_condition : TerminationCondition;
  solution : nat → string → Index → option Q
}.

(** Loading a solution never touches a fixed variable, nor any flag. *)
Definition load_value (new : option Q) (d : VarData) : VarData :=
  if fixed d then d else mkVar (from_option Some (value d) new) false.

Definition load (new : string → Index → option Q) : BlockData → BlockData :=
  map_vars (λ n i, load_value (new n i)).

Definition load_solution (r : SolverResults) (blk : StateBlock) : StateBlock :=
  (λ kb, (kb.1, load (solution r kb.1) kb.2)) <$> blk.

(** ** Logging *)

Inductive LogLevel := INFO | WARNING.
Inductive LogMsg :=
  | step_completed (n : nat)     (* "Initialisation step n for ... completed" *)
  | step_failed (n : nat)        (* "Initialisation step n for ... failed" *)
  | step_skipped (n : nat)       (* "Initialisation step n for ... skipped" *)
  | initialisation_completed     (* "Initialisation completed for ..." *)
  | state_released.              (* "... State Released." *)

(** What an observer of a run sees: each solver call, with the block as the
    solver received it and the condition it returned, and each log record. *)
Inductive Event :=
  | Solve (step : nat) (snapshot : StateBlock) (tc : TerminationCondition)
  | Log (lvl : LogLevel) (msg : LogMsg).

(** The flag dictionary returned by [initialize]. *)
Record Flags := mkFlags {
  Fflag : gmap nat bool;
  Xflag : gmap (nat * string) bool;
  Pflag : gmap nat bool;
  Tflag : gmap nat bool
}.

Definition dict_get {K} `{Countable K} (m : gmap K bool) (k : K) : Res bool :=
  match m !! k with Some f => Ok f | None => Raise KeyError end.

(** ** [release_state] *)

Definition release_if (flag : bool) (name : string) (i : Index) (b : BlockData) : Res BlockData :=
  if flag then Ok b
  else _ ← get_var name i b; Ok (unfix_at name i b).

Fixpoint release_mole_frac (X : gmap (nat * string) bool) (k : nat) (js : list string)
    (b : BlockData) : Res BlockData :=
  match js with
  | [] => Ok b
  | j :: js' =>
      f ← dict_get X (k, j);
      b' ← release_if f "mole_frac" [j] b;
      release_mole_frac X k js' b'
  end.

Definition release_block (flags : Flags) (k : nat) (b : BlockData) : Res BlockData :=
  f ← dict_get (Fflag flags) k;
  b ← release_if f "flow_mol" [] b;
  b ← release_mole_frac (Xflag flags) k (component_list (params b)) b;
  p ← dict_get (Pflag flags) k;
  b ← release_if p "pressure" [] b;
  t ← dict_get (Tflag flags) k;
  release_if t "temperature" [] b.

Definition release_state (blk : StateBlock) (flags : option Flags) (outlvl : Z)
    : Res (StateBlock * list Event) :=
  match flags with
  | None => Ok (blk, [])
  | Some fl =>
      blk' ← for_each (release_block fl) blk;
      Ok (blk', if (0 <? outlvl)%Z then [Log INFO state_released] else [])
  end.

(** ** [initialize] *)

(** The two steps of "fix state variables if not already fixed": record the
    flag, and fix the variable when it was free.  The value is only
    evaluated in that case. *)
Definition hold_var (name : string) (i : Index) (v : Res Q) (b : BlockData)
    : Res (bool * BlockData) :=
  d ← get_var name i b;
  if fixed d then Ok (true, b)
  else q ← v; Ok (false, fix_at name i q b).

Definition given (arg : option Q) (default : Q) : Res Q := Ok (from_option id default arg).

Definition mole_frac_value (mole_frac : option (gmap string Q)) (cl : list string) (j : string)
    : Res Q :=
  match mole_frac with
  | None => Ok (one_over_len cl)
  | Some mf => match mf !! j with Some q => Ok q | None => Raise KeyError end
  end.

Fixpoint hold_mole_frac (mole_frac : option (gmap string Q)) (cl : list string) (k : nat)
    (js : list string) (X : gmap (nat * string) bool) (b : BlockData)
    : Res (gmap (nat * string) bool * BlockData) :=
  match js with
  | [] => Ok (X, b)
  | j :: js' =>
      '(f, b') ← hold_var "mole_frac" [j] (mole_frac_value mole_frac cl j) b;
      hold_mole_frac mole_frac cl k js' (<[(k, j) := f]> X) b'
  end.

Definition hold_block (flow_mol : option Q) (mole_frac : option (gmap string Q))
    (temperature pressure : option Q) (k : nat) (b : BlockData) (flags : Flags)
    : Res (Flags * BlockData) :=
  let cl := component_list (params b) in
  '(f, b) ← hold_var "flow_mol" [] (given flow_mol 1%Q) b;
  '(X, b) ← hold_mole_frac mole_frac cl k cl (Xflag flags) b;
  '(p, b) ← hold_var "pressure" [] (given pressure 101325%Q) b;
  '(t, b) ← hold_var "temperature" [] (given temperature 300%Q) b;
  Ok (mkFlags (<[k := f]> (Fflag flags)) X (<[k := p]> (Pflag flags))
              (<[k := t]> (Tflag flags)), b).

Fixpoint hold_state_vars (flow_mol : option Q) (mole_frac : option (gmap string Q))
    (temperature pressure : option Q) (blk : StateBlock) (flags : Flags)
    : Res (Flags * StateBlock) :=
  match blk with
  | [] => Ok (flags, [])
  | (k, b) :: rest =>
      '(flags', b') ← hold_block flow_mol mole_frac temperature pressure k b flags;
      '(flags'', rest') ← hold_state_vars flow_mol mole_frac temperature pressure rest flags';
      Ok (flags'', (k, b') :: rest')
  end.

Definition no_flags : Flags := mkFlags ∅ ∅ ∅ ∅.

Definition not_ideal (b : BlockData) : bool :=
  bool_decide (activity_coeff_model (params b) ≠ Ideal).

(** The constraint names of the three name-driven loops. *)
Definition deactivated_for_first_solve : list string :=
  ["eq_total"; "eq_comp"; "eq_sum_mol_frac"; "eq_phase_equilibrium";
   "eq_enth_mol_phase"; "eq_entr_mol_phase"; "eq_Gij_coeff"; "eq_A"; "eq_B";
   "eq_activity_coeff"].
Definition balance_constraints : list string :=
  ["eq_total"; "eq_comp"; "eq_sum_mol_frac"; "eq_phase_equilibrium"].
Definition interaction_constraints : list string := ["eq_Gij_coeff"; "eq_A"; "eq_B"].
Definition enthalpy_constraints : list string := ["eq_enth_mol_phase"; "eq_entr_mol_phase"].

(** The bodies of the [for k in blk.keys()] loops of [initialize]. *)

(** [if blk[k].config.defined_state is False: blk[k].eq_mol_frac_out.activate()]
    (or [deactivate]). *)
Definition outlet_constraint (act : bool) (b : BlockData) : Res BlockData :=
  if defined_state b then Ok b else set_active "eq_mol_frac_out" act b.

(** Before the second solve: balances on, activity coefficient assumed ideal. *)
Definition activate_balances (b : BlockData) : Res BlockData :=
  let b := set_active_in balance_constraints true b in
  if not_ideal b then fix_all "activity_coeff_comp" 1%Q b else Ok b.

(** Before the third solve. *)
Definition activate_interaction (b : BlockData) : BlockData :=
  if not_ideal b then set_active_in interaction_constraints true b else b.

(** Before the fourth solve. *)
Definition activate_activity (b : BlockData) : Res BlockData :=
  if not_ideal b then
    b ← set_active "eq_activity_coeff" true b;
    unfix_all "activity_coeff_comp" b
  else Ok b.

Section Initialize.
(** The external collaborators: [degrees_of_freedom] of [idaes.ui.report]
    and the nonlinear solver behind [solve_indexed_blocks], told which of
    the five call sites it serves. *)
Context (degrees_of_freedom : BlockData → Z).
Context (solver : nat → StateBlock → SolverResults).

Fixpoint check_dof (blk : StateBlock) : Res unit :=
  match blk with
  | [] => Ok ()
  | (k, b) :: rest =>
      if decide (degrees_of_freedom b ≠ 0%Z) then Raise DofException
      else check_dof rest
  end.

(** [results = solve_indexed_blocks(opt, [blk], tee=stee)] followed by the
    report of its termination condition. *)
Definition report (outlvl : Z) (n : nat) (tc : TerminationCondition) : list Event :=
  if (0 <? outlvl)%Z then
    [if decide (tc = optimal) then Log INFO (step_completed n)
     else Log WARNING (step_failed n)]
  else [].

Definition solve_step (outlvl : Z) (n : nat) (st : StateBlock * list Event)
    : StateBlock * list Event :=
  let r := solver n st.1 in
  (load_solution r st.1,
   st.2 ++ Solve n st.1 (termination_condition r) :: report outlvl n (termination_condition r)).

(** Lines 284-407: the five solves and the constraint switching between
    them, ending with the outlet constraint switched back on. *)
Definition solve_sequence (outlvl : Z) (blk : StateBlock) : Res (StateBlock * list Event) :=
  (* Deactivating certain constraints for the first solve *)
  let blk := for_each_pure (set_active_in deactivated_for_first_solve false) blk in
  (* First solve: [k] is the last key of the loop above *)
  kb ← from_option Ok (Raise UnboundLocalError) (last blk);
  let st :=
    if two_phase (has_phase_equilibrium kb.2) (params kb.2)
    then solve_step outlvl 1 (blk, [])
    else (blk, if (0 <? outlvl)%Z then [Log INFO (step_skipped 1)] else []) in
  (* Continue the sequence and activate select constraints *)
  blk ← for_each (λ _, activate_balances) st.1;
  let st := solve_step outlvl 2 (blk, st.2) in
  (* Activate activity coefficient specific constraints *)
  let blk := for_each_pure activate_interaction st.1 in
  let st := solve_step outlvl 3 (blk, st.2) in
  blk ← for_each (λ _, activate_activity) st.1;
  let st := solve_step outlvl 4 (blk, st.2) in
  let blk := for_each_pure (set_active_in enthalpy_constraints true) st.1 in
  let st := solve_step outlvl 5 (blk, st.2) in
  blk ← for_each (λ _, outlet_constraint true) st.1;
  Ok (blk, st.2).

Definition initialize (blk : StateBlock)
    (flow_mol : option Q) (mole_frac : option (gmap string Q))
    (temperature pressure : option Q)
    (hold_state state_vars_fixed : bool) (outlvl : Z)
    : Res (option Flags * StateBlock * list Event) :=
  (* Deactivate the constraints specific for outlet blocks *)
  blk ← for_each (λ _, outlet_constraint false) blk;
  (* Fix state variables if not already fixed *)
  '(flags, blk) ←
    (if state_vars_fixed then _ ← check_dof blk; Ok (None, blk)
     else '(fl, blk') ← hold_state_vars flow_mol mole_frac temperature pressure blk no_flags;
          Ok (Some fl, blk'));
  '(blk, tr) ← solve_sequence outlvl blk;
  let done := if (0 <? outlvl)%Z then [Log INFO initialisation_completed] else [] in
  if state_vars_fixed then Ok (None, blk, tr ++ done)
  else if hold_state then Ok (flags, blk, tr)
  else
    '(blk, released) ← release_state blk flags 0;
    Ok (None, blk, tr ++ released ++ done).

(** The trace of a completed sequence. *)
Definition sequence_trace (outlvl : Z) (two : bool) (S1 S2 S3 S4 S5 : StateBlock)
    : list Event :=
  let tc n S := termination_condition (solver n S) in
  (if two then Solve 1 S1 (tc 1 S1) :: report outlvl 1 (tc 1 S1)
   else if (0 <? outlvl)%Z then [Log INFO (step_skipped 1)] else [])
  ++ (Solve 2 S2 (tc 2 S2) :: report outlvl 2 (tc 2 S2))
  ++ (Solve 3 S3 (tc 3 S3) :: report outlvl 3 (tc 3 S3))
  ++ (Solve 4 S4 (tc 4 S4) :: report outlvl 4 (tc 4 S4))
  ++ (Solve 5 S5 (tc 5 S5) :: report outlvl 5 (tc 5 S5)).

End Initialize.

Definition block_sequence (two : bool) (v1 v2 v3 v4 v5 : string → Index → option Q)
    (b : BlockData) : Res (BlockData * BlockData * BlockData * BlockData * BlockData * BlockData) :=
  let s1 := set_active_in deactivated_for_first_solve false b in
  let b := if two then load v1 s1 else s1 in
  s2 ← activate_balances b;
  let s3 := activate_interaction (load v2 s2) in
  s4 ← activate_activity (load v3 s3);
  let s5 := set_active_in enthalpy_constraints true (load v4 s4) in
  bF ← outlet_constraint true (load v5 s5);
  Ok (s1, s2, s3, s4, s5, bF).

(** The state variables of a data object, in the order the routine visits
    them, and the flag the dictionary holds for each. *)
Definition state_vars (cl : list string) : list (string * Index) :=
  ("flow_mol", []) :: ((λ j, ("mole_frac", [j])) <$> cl) ++ [("pressure", []); ("temperature", [])].

Definition flag_of (fl : Flags) (k : nat) (n : string) (i : Index) : option bool :=
  if decide (n = "flow_mol" ∧ i = []) then Fflag fl !! k
  else if decide (n = "pressure" ∧ i = []) then Pflag fl !! k
  else if decide (n = "temperature" ∧ i = []) then Tflag fl !! k
  else match i with
       | [j] => if decide (n = "mole_frac") then Xflag fl !! (k, j) else None
       | _ => None
       end.

(** Reading a trace: the block a given solve received, and the solves in
    the order they ran. *)
Fixpoint snapshot (n : nat) (tr : list Event) : option StateBlock :=
  match tr with
  | [] => None
  | Solve m blk _ :: tr' => if decide (m = n) then Some blk else snapshot n tr'
  | Log _ _ :: tr' => snapshot n tr'
  end.

Definition solve_steps (tr : list Event) : list nat :=
  omap (λ e, match e with Solve n _ _ => Some n | Log _ _ => None end) tr.

Definition is_log (e : Event) : bool :=
  match e with Log _ _ => true | Solve _ _ _ => false end.

(** [transforms g h b b']: [b'] is [b] with every variable data object sent
    through [g] and every constraint flag through [h]; nothing is created or
    deleted and the configuration is untouched. *)
Record transforms (g : string → Index → VarData → VarData)
    (h : string → Index → bool → bool) (b b' : BlockData) : Prop := {
  tf_params : params b' = params b;
  tf_defined : defined_state b' = defined_state b;
  tf_pe : has_phase_equilibrium b' = has_phase_equilibrium b;
  tf_var_obj : ∀ n, is_Some (var_objects b' !! n) ↔ is_Some (var_objects b !! n);
  tf_con_obj : ∀ n, is_Some (constraint_objects b' !! n) ↔ is_Some (constraint_objects b !! n);
  tf_var : ∀ n i, lookup_var b' n i = g n i <$> lookup_var b n i;
  tf_con : ∀ n i, lookup_con b' n i = h n i <$> lookup_con b n i
}.

Definition keep {A} : string → Index → A → A := λ _ _ x, x.

(** The pointwise effect of each loop body. *)
Definition switch (cond : bool) (names : list string) (act : bool)
    : string → Index → bool → bool :=
  λ n _ a, if cond && bool_decide (n ∈ names) then act else a.

Definition assume_ideal (ni : bool) : string → Index → VarData → VarData :=
  λ n _ d, if ni && bool_decide (n = "activity_coeff_comp") then fix_data 1%Q d else d.

Definition free_activity (ni : bool) : string → Index → VarData → VarData :=
  λ n _ d, if ni && bool_decide (n = "activity_coeff_comp") then unfix_data d else d.

Definition loaded (new : string → Index → option Q) : string → Index → VarData → VarData :=
  λ n i, load_value (new n i).

(** [holds S b b']: the variables listed in [S] are fixed in [b'], fixed
    variables keep their data and nothing else changes. *)
Definition holds (S : list (string * Index)) (b b' : BlockData) : Prop :=
  ∃ g, transforms g keep b b' ∧
       (∀ n i d, fixed d = true → g n i d = d) ∧
       (∀ n i d, (n, i) ∉ S → g n i d = d) ∧
       (∀ n i d, (n, i) ∈ S → fixed (g n i d) = true).

Definition hold_data (q : Q) (d : VarData) : VarData :=
  if fixed d then d else fix_data q d.

Abbreviation mole_fracs js := ((λ j : string, ("mole_frac", [j])) <$> js).

Definition released (fl : Flags) (k : nat) (S : list (string * Index))
    : string → Index → VarData → VarData :=
  λ n i d, if bool_decide ((n, i) ∈ S) && bool_decide (flag_of fl k n i = Some false)
           then unfix_data d else d.

(** [prepared svf b bH]: [bH] is [b] as the solve sequence receives it. *)
Definition prepared (svf : bool) (b bH : BlockData) : Prop :=
  ∃ g, transforms g (switch (negb (defined_state b)) ["eq_mol_frac_out"] false) b bH ∧
       (∀ n i d, fixed d = true → g n i d = d) ∧
       (∀ n i d, (n, i) ∉ state_vars (component_list (params b)) → g n i d = d) ∧
       (svf = true → ∀ n i d, g n i d = d).

(** Invariants of a data object that every step of the routine preserves. *)
Definition Gij_diagonal_ok (b : BlockData) : Prop :=
  ∀ i, i ∈ component_list (params b) →
    lookup_var b "Gij_coeff" [i; i] = Some (mkVar (Some 1%Q) true) ∧
    lookup_con b "eq_Gij_coeff" [i; i] = None.

Definition keeps_fixed (g : string → Index → VarData → VarData) : Prop :=
  ∀ n i d, fixed d = true → g n i d = d.

Definition activity_constraints : list string := "eq_activity_coeff" :: interaction_constraints.

(** What a non-ideal data object looks like when the second, third and
    fourth solve receive it. *)
Definition staged_non_ideal (s2 s3 s4 : BlockData) : Prop :=
  (* second solve: coefficient fixed at one, its equations still off *)
  (∀ i d, lookup_var s2 "activity_coeff_comp" i = Some d → d = mkVar (Some 1%Q) true) ∧
  (∀ c i a, c ∈ activity_constraints → lookup_con s2 c i = Some a → a = false) ∧
  (* third solve: Gij, A and B back on, coefficient still fixed at one *)
  (∀ i d, lookup_var s3 "activity_coeff_comp" i = Some d → d = mkVar (Some 1%Q) true) ∧
  (∀ c i a, c ∈ interaction_constraints → lookup_con s3 c i = Some a → a = true) ∧
  (∀ i a, lookup_con s3 "eq_activity_coeff" i = Some a → a = false) ∧
  (* fourth solve: the coefficient's own equation on, the coefficient free *)
  (∀ i d, lookup_var s4 "activity_coeff_comp" i = Some d → fixed d = false) ∧
  (∀ c i a, c ∈ activity_constraints → lookup_con s4 c i = Some a → a = true).

(** For an ideal data object nothing of the kind happens: the coefficient's
    flag is never written and the four constraints stay off. *)
Definition staged_ideal (b s : BlockData) : Prop :=
  (∀ i, fixed <$> lookup_var s "activity_coeff_comp" i
        = fixed <$> lookup_var b "activity_coeff_comp" i) ∧
  (∀ c i a, c ∈ activity_constraints → lookup_con s c i = Some a → a = false).



(** Two outcomes: the same exception, or two related results. *)
Definition same_outcome {A} (R : A → A → Prop) (m m' : Res A) : Prop :=
  match m, m' with
  | Ok a, Ok a' => R a a'
  | Raise e, Raise e' => e = e'
  | _, _ => False
  end.



Definition is_diagonal (ix : Index) : bool :=
  match ix with [i; j] => bool_decide (i = j) | _ => false end.


(** ** Vocabulary of the further statements *)

(** Whether a constraint named [n], active or not ([a]) before
    [initialize], is active when the [stage]-th solve receives the block
    (stages 1 to 5) and when [initialize] returns (stage 6). *)
Definition constraint_active_at (stage : nat) (ni defined : bool) (n : string) (a : bool)
    : bool :=
  if bool_decide (n = "eq_mol_frac_out") then
    (if defined then a else bool_decide (6 ≤ stage))
  else if bool_decide (n ∈ balance_constraints) then bool_decide (2 ≤ stage)
  else if bool_decide (n ∈ interaction_constraints) then ni && bool_decide (3 ≤ stage)
  else if bool_decide (n = "eq_activity_coeff") then ni && bool_decide (4 ≤ stage)
  else if bool_decide (n ∈ enthalpy_constraints) then bool_decide (5 ≤ stage)
  else a.

Definition named_constraints : list string :=
  "eq_mol_frac_out" :: deactivated_for_first_solve.

(** The value [initialize] fixes a free state variable at: the argument
    given for it, or the default of the routine. *)
Definition held_value (flow_mol : option Q) (mole_frac : option (gmap string Q))
    (temperature pressure : option Q) (cl : list string) (n : string) (i : Index)
    : option Q :=
  if decide (n = "flow_mol") then Some (from_option id 1%Q flow_mol)
  else if decide (n = "pressure") then Some (from_option id 101325%Q pressure)
  else if decide (n = "temperature") then Some (from_option id 300%Q temperature)
  else match i with
       | [j] => match mole_frac with
                | None => Some (one_over_len cl)
                | Some mf => mf !! j
                end
       | _ => None
       end.

(** [holds_at V S b b']: [b'] is [b] with the free variables listed in [S]
    fixed at the values [V] gives, and nothing else changed. *)
Definition holds_at (V : string → Index → option Q) (S : list (string * Index))
    (b b' : BlockData) : Prop :=
  ∃ g, transforms g keep b b' ∧
       (∀ n i d, fixed d = true → g n i d = d) ∧
       (∀ n i d, (n, i) ∉ S → g n i d = d) ∧
       (∀ n i d, (n, i) ∈ S → fixed d = false → g n i d = mkVar (V n i) true).

(** [lookup_error e]: [e] is what a missing component or a missing index
    raises. *)
Definition lookup_error (e : Exn) : Prop := e = KeyError ∨ ∃ n, e = AttributeError n.

(** The names of the state variables. *)
Definition state_var_names : list string := ["flow_mol"; "mole_frac"; "pressure"; "temperature"].

(** [extends b b']: [b'] is [b] with further components declared; the
    configuration, the components already declared and the state variables
    are as in [b]. *)
Record extends (b b' : BlockData) : Prop := {
  ext_params : params b' = params b;
  ext_defined : defined_state b' = defined_state b;
  ext_pe : has_phase_equilibrium b' = has_phase_equilibrium b;
  ext_var_obj : ∀ n, is_Some (var_objects b !! n) → is_Some (var_objects b' !! n);
  ext_con_obj : ∀ n, is_Some (constraint_objects b !! n) →
                     is_Some (constraint_objects b' !! n);
  ext_state : ∀ n i, n ∈ state_var_names → lookup_var b' n i = lookup_var b n i
}.

(** The state variables as [_make_state_vars] declares them. *)
Definition initial_state_value (cl : list string) (n : string) : Q :=
  if decide (n = "flow_mol") then 1
  else if decide (n = "mole_frac") then one_over_len cl
  else if decide (n = "pressure") then 101325
  else 298.15.

(** [equipped b]: the components [initialize] refers to by name are
    declared on [b]. *)
Definition equipped (b : BlockData) : Prop :=
  (defined_state b = false → is_Some (constraint_objects b !! "eq_mol_frac_out")) ∧
  (not_ideal b = true → is_Some (var_objects b !! "activity_coeff_comp") ∧
                        is_Some (constraint_objects b !! "eq_activity_coeff")).

(** [has_state_vars b]: the state variables of [b] are declared for every
    component. *)
Definition has_state_vars (b : BlockData) : Prop :=
  ∀ n i, (n, i) ∈ state_vars (component_list (params b)) → is_Some (lookup_var b n i).

(** [covers mole_frac b]: a [mole_frac] argument has an entry for every
    component of [b]. *)
Definition covers (mole_frac : option (gmap string Q)) (b : BlockData) : Prop :=
  ∀ mf j, mole_frac = Some mf → j ∈ component_list (params b) → is_Some (mf !! j).

(** The solver calls of a trace: its events without the log records. *)
Definition solver_calls (tr : list Event) : list Event :=
  filter (λ e, is_log e = false) tr.

(** Two results that differ at most in their log records. *)
Definition same_but_log (x y : option Flags * StateBlock * list Event) : Prop :=
  x.1.1 = y.1.1 ∧ x.1.2 = y.1.2 ∧ solver_calls x.2 = solver_calls y.2.

End ActivityCoeff.

(** * The supercritical power-plant flowsheet *)

Module Flowsheet.

(** ** Data model

    A component of the flowsheet is named by its attribute path below
    [m.fs], as the source writes it ([m.fs.boiler.inlet.flow_mol] is
    [["boiler"; "inlet"; "flow_mol"]]), and a data object of it by its index:
    a time point, or a time point and an outlet name.  The model records the
    [fixed] flag and the value of every variable and the [active] flag of
    every constraint, and the Python attributes that a plain assignment
    binds on a component itself (the container of its data objects). *)

Inductive Key :=
  | time (t : nat)
  | label (s : string).

Abbreviation Path := (list string).
Abbreviation Idx := (list Key).

Record Model := mkModel {
  fixed : Path → Idx → bool;
  value : Path → Idx → option Q;
  active : Path → Idx → bool;
  attribute : Path → string → option Q
}.

Fixpoint path_eqb (p q : Path) : bool :=
  match p, q with
  | [], [] => true
  | a :: p, b :: q => String.eqb a b && path_eqb p q
  | _, _ => false
  end.

(** The three ways the source addresses the data objects of a component:
    [x.fix(v)], [x[:].fix(v)] and [x[:, "outlet_2"].fix(v)]. *)
Inductive Slice :=
  | whole
  | every_time
  | every_time_at (outlet : string).

Definition in_slice (s : Slice) (i : Idx) : bool :=
  match s with
  | whole => true
  | every_time => match i with [time _] => true | _ => false end
  | every_time_at o => match i with [time _; label o'] => String.eqb o o' | _ => false end
  end.

Definition selects (p : Path) (s : Slice) (q : Path) (i : Idx) : bool :=
  path_eqb p q && in_slice s i.

(** The members of a port are the variables one attribute below it. *)
Fixpoint port_member (port var : Path) : bool :=
  match port, var with
  | [], [_] => true
  | a :: port, b :: var => String.eqb a b && port_member port var
  | _, _ => false
  end.

Definition fix_var (p : Path) (s : Slice) (v : Q) (m : Model) : Model :=
  mkModel (λ q i, if selects p s q i then true else fixed m q i)
          (λ q i, if selects p s q i then Some v else value m q i)
          (active m) (attribute m).

Definition unfix_var (p : Path) (s : Slice) (m : Model) : Model :=
  mkModel (λ q i, if selects p s q i then false else fixed m q i) (value m) (active m)
          (attribute m).

(** [x.value = v] where [x] is an indexed component, as the port member of
    line 719 is (it refers to the variable of every time point).  Only the
    data objects of a variable have a [value] to set; on the component
    itself the assignment binds the Python attribute [value] and no data
    object is written. *)
Definition set_value (p : Path) (v : Q) (m : Model) : Model :=
  mkModel (fixed m) (value m) (active m)
          (λ q a, if path_eqb p q && String.eqb a "value" then Some v else attribute m q a).

Definition unfix_port (port : Path) (m : Model) : Model :=
  mkModel (λ q i, if port_member port q then false else fixed m q i) (value m) (active m)
          (attribute m).

Definition deactivate (c : Path) (m : Model) : Model :=
  mkModel (fixed m) (value m) (λ q i, if path_eqb c q then false else active m q i)
          (attribute m).

Definition activate (c : Path) (m : Model) : Model :=
  mkModel (fixed m) (value m) (λ q i, if path_eqb c q then true else active m q i)
          (attribute m).

(** A block of statements. *)
Definition statements (l : list (Model → Model)) (m : Model) : Model :=
  foldl (λ m f, f m) m l.

(** ** [set_model_input] *)

Definition main_steam_pressure : Q := 24235081.4.

Definition set_model_input : Model → Model := statements [
  fix_var ["boiler"; "inlet"; "flow_mol"] whole 29111;
  fix_var ["boiler"; "outlet"; "pressure"] whole main_steam_pressure;
  fix_var ["reheater"; "deltaP"] whole (-96526.64);
  fix_var ["turbine_1"; "ratioP"] whole (0.8 ^ 5);
  fix_var ["turbine_1"; "efficiency_isentropic"] whole 0.94;
  fix_var ["turbine_2"; "ratioP"] whole (0.8 ^ 2);
  fix_var ["turbine_2"; "efficiency_isentropic"] whole 0.94;
  fix_var ["turbine_3"; "ratioP"] whole (0.79 ^ 4);
  fix_var ["turbine_3"; "efficiency_isentropic"] whole 0.88;
  fix_var ["turbine_4"; "ratioP"] whole (0.79 ^ 6);
  fix_var ["turbine_4"; "efficiency_isentropic"] whole 0.88;
  fix_var ["turbine_5"; "ratioP"] whole (0.64 ^ 2);
  fix_var ["turbine_5"; "efficiency_isentropic"] whole 0.78;
  fix_var ["turbine_6"; "ratioP"] whole (0.64 ^ 2);
  fix_var ["turbine_6"; "efficiency_isentropic"] whole 0.78;
  fix_var ["turbine_7"; "ratioP"] whole (0.64 ^ 2);
  fix_var ["turbine_7"; "efficiency_isentropic"] whole 0.78;
  fix_var ["turbine_8"; "ratioP"] whole (0.64 ^ 2);
  fix_var ["turbine_8"; "efficiency_isentropic"] whole 0.78;
  fix_var ["turbine_9"; "ratioP"] whole 0.5;
  fix_var ["turbine_9"; "efficiency_isentropic"] whole 0.78;
  (* Condenser section *)
  fix_var ["cond_pump"; "efficiency_pump"] whole 0.80;
  fix_var ["cond_pump"; "deltaP"] whole 1e6;
  (* Make up stream to condenser *)
  set_value ["condenser_mix"; "makeup"; "flow_mol"] 1.08002495835536e-12;
  fix_var ["condenser_mix"; "makeup"; "pressure"] whole 103421.4;
  fix_var ["condenser_mix"; "makeup"; "enth_mol"] whole 1131.69204;
  (* Low pressure FWH section inputs *)
  fix_var ["fwh1"; "area"] whole 400;
  fix_var ["fwh1"; "overall_heat_transfer_coefficient"] whole 2000;
  fix_var ["fwh2"; "area"] whole 300;
  fix_var ["fwh2"; "overall_heat_transfer_coefficient"] whole 2900;
  fix_var ["fwh3"; "area"] whole 200;
  fix_var ["fwh3"; "overall_heat_transfer_coefficient"] whole 2900;
  fix_var ["fwh4"; "area"] whole 200;
  fix_var ["fwh4"; "overall_heat_transfer_coefficient"] whole 2900;
  (* Deaerator and boiler feed pump (BFP) Input *)
  fix_var ["t4_splitter"; "split_fraction"] (every_time_at "outlet_2") 0.050331;
  fix_var ["bfp"; "efficiency_pump"] whole 0.80;
  fix_var ["bfp"; "outlet"; "pressure"] every_time (main_steam_pressure * 1.15);
  fix_var ["bfpt"; "efficiency_isentropic"] whole 0.80;
  (* High pressure feedwater heater *)
  fix_var ["fwh6"; "area"] whole 600;
  fix_var ["fwh6"; "overall_heat_transfer_coefficient"] whole 2900;
  fix_var ["fwh7"; "area"] whole 400;
  fix_var ["fwh7"; "overall_heat_transfer_coefficient"] whole 2900;
  fix_var ["fwh8"; "area"] whole 400;
  fix_var ["fwh8"; "overall_heat_transfer_coefficient"] whole 2900
]%Q.

(** ** [initialize] *)

Inductive TerminationCondition :=
  | optimal
  | other_condition (name : string).

(** What a solve hands back: a termination condition and new values, which
    Pyomo loads into the variables that are not fixed. *)
Record SolverResults := mkResults {
  termination_condition : TerminationCondition;
  solution : Path → Idx → option Q
}.

Definition load_solution (r : SolverResults) (m : Model) : Model :=
  mkModel (fixed m)
          (λ q i, if fixed m q i then value m q i
                  else match solution r q i with Some v => Some v | None => value m q i end)
          (active m) (attribute m).

Inductive Output :=
  | model_initialization (tc : TerminationCondition)
  | model_initialized.

(** The split fractions the routine assumes while the units are initialised
    one by one, and the constraints it switches off meanwhile. *)
Definition fix_split_fractions : Model → Model := statements [
  fix_var ["t1_splitter"; "split_fraction"] (every_time_at "outlet_2") 0.12812;
  fix_var ["t2_splitter"; "split_fraction"] (every_time_at "outlet_2") 0.061824;
  fix_var ["t3_splitter"; "split_fraction"] (every_time_at "outlet_2") 0.03815;
  fix_var ["t4_splitter"; "split_fraction"] (every_time_at "outlet_1") 0.9019;
  fix_var ["t5_splitter"; "split_fraction"] (every_time_at "outlet_2") 0.0381443;
  fix_var ["t6_splitter"; "split_fraction"] (every_time_at "outlet_2") 0.017535;
  fix_var ["t7_splitter"; "split_fraction"] (every_time_at "outlet_2") 0.0154;
  fix_var ["t8_splitter"; "split_fraction"] (every_time_at "outlet_2") 0.00121
]%Q.

Definition deactivate_constraints : Model → Model := statements [
  deactivate ["constraint_out_pressure"];
  deactivate ["fwh1"; "fwh1_vaporfrac_constraint"];
  deactivate ["fwh2"; "fwh2_vaporfrac_constraint"];
  deactivate ["fwh3"; "fwh3_vaporfrac_constraint"];
  deactivate ["fwh4"; "fwh4_vaporfrac_constraint"];
  deactivate ["fwh6"; "fwh6_vaporfrac_constraint"];
  deactivate ["fwh7"; "fwh7_vaporfrac_constraint"];
  deactivate ["fwh8"; "fwh8_vaporfrac_constraint"]
].

Definition unfix_split_fractions : Model → Model := statements [
  unfix_var ["t1_splitter"; "split_fraction"] (every_time_at "outlet_2");
  unfix_var ["t2_splitter"; "split_fraction"] (every_time_at "outlet_2");
  unfix_var ["t3_splitter"; "split_fraction"] (every_time_at "outlet_2");
  unfix_var ["t4_splitter"; "split_fraction"] (every_time_at "outlet_1");
  unfix_var ["t5_splitter"; "split_fraction"] (every_time_at "outlet_2");
  unfix_var ["t6_splitter"; "split_fraction"] (every_time_at "outlet_2");
  unfix_var ["t7_splitter"; "split_fraction"] (every_time_at "outlet_2");
  unfix_var ["t8_splitter"; "split_fraction"] (every_time_at "outlet_2")
].

Definition activate_constraints : Model → Model := statements [
  activate ["constraint_out_pressure"];
  activate ["fwh1"; "fwh1_vaporfrac_constraint"];
  activate ["fwh2"; "fwh2_vaporfrac_constraint"];
  activate ["fwh3"; "fwh3_vaporfrac_constraint"];
  activate ["fwh4"; "fwh4_vaporfrac_constraint"];
  activate ["fwh6"; "fwh6_vaporfrac_constraint"];
  activate ["fwh7"; "fwh7_vaporfrac_constraint"];
  activate ["fwh8"; "fwh8_vaporfrac_constraint"]
].

Section Initialize.

(** The unit models, [copy_port_values], the scaling utility, the solver and
    [degrees_of_freedom] are defined outside the modelled file. *)
Context (calculate_scaling_factors : Model → Model).
Context (unit_initialize : string → Model → Model).
Context (_set_port : Path → Path → Model → Model).
Context (solver : Model → SolverResults).

Definition initialize_boiler : Model → Model := statements [
  fix_var ["boiler"; "inlet"; "pressure"] whole 24657896;
  fix_var ["boiler"; "inlet"; "enth_mol"] whole 20004;
  unit_initialize "boiler";
  unfix_var ["boiler"; "inlet"; "pressure"] whole;
  unfix_var ["boiler"; "inlet"; "enth_mol"] whole
]%Q.

Definition initialize_turbine_train : Model → Model := statements [
  _set_port ["turbine_1"; "inlet"] ["boiler"; "outlet"];
  unit_initialize "turbine_1";
  _set_port ["t1_splitter"; "inlet"] ["turbine_1"; "outlet"];
  unit_initialize "t1_splitter";
  _set_port ["turbine_2"; "inlet"] ["t1_splitter"; "outlet_1"];
  unit_initialize "turbine_2";
  _set_port ["t2_splitter"; "inlet"] ["turbine_2"; "outlet"];
  unit_initialize "t2_splitter";
  _set_port ["reheater"; "inlet"] ["t2_splitter"; "outlet_1"];
  unit_initialize "reheater";
  _set_port ["turbine_3"; "inlet"] ["reheater"; "outlet"];
  unit_initialize "turbine_3";
  _set_port ["t3_splitter"; "inlet"] ["turbine_3"; "outlet"];
  unit_initialize "t3_splitter";
  _set_port ["turbine_4"; "inlet"] ["t3_splitter"; "outlet_1"];
  unit_initialize "turbine_4";
  _set_port ["t4_splitter"; "inlet"] ["turbine_4"; "outlet"];
  unit_initialize "t4_splitter";
  _set_port ["turbine_5"; "inlet"] ["t4_splitter"; "outlet_1"];
  unit_initialize "turbine_5";
  _set_port ["t5_splitter"; "inlet"] ["turbine_5"; "outlet"];
  unit_initialize "t5_splitter";
  _set_port ["turbine_6"; "inlet"] ["t5_splitter"; "outlet_1"];
  unit_initialize "turbine_6";
  _set_port ["t6_splitter"; "inlet"] ["turbine_6"; "outlet"];
  unit_initialize "t6_splitter";
  _set_port ["turbine_7"; "inlet"] ["t6_splitter"; "outlet_1"];
  unit_initialize "turbine_7";
  _set_port ["t7_splitter"; "inlet"] ["turbine_7"; "outlet"];
  unit_initialize "t7_splitter";
  _set_port ["turbine_8"; "inlet"] ["t7_splitter"; "outlet_1"];
  unit_initialize "turbine_8";
  _set_port ["t8_splitter"; "inlet"] ["turbine_8"; "outlet"];
  unit_initialize "t8_splitter";
  _set_port ["turbine_9"; "inlet"] ["t8_splitter"; "outlet_1"];
  unit_initialize "turbine_9";
  (* initialize the boiler feed pump turbine *)
  _set_port ["bfpt"; "inlet"] ["t4_splitter"; "outlet_3"];
  unit_initialize "bfpt"
].

Definition initialize_condenser : Model → Model := statements [
  _set_port ["condenser_mix"; "bfpt"] ["bfpt"; "outlet"];
  _set_port ["condenser_mix"; "main"] ["turbine_9"; "outlet"];
  fix_var ["condenser_mix"; "drain"; "flow_mol"] whole 1460;
  fix_var ["condenser_mix"; "drain"; "pressure"] whole 7308;
  fix_var ["condenser_mix"; "drain"; "enth_mol"] whole 2973;
  unit_initialize "condenser_mix";
  unfix_port ["condenser_mix"; "drain"];
  _set_port ["condenser"; "inlet"] ["condenser_mix"; "outlet"];
  unit_initialize "condenser";
  _set_port ["cond_pump"; "inlet"] ["condenser"; "outlet"];
  unit_initialize "cond_pump"
]%Q.

Definition initialize_low_pressure_fwh : Model → Model := statements [
  (* fwh1 *)
  fix_var ["fwh1_mix"; "drain"; "flow_mol"] whole 1434;
  fix_var ["fwh1_mix"; "drain"; "pressure"] whole 14617;
  fix_var ["fwh1_mix"; "drain"; "enth_mol"] whole 3990;
  _set_port ["fwh1_mix"; "steam"] ["t8_splitter"; "outlet_2"];
  unit_initialize "fwh1_mix";
  unfix_port ["fwh1_mix"; "drain"];
  _set_port ["fwh1"; "inlet_1"] ["fwh1_mix"; "outlet"];
  _set_port ["fwh1"; "inlet_2"] ["cond_pump"; "outlet"];
  unit_initialize "fwh1";
  (* fwh2 *)
  fix_var ["fwh2_mix"; "drain"; "flow_mol"] whole 1136;
  fix_var ["fwh2_mix"; "drain"; "pressure"] whole 35685;
  fix_var ["fwh2_mix"; "drain"; "enth_mol"] whole 5462;
  _set_port ["fwh2_mix"; "steam"] ["t7_splitter"; "outlet_2"];
  unit_initialize "fwh2_mix";
  unfix_port ["fwh2_mix"; "drain"];
  unfix_port ["fwh2_mix"; "steam"];
  _set_port ["fwh2"; "inlet_1"] ["fwh2_mix"; "outlet"];
  _set_port ["fwh2"; "inlet_2"] ["fwh1"; "outlet_2"];
  unit_initialize "fwh2";
  (* fwh3 *)
  fix_var ["fwh3_mix"; "drain"; "flow_mol"] whole 788;
  fix_var ["fwh3_mix"; "drain"; "pressure"] whole 87123;
  fix_var ["fwh3_mix"; "drain"; "enth_mol"] whole 7160;
  _set_port ["fwh3_mix"; "steam"] ["t6_splitter"; "outlet_2"];
  unit_initialize "fwh3_mix";
  unfix_port ["fwh3_mix"; "drain"];
  _set_port ["fwh3"; "inlet_1"] ["fwh3_mix"; "outlet"];
  _set_port ["fwh3"; "inlet_2"] ["fwh2"; "outlet_2"];
  unit_initialize "fwh3";
  (* fwh4 *)
  _set_port ["fwh4"; "inlet_2"] ["fwh3"; "outlet_2"];
  _set_port ["fwh4"; "inlet_1"] ["t5_splitter"; "outlet_2"];
  unit_initialize "fwh4"
]%Q.

Definition initialize_deaerator_and_pump : Model → Model := statements [
  _set_port ["fwh5_da"; "feedwater"] ["fwh4"; "outlet_2"];
  fix_var ["fwh5_da"; "drain"; "flow_mol"] every_time 6207;
  fix_var ["fwh5_da"; "drain"; "pressure"] every_time 519291;
  fix_var ["fwh5_da"; "drain"; "enth_mol"] every_time 11526;
  _set_port ["fwh5_da"; "steam"] ["t4_splitter"; "outlet_2"];
  unit_initialize "fwh5_da";
  unfix_port ["fwh5_da"; "drain"];
  (* Boiler feed pump *)
  _set_port ["bfp"; "inlet"] ["fwh5_da"; "outlet"];
  unit_initialize "bfp"
]%Q.

Definition initialize_high_pressure_fwh : Model → Model := statements [
  (* fwh6 *)
  fix_var ["fwh6_mix"; "drain"; "flow_mol"] whole 5299;
  fix_var ["fwh6_mix"; "drain"; "pressure"] whole 2177587;
  fix_var ["fwh6_mix"; "drain"; "enth_mol"] whole 16559;
  _set_port ["fwh6_mix"; "steam"] ["t3_splitter"; "outlet_2"];
  unit_initialize "fwh6_mix";
  unfix_port ["fwh6_mix"; "drain"];
  _set_port ["fwh6"; "inlet_1"] ["fwh6_mix"; "outlet"];
  _set_port ["fwh6"; "inlet_2"] ["bfp"; "outlet"];
  unit_initialize "fwh6";
  (* fwh7 *)
  _set_port ["fwh7_mix"; "steam"] ["t2_splitter"; "outlet_2"];
  fix_var ["fwh7_mix"; "drain"; "flow_mol"] whole 3730;
  fix_var ["fwh7_mix"; "drain"; "pressure"] whole 5590711;
  fix_var ["fwh7_mix"; "drain"; "enth_mol"] whole 21232;
  unit_initialize "fwh7_mix";
  unfix_port ["fwh7_mix"; "drain"];
  _set_port ["fwh7"; "inlet_1"] ["fwh7_mix"; "outlet"];
  _set_port ["fwh7"; "inlet_2"] ["fwh6"; "outlet_2"];
  unit_initialize "fwh7";
  (* fwh8 *)
  _set_port ["fwh8"; "inlet_2"] ["fwh7"; "outlet_2"];
  _set_port ["fwh8"; "inlet_1"] ["t1_splitter"; "outlet_2"];
  unit_initialize "fwh8";
  unfix_port ["fwh8"; "inlet_1"]
]%Q.

(** The units are initialised one after the other on the decoupled model. *)
Definition initialize_units : Model → Model := statements [
  initialize_turbine_train;
  initialize_condenser;
  initialize_low_pressure_fwh;
  initialize_deaerator_and_pump;
  initialize_high_pressure_fwh
].

(** The model the unit-by-unit initialisation starts from. *)
Definition decoupled (m : Model) : Model :=
  deactivate_constraints
    (fix_split_fractions (initialize_boiler (calculate_scaling_factors m))).

(** The model as the final solve receives it. *)
Definition before_final_solve : Model → Model := statements [
  calculate_scaling_factors;
  initialize_boiler;
  fix_split_fractions;
  deactivate_constraints;
  initialize_units;
  unfix_split_fractions;
  activate_constraints
].

Definition initialize (m : Model) : Model * list Output :=
  let m := before_final_solve m in
  let res := solver m in
  (load_solution res m,
   [model_initialization (termination_condition res); model_initialized]).

(** ** [build_plant_model] (up to the second assertion) *)

Context (create_model : Model).
Context (degrees_of_freedom : Model → Z).

Definition build_plant_model : Res Model :=
  let m := set_model_input create_model in
  if decide (degrees_of_freedom m = 0%Z) then
    let m := (initialize m).1 in
    if decide (degrees_of_freedom m = 0%Z) then Ok m else Raise AssertionError
  else Raise AssertionError.

End Initialize.

(** ** Vocabulary of the statements below *)

(** The constraints the routine switches off and on again, and the split
    fractions it fixes and frees again. *)
Definition decoupled_constraints : list Path := [
  ["constraint_out_pressure"];
  ["fwh1"; "fwh1_vaporfrac_constraint"];
  ["fwh2"; "fwh2_vaporfrac_constraint"];
  ["fwh3"; "fwh3_vaporfrac_constraint"];
  ["fwh4"; "fwh4_vaporfrac_constraint"];
  ["fwh6"; "fwh6_vaporfrac_constraint"];
  ["fwh7"; "fwh7_vaporfrac_constraint"];
  ["fwh8"; "fwh8_vaporfrac_constraint"]
].

Definition is_decoupled (c : Path) : bool :=
  existsb (λ p, path_eqb p c) decoupled_constraints.

Definition assumed_split_fractions : list (Path * Slice) := [
  (["t1_splitter"; "split_fraction"], every_time_at "outlet_2");
  (["t2_splitter"; "split_fraction"], every_time_at "outlet_2");
  (["t3_splitter"; "split_fraction"], every_time_at "outlet_2");
  (["t4_splitter"; "split_fraction"], every_time_at "outlet_1");
  (["t5_splitter"; "split_fraction"], every_time_at "outlet_2");
  (["t6_splitter"; "split_fraction"], every_time_at "outlet_2");
  (["t7_splitter"; "split_fraction"], every_time_at "outlet_2");
  (["t8_splitter"; "split_fraction"], every_time_at "outlet_2")
].

Definition is_assumed (v : Path) (i : Idx) : bool :=
  existsb (λ ps, selects ps.1 ps.2 v i) assumed_split_fractions.

(** A model in which no variable is fixed and every constraint is active,
    which is how Pyomo declares them, and no attribute has been bound. *)
Definition declared : Model :=
  mkModel (λ _ _, false) (λ _ _, None) (λ _ _, true) (λ _ _, None).

(** ** Vocabulary of the further statements *)

(** The ports [initialize] unfixes as a whole, and the variables it leaves
    free whatever they were before: the assumed split fractions, the two
    boiler inlet variables, and the members of those ports. *)
Definition released_ports : list Path := [
  ["condenser_mix"; "drain"];
  ["fwh1_mix"; "drain"];
  ["fwh2_mix"; "drain"];
  ["fwh2_mix"; "steam"];
  ["fwh3_mix"; "drain"];
  ["fwh5_da"; "drain"];
  ["fwh6_mix"; "drain"];
  ["fwh7_mix"; "drain"];
  ["fwh8"; "inlet_1"]
].

Definition freed_by_initialize (v : Path) (i : Idx) : bool :=
  is_assumed v i
  || path_eqb ["boiler"; "inlet"; "pressure"] v
  || path_eqb ["boiler"; "inlet"; "enth_mol"] v
  || existsb (λ port, port_member port v) released_ports.

(** [acts_on flag f g]: what [f] does to a flag ([fixed] or [active]) of
    each component is [g], whatever else it does. *)
Definition acts_on (flag : Model → Path → Idx → bool) (f : Model → Model)
    (g : Path → Idx → bool → bool) : Prop :=
  ∀ m v i, flag (f m) v i = g v i (flag m v i).

Abbreviation acts_on_fixed := (acts_on fixed).
Abbreviation acts_on_active := (acts_on active).

End Flowsheet.

(** * The pynumero smoke test *)

Module Pynumero.

#[local] Open Scope Q_scope.

(** ** Pyomo expressions over the variables [x[1]], [x[2]], [x[3]] *)

Inductive Expr :=
  | x (i : nat)
  | num (c : Q)
  | add (a b : Expr)
  | sub (a b : Expr)
  | mul (a b : Expr)
  | pow (a : Expr) (n : nat).

Fixpoint Qpow (q : Q) (n : nat) : Q :=
  match n with
  | O => 1
  | S n => q * Qpow q n
  end.

Fixpoint evaluate (at_ : nat → Q) (e : Expr) : Q :=
  match e with
  | x i => at_ i
  | num c => c
  | add a b => evaluate at_ a + evaluate at_ b
  | sub a b => evaluate at_ a - evaluate at_ b
  | mul a b => evaluate at_ a * evaluate at_ b
  | pow a n => Qpow (evaluate at_ a) n
  end.

(** The partial derivative with respect to [x[j]], by the chain rule. *)
Fixpoint partial (at_ : nat → Q) (j : nat) (e : Expr) : Q :=
  match e with
  | x i => if Nat.eqb i j then 1 else 0
  | num _ => 0
  | add a b => partial at_ j a + partial at_ j b
  | sub a b => partial at_ j a - partial at_ j b
  | mul a b => partial at_ j a * evaluate at_ b + evaluate at_ a * partial at_ j b
  | pow a n => inject_Z (Z.of_nat n) * Qpow (evaluate at_ a) (n - 1)%nat * partial at_ j a
  end.

Inductive Sense :=
  | equal_to
  | at_most.

Record Constraint := mkConstraint {
  body : Expr;
  sense : Sense;
  bound : Q
}.

Record ConcreteModel := mkConcreteModel {
  initialize : nat → Q;
  lb : nat → option Q;
  constraints : list Constraint;
  objective : Expr
}.

(** ** The fixture [model] *)

Definition c : Constraint := mkConstraint (add (pow (x 3%nat) 2%nat) (x 1%nat)) equal_to 25.
Definition d : Constraint := mkConstraint (add (pow (x 2) 2) (x 1)) at_most 18.
Definition o : Expr :=
  sub (add (sub (pow (x 1) 4) (mul (mul (num 3) (x 1)) (pow (x 2) 3))) (pow (x 3) 2)) (num 8).

Definition model : ConcreteModel :=
  mkConcreteModel (λ _, 4) (λ i, if (i <? 3)%nat then Some 0 else None) [c; d] o.

(** ** The [PyomoNLP] interface

    [PyomoNLP] evaluates at the initial point of the model.  The order in
    which it numbers the constraints (rows) and the variables (columns) is
    decided by the NL writer, outside the modelled file. *)
Record PyomoNLP := mkNLP {
  pyomo_model : ConcreteModel;
  row_order : list nat;        (* positions in [constraints] *)
  column_order : list nat      (* indices of [x] *)
}.

Definition evaluate_objective (nlp : PyomoNLP) : Q :=
  evaluate (initialize (pyomo_model nlp)) (objective (pyomo_model nlp)).

Definition evaluate_jacobian (nlp : PyomoNLP) : list (list Q) :=
  let m := pyomo_model nlp in
  omap (λ r, (λ con, (λ j, partial (initialize m) j (body con)) <$> column_order nlp)
               <$> constraints m !! r)
       (row_order nlp).

(** ** [test_have_pynumero] *)

(** [actual == pytest.approx(expected)] with the default tolerances. *)
Definition approx (expected actual : Q) : bool :=
  let rel := 1e-6 * Qabs expected in
  let tolerance := if Qle_bool rel 1e-12 then 1e-12 else rel in
  Qle_bool (Qabs (actual - expected)) tolerance.

Definition entry (jac : list (list Q)) (i j : nat) : option Q :=
  jac !! i ≫= (.!! j).

Definition asserts (expected : Q) (actual : option Q) : bool :=
  match actual with Some a => approx expected a | None => false end.

Definition test_have_pynumero (nlp : PyomoNLP) : bool :=
  let f := evaluate_objective nlp in
  let jac := evaluate_jacobian nlp in
  approx (-504) f
  && asserts 0 (entry jac 0 0) && asserts 8 (entry jac 0 1) && asserts 1 (entry jac 0 2)
  && asserts 8 (entry jac 1 0) && asserts 0 (entry jac 1 1) && asserts 1 (entry jac 1 2).

(** Every way of numbering the two constraints and the three variables. *)
Definition orderings : list (list nat * list nat) :=
  rows ← permutations [0; 1]%nat; cols ← permutations [1; 2; 3]%nat; [(rows, cols)].

(** ** The NLP with the first constraint read as [x1^2 + x3^2 = 25] *)

Definition c_squares : Constraint := mkConstraint (add (pow (x 1) 2) (pow (x 3) 2)) equal_to 25.

Definition model_squares : ConcreteModel :=
  mkConcreteModel (λ _, 4) (λ i, if (i <? 3)%nat then Some 0 else None) [c_squares; d] o.

End Pynumero.

(** * Concrete blocks and solvers *)

Module Examples.
Import ActivityCoeff.

Definition from_Ok {A} (default : A) (r : Res A) : A :=
  match r with Ok a => a | Raise _ => default end.

Definition benzene_toluene (model : ActivityCoeffModel) (phase : ValidPhase) : ParameterBlock :=
  mkParams model phase ["benzene"; "toluene"].

(** The data object [build] returns for a configuration. *)
Definition built (p : ParameterBlock) (defined has_pe : bool) : BlockData :=
  from_Ok (mkBlock p defined has_pe ∅ ∅) (build p defined has_pe).

(** The caller fixes the four state variables of a data object. *)
Definition fix_state_vars (b : BlockData) : BlockData :=
  fix_at "temperature" [] 368%Q
    (fix_at "pressure" [] 101325%Q
      (fix_at "mole_frac" ["toluene"] 0.5%Q
        (fix_at "mole_frac" ["benzene"] 0.5%Q
          (fix_at "flow_mol" [] 1%Q b)))).

(** A solver that reports a given termination condition and returns no new
    values, and a [degrees_of_freedom] that finds every block square. *)
Definition reports (tc : TerminationCondition) : nat → StateBlock → SolverResults :=
  λ _ _, mkResults tc (λ _ _ _, None).

Definition square : BlockData → Z := λ _, 0%Z.

Definition is_Ok {A} (r : Res A) : bool :=
  match r with Ok _ => true | Raise _ => false end.

Definition result (r : Res (option Flags * StateBlock * list Event))
    : option Flags * StateBlock * list Event :=
  from_Ok (None, [], []) r.

(** A two-phase NRTL block, initialised with [hold_state=True]. *)
Definition vle_block : StateBlock :=
  [(0, built (benzene_toluene NRTL Vap_Liq) true true)].

Abbreviation vle_run :=
  (initialize square (reports optimal) vle_block None None None None true false 1).

(** The same block after the caller fixed one activity coefficient. *)
Definition vle_block_fixed_coefficient : StateBlock :=
  [(0, fix_at "activity_coeff_comp" ["benzene"] 1%Q
         (built (benzene_toluene NRTL Vap_Liq) true true))].

Abbreviation vle_run_fixed_coefficient :=
  (initialize square (reports optimal) vle_block_fixed_coefficient
     None None None None true false 0).

Abbreviation vle_release_fixed_coefficient :=
  (release_state (result vle_run_fixed_coefficient).1.2
     (result vle_run_fixed_coefficient).1.1 0).

(** A liquid-only NRTL block whose state variables the caller has fixed. *)
Definition liquid_block : StateBlock :=
  [(0, fix_state_vars (built (benzene_toluene NRTL Liq) true false))].

(** A vapour-only ideal block. *)
Definition vapour_block : StateBlock :=
  [(0, built (benzene_toluene Ideal Vap) true false)].

Abbreviation vapour_run :=
  (initialize square (reports (other_condition "infeasible")) vapour_block
     None None None None true false 1).

Abbreviation vle_run_released :=
  (initialize square (reports optimal) vle_block None None None None false false 1).

(** Flags that record every state variable of [vle_block] as free. *)
Definition released_flags : Flags :=
  mkFlags {[ 0%nat := false ]}
          {[ (0%nat, "benzene") := false; (0%nat, "toluene") := false ]}
          {[ 0%nat := false ]} {[ 0%nat := false ]}.

End Examples.

(** * Facts about the property package *)

Module ActivityCoeffFacts.
Import ActivityCoeff.



Lemma bind_Ok {A B} (m : Res A) (f : A → Res B) (y : B) :
  m ≫= f = Ok y ↔ ∃ x, m = Ok x ∧ f x = Ok y.
Proof. destruct m; simpl; split; [eauto|intros (? & [= ->] & ?); done|done|intros (? & ? & ?); done]. Qed.

Lemma lookup_var_map_vars g b n i :
  lookup_var (map_vars g b) n i = g n i <$> lookup_var b n i.
Proof.
  unfold lookup_var; simpl. rewrite map_lookup_imap.
  destruct (var_objects b !! n) as [c|]; simpl; [|done].
  rewrite map_lookup_imap. by destruct (c !! i).
Qed.

Lemma lookup_con_map_cons h b n i :
  lookup_con (map_cons h b) n i = h n i <$> lookup_con b n i.
Proof.
  unfold lookup_con; simpl. rewrite map_lookup_imap.
  destruct (constraint_objects b !! n) as [c|]; simpl; [|done].
  rewrite map_lookup_imap. by destruct (c !! i).
Qed.

Lemma var_objects_map_vars g b n :
  is_Some (var_objects (map_vars g b) !! n) ↔ is_Some (var_objects b !! n).
Proof.
  simpl. rewrite map_lookup_imap.
  destruct (var_objects b !! n); simpl; split; intros [? ?]; done.
Qed.

Lemma constraint_objects_map_cons h b n :
  is_Some (constraint_objects (map_cons h b) !! n) ↔ is_Some (constraint_objects b !! n).
Proof.
  simpl. rewrite map_lookup_imap.
  destruct (constraint_objects b !! n); simpl; split; intros [? ?]; done.
Qed.

Lemma transforms_refl b : transforms keep keep b b.
Proof. split; try done; intros n i; [by destruct (lookup_var b n i)|by destruct (lookup_con b n i)]. Qed.

Lemma transforms_map_vars g b : transforms g keep b (map_vars g b).
Proof.
  split; try done.
  - apply var_objects_map_vars.
  - apply lookup_var_map_vars.
  - intros n i. change (lookup_con (map_vars g b) n i) with (lookup_con b n i).
    by destruct (lookup_con b n i).
Qed.

Lemma transforms_map_cons h b : transforms keep h b (map_cons h b).
Proof.
  split; try done.
  - apply constraint_objects_map_cons.
  - intros n i. change (lookup_var (map_cons h b) n i) with (lookup_var b n i).
    by destruct (lookup_var b n i).
  - apply lookup_con_map_cons.
Qed.

Lemma transforms_trans g1 h1 g2 h2 b1 b2 b3 :
  transforms g1 h1 b1 b2 → transforms g2 h2 b2 b3 →
  transforms (λ n i d, g2 n i (g1 n i d)) (λ n i a, h2 n i (h1 n i a)) b1 b3.
Proof.
  intros [] []. split; try congruence.
  - intros n. etrans; eauto.
  - intros n. etrans; eauto.
  - intros n i. rewrite tf_var1, tf_var0. by destruct (lookup_var b1 n i).
  - intros n i. rewrite tf_con1, tf_con0. by destruct (lookup_con b1 n i).
Qed.

Lemma transforms_ext g h g' h' b b' :
  transforms g h b b' →
  (∀ n i d, g n i d = g' n i d) → (∀ n i a, h n i a = h' n i a) →
  transforms g' h' b b'.
Proof.
  intros [] Hg Hh. split; try done.
  - intros n i. rewrite tf_var0. destruct (lookup_var b n i); simpl; by rewrite ?Hg.
  - intros n i. rewrite tf_con0. destruct (lookup_con b n i); simpl; by rewrite ?Hh.
Qed.

Lemma transforms_ext_on g h g' h' b b' :
  transforms g h b b' →
  (∀ n i d, lookup_var b n i = Some d → g n i d = g' n i d) →
  (∀ n i a, lookup_con b n i = Some a → h n i a = h' n i a) →
  transforms g' h' b b'.
Proof.
  intros [] Hg Hh. split; try done.
  - intros n i. rewrite tf_var0. destruct (lookup_var b n i) eqn:E; simpl; [|done].
    by rewrite (Hg _ _ _ E).
  - intros n i. rewrite tf_con0. destruct (lookup_con b n i) eqn:E; simpl; [|done].
    by rewrite (Hh _ _ _ E).
Qed.

Lemma transforms_not_ideal g h b b' : transforms g h b b' → not_ideal b' = not_ideal b.
Proof. intros []. unfold not_ideal. by rewrite tf_params0. Qed.

Lemma set_active_in_spec names act b :
  transforms keep (switch true names act) b (set_active_in names act b).
Proof.
  eapply transforms_ext; [apply transforms_map_cons|done|].
  intros n i a. unfold switch. simpl. by case_bool_decide; case_decide.
Qed.

Lemma load_spec new b : transforms (loaded new) keep b (load new b).
Proof. apply transforms_map_vars. Qed.

Lemma set_active_spec name act b b' :
  set_active name act b = Ok b' →
  transforms keep (switch true [name] act) b b' ∧ is_Some (constraint_objects b !! name).
Proof.
  unfold set_active. destruct (constraint_objects b !! name) eqn:E; [|done].
  intros [= <-]. split; [|done].
  eapply transforms_ext; [apply transforms_map_cons|done|].
  intros n i a. unfold switch. simpl. case_bool_decide; case_decide; set_solver.
Qed.

Lemma fix_all_spec v b b' :
  fix_all "activity_coeff_comp" v b = Ok b' →
  transforms (λ n _ d, if bool_decide (n = "activity_coeff_comp") then fix_data v d else d)
    keep b b' ∧ is_Some (var_objects b !! "activity_coeff_comp").
Proof.
  unfold fix_all. destruct (var_objects b !! _) eqn:E; [|done].
  intros [= <-]. split; [|done].
  eapply transforms_ext; [apply transforms_map_vars| |done].
  intros n i d. simpl. by case_bool_decide; case_decide.
Qed.

Lemma unfix_all_spec b b' :
  unfix_all "activity_coeff_comp" b = Ok b' →
  transforms (λ n _ d, if bool_decide (n = "activity_coeff_comp") then unfix_data d else d)
    keep b b' ∧ is_Some (var_objects b !! "activity_coeff_comp").
Proof.
  unfold unfix_all. destruct (var_objects b !! _) eqn:E; [|done].
  intros [= <-]. split; [|done].
  eapply transforms_ext; [apply transforms_map_vars| |done].
  intros n i d. simpl. by case_bool_decide; case_decide.
Qed.

Lemma outlet_constraint_spec act b b' :
  outlet_constraint act b = Ok b' →
  transforms keep (switch (negb (defined_state b)) ["eq_mol_frac_out"] act) b b' ∧
  (defined_state b = false → is_Some (constraint_objects b !! "eq_mol_frac_out")).
Proof.
  unfold outlet_constraint. destruct (defined_state b) eqn:E.
  - intros [= <-]. split; [|done]. apply transforms_refl.
  - intros [H ?]%set_active_spec. done.
Qed.

Lemma activate_balances_spec b b' :
  activate_balances b = Ok b' →
  transforms (assume_ideal (not_ideal b)) (switch true balance_constraints true) b b' ∧
  (not_ideal b = true → is_Some (var_objects b !! "activity_coeff_comp")).
Proof.
  unfold activate_balances.
  change (not_ideal (set_active_in balance_constraints true b)) with (not_ideal b).
  destruct (not_ideal b) eqn:E.
  - intros [H ?]%fix_all_spec. split; [|done].
    eapply transforms_ext;
      [exact (transforms_trans _ _ _ _ _ _ _ (set_active_in_spec _ _ _) H)|done|done].
  - intros [= <-]. split; [|done].
    eapply transforms_ext; [apply set_active_in_spec|done|done].
Qed.

Lemma activate_interaction_spec b :
  transforms keep (switch (not_ideal b) interaction_constraints true) b
    (activate_interaction b).
Proof.
  unfold activate_interaction. destruct (not_ideal b).
  - apply set_active_in_spec.
  - apply transforms_refl.
Qed.

Lemma activate_activity_spec b b' :
  activate_activity b = Ok b' →
  transforms (free_activity (not_ideal b))
    (switch (not_ideal b) ["eq_activity_coeff"] true) b b' ∧
  (not_ideal b = true → is_Some (constraint_objects b !! "eq_activity_coeff")).
Proof.
  unfold activate_activity. destruct (not_ideal b) eqn:E.
  - intros (b1 & [H1 ?]%set_active_spec & [H2 ?]%unfix_all_spec)%bind_Ok. split; [|done].
    eapply transforms_ext; [exact (transforms_trans _ _ _ _ _ _ _ H1 H2)|done|done].
  - intros [= <-]. split; [|done]. apply transforms_refl.
Qed.

(** ** One data object through the solve sequence *)

Lemma block_sequence_spec two v1 v2 v3 v4 v5 b s1 s2 s3 s4 s5 bF :
  block_sequence two v1 v2 v3 v4 v5 b = Ok (s1, s2, s3, s4, s5, bF) →
  let ni := not_ideal b in
  transforms keep (switch true deactivated_for_first_solve false) b s1 ∧
  transforms (λ n i d, assume_ideal ni n i (if two then loaded v1 n i d else d))
    (switch true balance_constraints true) s1 s2 ∧
  transforms (loaded v2) (switch ni interaction_constraints true) s2 s3 ∧
  transforms (λ n i d, free_activity ni n i (loaded v3 n i d))
    (switch ni ["eq_activity_coeff"] true) s3 s4 ∧
  transforms (loaded v4) (switch true enthalpy_constraints true) s4 s5 ∧
  transforms (loaded v5) (switch (negb (defined_state b)) ["eq_mol_frac_out"] true) s5 bF ∧
  (ni = true → is_Some (var_objects b !! "activity_coeff_comp") ∧
               is_Some (constraint_objects b !! "eq_activity_coeff")).
Proof.
  unfold block_sequence. intros H.
  apply bind_Ok in H as (x2 & [T2 X2]%activate_balances_spec & H).
  apply bind_Ok in H as (x4 & [T4 X4]%activate_activity_spec & H).
  apply bind_Ok in H as (xF & [TF XF]%outlet_constraint_spec & [= <- <- <- <- <- <-]).
  pose proof (set_active_in_spec deactivated_for_first_solve false b) as T1.
  assert (transforms (λ n i d, if two then loaded v1 n i d else d) keep
            (set_active_in deactivated_for_first_solve false b)
            (if two then load v1 (set_active_in deactivated_for_first_solve false b)
             else set_active_in deactivated_for_first_solve false b)) as T1'.
  { destruct two; [apply load_spec|apply transforms_refl]. }
  assert (not_ideal (if two then load v1 (set_active_in deactivated_for_first_solve false b)
             else set_active_in deactivated_for_first_solve false b) = not_ideal b) as N1.
  { by destruct two. }
  rewrite N1 in T2, X2.
  pose proof (load_spec v2 x2) as L2.
  pose proof (activate_interaction_spec (load v2 x2)) as T3.
  assert (not_ideal x2 = not_ideal b) as N2.
  { rewrite (transforms_not_ideal _ _ _ _ T2). done. }
  change (not_ideal (load v2 x2)) with (not_ideal x2) in T3. rewrite N2 in T3.
  pose proof (load_spec v3 (activate_interaction (load v2 x2))) as L3.
  assert (not_ideal (activate_interaction (load v2 x2)) = not_ideal b) as N3.
  { rewrite (transforms_not_ideal _ _ _ _ T3). done. }
  change (not_ideal (load v3 ?x)) with (not_ideal x) in T4, X4. rewrite N3 in T4, X4.
  pose proof (load_spec v4 x4) as L4.
  pose proof (set_active_in_spec enthalpy_constraints true (load v4 x4)) as T5.
  pose proof (load_spec v5 (set_active_in enthalpy_constraints true (load v4 x4))) as L5.
  assert (defined_state x4 = defined_state b) as D4.
  { rewrite (tf_defined _ _ _ _ T4). simpl.
    rewrite (tf_defined _ _ _ _ T3). simpl. rewrite (tf_defined _ _ _ _ T2).
    by destruct two. }
  change (defined_state (load v5 (set_active_in enthalpy_constraints true (load v4 x4))))
    with (defined_state x4) in TF. rewrite D4 in TF.
  split_and!.
  - exact T1.
  - eapply transforms_ext; [exact (transforms_trans _ _ _ _ _ _ _ T1' T2)|done|done].
  - eapply transforms_ext; [exact (transforms_trans _ _ _ _ _ _ _ L2 T3)|done|done].
  - eapply transforms_ext; [exact (transforms_trans _ _ _ _ _ _ _ L3 T4)|done|done].
  - eapply transforms_ext; [exact (transforms_trans _ _ _ _ _ _ _ L4 T5)|done|done].
  - eapply transforms_ext; [exact (transforms_trans _ _ _ _ _ _ _ L5 TF)|done|done].
  - intros Hni. split.
    + apply (tf_var_obj _ _ _ _ T1), (tf_var_obj _ _ _ _ T1'). auto.
    + apply (tf_con_obj _ _ _ _ T1), (tf_con_obj _ _ _ _ T1'), (tf_con_obj _ _ _ _ T2),
        (tf_con_obj _ _ _ _ L2), (tf_con_obj _ _ _ _ T3), (tf_con_obj _ _ _ _ L3). auto.
Qed.

(** ** Holding and releasing state variables *)

Lemma holds_nil b : holds [] b b.
Proof. exists keep. split_and!; try done. - apply transforms_refl. - set_solver. Qed.

Lemma holds_app S1 S2 b1 b2 b3 :
  holds S1 b1 b2 → holds S2 b2 b3 → holds (S1 ++ S2) b1 b3.
Proof.
  intros (g1 & T1 & F1 & O1 & I1) (g2 & T2 & F2 & O2 & I2).
  exists (λ n i d, g2 n i (g1 n i d)). split_and!.
  - eapply transforms_ext; [exact (transforms_trans _ _ _ _ _ _ _ T1 T2)|done|done].
  - intros n i d Hd. by rewrite F1, F2.
  - intros n i d Hn. rewrite O1, O2; set_solver.
  - intros n i d Hn. destruct (decide ((n, i) ∈ S2)) as [|Hn2]; [by apply I2|].
    rewrite O2 by done. apply I1. set_solver.
Qed.

Lemma holds_fixed S b b' n i :
  holds S b b' →
  fixed <$> lookup_var b' n i =
    if bool_decide ((n, i) ∈ S) then (λ _, true) <$> lookup_var b n i
    else fixed <$> lookup_var b n i.
Proof.
  intros (g & T & F & O & I). rewrite (tf_var _ _ _ _ T).
  destruct (lookup_var b n i) as [d|]; [|by case_bool_decide]. simpl.
  case_bool_decide; simpl; [by rewrite I|by rewrite O].
Qed.

Lemma transforms_exists g h b b' n i :
  transforms g h b b' → is_Some (lookup_var b' n i) ↔ is_Some (lookup_var b n i).
Proof. intros T. rewrite (tf_var _ _ _ _ T). apply fmap_is_Some. Qed.

Lemma holds_exists S b b' n i :
  holds S b b' → is_Some (lookup_var b' n i) ↔ is_Some (lookup_var b n i).
Proof. intros (g & T & _). by eapply transforms_exists. Qed.

Lemma holds_params S b b' : holds S b b' → params b' = params b.
Proof. intros (g & T & _). apply (tf_params _ _ _ _ T). Qed.

Lemma fixed_is_Some b n i f :
  fixed <$> lookup_var b n i = Some f → is_Some (lookup_var b n i).
Proof. by destruct (lookup_var b n i). Qed.

Lemma get_var_Ok name i b d :
  get_var name i b = Ok d ↔ lookup_var b name i = Some d.
Proof.
  unfold get_var, lookup_var. destruct (var_objects b !! name) as [c|]; simpl; [|done].
  destruct (c !! i); split; congruence.
Qed.

Lemma hold_var_spec name i v b f b' :
  hold_var name i v b = Ok (f, b') →
  holds [(name, i)] b b' ∧ fixed <$> lookup_var b name i = Some f.
Proof.
  unfold hold_var. intros (d & Hd%get_var_Ok & H)%bind_Ok. rewrite Hd. simpl.
  set (q := match v with Ok q => q | Raise _ => 0%Q end).
  assert (transforms (λ n j x, if decide (n = name ∧ j = i) then hold_data q x else x)
            keep b b' ∧ f = fixed d) as [T ->].
  { destruct (fixed d) eqn:Hf.
    - injection H as <- <-. split; [|done].
      eapply transforms_ext_on; [apply transforms_refl| |done].
      intros n j x Hx. case_decide as E; [|done]. destruct E as [-> ->].
      unfold hold_data. assert (x = d) as -> by congruence. by rewrite Hf.
    - apply bind_Ok in H as (q' & Hq & [= <- <-]). split; [|done].
      eapply transforms_ext_on; [apply transforms_map_vars| |done].
      intros n j x Hx. simpl. case_decide as E; [|done]. destruct E as [-> ->].
      unfold hold_data. assert (x = d) as -> by congruence.
      rewrite Hf. unfold q. by rewrite Hq. }
  split; [|done]. eexists. split; [exact T|]. unfold hold_data. split_and!.
  - intros n j x Hx. case_decide; [|done]. by rewrite Hx.
  - intros n j x Hn. case_decide as E; [|done]. destruct E as [-> ->]. set_solver.
  - intros n j x [= -> ->]%list_elem_of_singleton.
    rewrite decide_True by done. by destruct (fixed x) eqn:E.
Qed.

Lemma hold_mole_frac_spec mf cl k js X b X' b' :
  hold_mole_frac mf cl k js X b = Ok (X', b') →
  holds (mole_fracs js) b b' ∧
  (∀ k' j, k' ≠ k ∨ j ∉ js → X' !! (k', j) = X !! (k', j)) ∧
  (NoDup js → ∀ j, j ∈ js → X' !! (k, j) = fixed <$> lookup_var b "mole_frac" [j]) ∧
  (∀ j, j ∈ js → is_Some (lookup_var b "mole_frac" [j])).
Proof.
  revert X b. induction js as [|j js IH]; intros X b H; simpl in H.
  - injection H as <- <-. split_and!; [apply holds_nil|done|set_solver|set_solver].
  - apply bind_Ok in H as ([f b1] & [H1 Hf]%hold_var_spec & H).
    apply IH in H as (H2 & Hother & Hrec & Hex). split_and!.
    + exact (holds_app _ _ _ _ _ H1 H2).
    + intros k' j' Hk. rewrite Hother by set_solver.
      apply lookup_insert_ne. intros [= -> ->]. set_solver.
    + intros [Hj Hjs]%NoDup_cons j' [->|Hj']%elem_of_cons.
      * rewrite Hother by auto. by rewrite lookup_insert_eq.
      * rewrite Hrec by done. rewrite (holds_fixed _ _ _ _ _ H1).
        rewrite bool_decide_eq_false_2; [done|]. set_solver.
    + intros j' [->|Hj']%elem_of_cons.
      * by eapply fixed_is_Some.
      * by apply (holds_exists _ _ _ _ _ H1), Hex.
Qed.

Lemma flag_of_flow_mol fl k : flag_of fl k "flow_mol" [] = Fflag fl !! k.
Proof. done. Qed.
Lemma flag_of_pressure fl k : flag_of fl k "pressure" [] = Pflag fl !! k.
Proof. done. Qed.
Lemma flag_of_temperature fl k : flag_of fl k "temperature" [] = Tflag fl !! k.
Proof. done. Qed.
Lemma flag_of_mole_frac fl k j : flag_of fl k "mole_frac" [j] = Xflag fl !! (k, j).
Proof. done. Qed.

Lemma elem_of_state_vars cl n i :
  (n, i) ∈ state_vars cl ↔
  (n = "flow_mol" ∧ i = []) ∨ (n = "mole_frac" ∧ ∃ j, i = [j] ∧ j ∈ cl) ∨
  (n = "pressure" ∧ i = []) ∨ (n = "temperature" ∧ i = []).
Proof.
  unfold state_vars. rewrite elem_of_cons, elem_of_app, list_elem_of_fmap.
  rewrite elem_of_cons, list_elem_of_singleton. split.
  - intros [[= -> ->]|[(j & [= -> ->] & Hj)|[[= -> ->]|[= -> ->]]]]; eauto 10.
  - intros [[-> ->]|[[-> (j & -> & Hj)]|[[-> ->]|[-> ->]]]]; eauto 10.
Qed.

(** What one pass of the flag-recording loop body leaves behind. *)
Lemma hold_block_spec fm mf T P k b fl fl' b' :
  hold_block fm mf T P k b fl = Ok (fl', b') →
  NoDup (component_list (params b)) →
  holds (state_vars (component_list (params b))) b b' ∧
  (∀ n i, (n, i) ∈ state_vars (component_list (params b)) →
          flag_of fl' k n i = fixed <$> lookup_var b n i ∧ is_Some (lookup_var b n i)) ∧
  (∀ k' n i, k' ≠ k → flag_of fl' k' n i = flag_of fl k' n i).
Proof.
  unfold hold_block. intros H Hnd.
  apply bind_Ok in H as ([f b1] & [H1 Hf]%hold_var_spec & H).
  apply bind_Ok in H as ([X b2] & HX & H).
  apply hold_mole_frac_spec in HX as (H2 & Xother & Xrec & Xex).
  apply bind_Ok in H as ([p b3] & [H3 Hpf]%hold_var_spec & H).
  apply bind_Ok in H as ([t b4] & [H4 Htf]%hold_var_spec & [= <- <-]).
  pose proof (holds_app _ _ _ _ _ H1 H2) as H12.
  pose proof (holds_app _ _ _ _ _ H12 H3) as H123.
  rewrite (holds_fixed _ _ _ _ _ H12) in Hpf.
  rewrite (holds_fixed _ _ _ _ _ H123) in Htf.
  rewrite bool_decide_eq_false_2 in Hpf by set_solver.
  rewrite bool_decide_eq_false_2 in Htf by set_solver.
  split_and!.
  - pose proof (holds_app _ _ _ _ _ H123 H4) as HH.
    unfold state_vars. simpl in HH. rewrite <- !app_assoc in HH. exact HH.
  - intros n i [[-> ->]|[[-> (j & -> & Hj)]|[[-> ->]|[-> ->]]]]%elem_of_state_vars.
    + rewrite flag_of_flow_mol. simpl. rewrite lookup_insert_eq, Hf.
      split; [done|]. by eapply fixed_is_Some.
    + rewrite flag_of_mole_frac. simpl. rewrite Xrec by done.
      rewrite (holds_fixed _ _ _ _ _ H1), bool_decide_eq_false_2 by set_solver.
      split; [done|]. by apply (holds_exists _ _ _ _ _ H1), Xex.
    + rewrite flag_of_pressure. simpl. rewrite lookup_insert_eq, Hpf.
      split; [done|]. by eapply fixed_is_Some.
    + rewrite flag_of_temperature. simpl. rewrite lookup_insert_eq, Htf.
      split; [done|]. by eapply fixed_is_Some.
  - intros k' n i Hk. unfold flag_of. simpl.
    rewrite !lookup_insert_ne by done.
    repeat case_decide; try done.
    destruct i as [|j [|]]; try done. apply Xother. auto.
Qed.

Lemma hold_state_vars_spec fm mf T P (blk : StateBlock) fl fl' blk' :
  hold_state_vars fm mf T P blk fl = Ok (fl', blk') →
  NoDup blk.*1 →
  Forall (λ kb, NoDup (component_list (params kb.2))) blk →
  (∀ k n i, k ∉ blk.*1 → flag_of fl' k n i = flag_of fl k n i) ∧
  length blk' = length blk ∧
  ∀ p k b, blk !! p = Some (k, b) →
    ∃ b', blk' !! p = Some (k, b') ∧
          holds (state_vars (component_list (params b))) b b' ∧
          ∀ n i, (n, i) ∈ state_vars (component_list (params b)) →
                 flag_of fl' k n i = fixed <$> lookup_var b n i ∧
                 is_Some (lookup_var b n i).
Proof.
  revert fl fl' blk'. induction blk as [|[k0 b0] rest IH]; intros fl fl' blk' H Hk Hcl.
  - injection H as <- <-. done.
  - simpl in H. apply bind_Ok in H as ([fl1 b0'] & H0 & H).
    apply bind_Ok in H as ([fl2 rest'] & Hrest & [= <- <-]).
    apply NoDup_cons in Hk as [Hk0 Hk]. apply Forall_cons in Hcl as [Hcl0 Hcl].
    apply hold_block_spec in H0 as (Hh & Hrec & Hoth); [|done].
    destruct (IH _ _ _ Hrest Hk Hcl) as (Hskip & Hlen & Hpos). split_and!.
    + intros k n i Hn. simpl in Hn. rewrite Hskip by set_solver. apply Hoth. set_solver.
    + simpl. by rewrite Hlen.
    + intros [|p] k b Hp; simpl in Hp.
      * injection Hp as <- <-. exists b0'. split_and!; [done..|].
        intros n i Hn. rewrite Hskip by done. by apply Hrec.
      * by apply Hpos.
Qed.

(** ** [release_state] *)

Lemma released_app fl k S1 S2 n i d :
  released fl k S2 n i (released fl k S1 n i d) = released fl k (S1 ++ S2) n i d.
Proof.
  unfold released. rewrite (bool_decide_ext _ _ (elem_of_app S1 S2 (n, i))).
  repeat case_bool_decide; simpl; try done; tauto.
Qed.

Lemma release_if_spec fl k name i f b b' :
  flag_of fl k name i = Some f →
  release_if f name i b = Ok b' →
  transforms (released fl k [(name, i)]) keep b b' ∧ (f = false → is_Some (lookup_var b name i)).
Proof.
  unfold release_if. intros Hf H. destruct f.
  - injection H as <-. split; [|done].
    eapply transforms_ext_on; [apply transforms_refl| |done].
    intros n j d _. unfold released. repeat case_bool_decide; simpl; try done.
    assert (n = name ∧ j = i) as [-> ->] by set_solver. congruence.
  - apply bind_Ok in H as (d & Hd%get_var_Ok & [= <-]). split; [|eauto].
    eapply transforms_ext_on; [apply transforms_map_vars| |done].
    intros n j x _. unfold released. simpl.
    case_decide as E.
    + destruct E as [-> ->]. rewrite bool_decide_eq_true_2 by set_solver.
      by rewrite bool_decide_eq_true_2.
    + rewrite bool_decide_eq_false_2; [done|]. set_solver.
Qed.

Lemma dict_get_Ok {K} `{Countable K} (m : gmap K bool) k f :
  dict_get m k = Ok f ↔ m !! k = Some f.
Proof. unfold dict_get. destruct (m !! k); split; congruence. Qed.

Lemma release_mole_frac_spec fl k js b b' :
  release_mole_frac (Xflag fl) k js b = Ok b' →
  transforms (released fl k (mole_fracs js)) keep b b'.
Proof.
  revert b. induction js as [|j js IH]; intros b H; simpl in H.
  - injection H as <-. eapply transforms_ext_on; [apply transforms_refl| |done].
    intros n i d _. unfold released. by rewrite bool_decide_eq_false_2 by set_solver.
  - apply bind_Ok in H as (f & Hf%dict_get_Ok & H).
    apply bind_Ok in H as (b1 & H1 & H).
    apply (release_if_spec fl k) in H1 as [T1 _]; [|by rewrite flag_of_mole_frac].
    apply IH in H.
    eapply transforms_ext_on; [exact (transforms_trans _ _ _ _ _ _ _ T1 H)| |done].
    intros n i d _. cbv beta. by rewrite released_app.
Qed.

Lemma release_block_spec fl k b b' :
  release_block fl k b = Ok b' →
  transforms (released fl k (state_vars (component_list (params b)))) keep b b'.
Proof.
  unfold release_block. intros H.
  apply bind_Ok in H as (f & Hf%dict_get_Ok & H).
  apply bind_Ok in H as (b1 & H1 & H).
  apply (release_if_spec fl k) in H1 as [T1 _]; [|by rewrite flag_of_flow_mol].
  apply bind_Ok in H as (b2 & H2%release_mole_frac_spec & H).
  rewrite (tf_params _ _ _ _ T1) in H2.
  apply bind_Ok in H as (p & Hp%dict_get_Ok & H).
  apply bind_Ok in H as (b3 & H3 & H).
  apply (release_if_spec fl k) in H3 as [T3 _]; [|by rewrite flag_of_pressure].
  apply bind_Ok in H as (t & Ht%dict_get_Ok & H).
  apply (release_if_spec fl k) in H as [T4 _]; [|by rewrite flag_of_temperature].
  pose proof (transforms_trans _ _ _ _ _ _ _ T1 H2) as T12.
  pose proof (transforms_trans _ _ _ _ _ _ _ T12 T3) as T123.
  eapply transforms_ext_on; [exact (transforms_trans _ _ _ _ _ _ _ T123 T4)| |done].
  intros n i d _. cbv beta. rewrite !released_app. unfold state_vars. simpl.
  by rewrite <- ?app_assoc.
Qed.

Lemma fixed_load_value new d : fixed (load_value new d) = fixed d.
Proof. unfold load_value. by destruct (fixed d) eqn:E. Qed.

Lemma load_value_fixed new d : fixed d = true → load_value new d = d.
Proof. unfold load_value. by intros ->. Qed.

(** The fixed flags a completed sequence leaves: only the activity
    coefficient of a non-ideal data object is touched, and it ends free. *)
Lemma block_sequence_fixed two v1 v2 v3 v4 v5 b s1 s2 s3 s4 s5 bF n i :
  block_sequence two v1 v2 v3 v4 v5 b = Ok (s1, s2, s3, s4, s5, bF) →
  fixed <$> lookup_var bF n i =
    (λ d, if not_ideal b && bool_decide (n = "activity_coeff_comp") then false else fixed d)
      <$> lookup_var b n i.
Proof.
  intros (T1 & T2 & T3 & T4 & T5 & TF & _)%block_sequence_spec.
  rewrite (tf_var _ _ _ _ TF), (tf_var _ _ _ _ T5), (tf_var _ _ _ _ T4),
    (tf_var _ _ _ _ T3), (tf_var _ _ _ _ T2), (tf_var _ _ _ _ T1).
  destruct (lookup_var b n i) as [d|]; [|done]. simpl. f_equal.
  unfold loaded, free_activity, assume_ideal, keep.
  rewrite !fixed_load_value.
  destruct (not_ideal b && bool_decide (n = "activity_coeff_comp")); simpl; [done|].
  rewrite !fixed_load_value. destruct two; by rewrite ?fixed_load_value.
Qed.

Lemma for_each_total body (blk : StateBlock) :
  (∀ p k b, blk !! p = Some (k, b) → ∃ b', body k b = Ok b') →
  ∃ blk', for_each body blk = Ok blk'.
Proof.
  induction blk as [|[k b] rest IH]; intros H; [by eexists|].
  destruct (H 0 k b eq_refl) as [b' Hb]. destruct IH as [rest' Hr].
  { intros p. apply (H (S p)). }
  simpl. rewrite Hb. simpl. rewrite Hr. by eexists.
Qed.

Lemma for_each_length body (blk blk' : StateBlock) :
  for_each body blk = Ok blk' → length blk' = length blk.
Proof.
  revert blk'. induction blk as [|[k b] rest IH]; intros blk' H; simpl in H.
  - by injection H as <-.
  - apply bind_Ok in H as (b' & _ & H). apply bind_Ok in H as (r' & Hr & [= <-]).
    simpl. f_equal. by apply IH.
Qed.

Lemma release_if_exists f name i b b' n j :
  release_if f name i b = Ok b' →
  is_Some (lookup_var b' n j) ↔ is_Some (lookup_var b n j).
Proof.
  unfold release_if. destruct f; [by intros [= <-]|].
  intros (d & _ & [= <-])%bind_Ok. unfold unfix_at.
  rewrite lookup_var_map_vars. apply fmap_is_Some.
Qed.

Lemma release_if_total f name i b :
  is_Some (lookup_var b name i) → ∃ b', release_if f name i b = Ok b'.
Proof.
  intros [d Hd]. unfold release_if. destruct f; [by eexists|].
  apply get_var_Ok in Hd. rewrite Hd. by eexists.
Qed.

Lemma dict_get_Some {K} `{Countable K} (m : gmap K bool) k f :
  m !! k = Some f → dict_get m k = Ok f.
Proof. apply dict_get_Ok. Qed.

Lemma release_mole_frac_total X k js b :
  (∀ j, j ∈ js → is_Some (X !! (k, j)) ∧ is_Some (lookup_var b "mole_frac" [j])) →
  ∃ b', release_mole_frac X k js b = Ok b' ∧
        ∀ n i, is_Some (lookup_var b' n i) ↔ is_Some (lookup_var b n i).
Proof.
  revert b. induction js as [|j js IH]; intros b H; [by eexists|]. simpl.
  destruct (H j) as [[f Hf] Hv]; [set_solver|].
  rewrite (dict_get_Some _ _ _ Hf). simpl.
  destruct (release_if_total f "mole_frac" [j] b Hv) as [b1 H1]. rewrite H1. simpl.
  destruct (IH b1) as (b' & Hb' & Hex).
  { intros j' Hj'. destruct (H j') as [? ?]; [set_solver|]. split; [done|].
    by apply (release_if_exists _ _ _ _ _ _ _ H1). }
  exists b'. split; [done|]. intros n i. rewrite Hex.
  apply (release_if_exists _ _ _ _ _ _ _ H1).
Qed.

Lemma release_block_total fl k b :
  (∀ n i, (n, i) ∈ state_vars (component_list (params b)) →
          is_Some (flag_of fl k n i) ∧ is_Some (lookup_var b n i)) →
  ∃ b', release_block fl k b = Ok b'.
Proof.
  intros H. unfold release_block.
  destruct (H "flow_mol" []) as [[f Hf] Hv]; [apply elem_of_state_vars; auto|].
  rewrite flag_of_flow_mol in Hf. rewrite (dict_get_Some _ _ _ Hf). simpl.
  destruct (release_if_total f "flow_mol" [] b Hv) as [b1 H1]. rewrite H1. simpl.
  assert (params b1 = params b) as Hp1.
  { unfold release_if in H1. destruct f; [by injection H1 as <-|].
    by apply bind_Ok in H1 as (d & _ & [= <-]). }
  rewrite Hp1.
  destruct (release_mole_frac_total (Xflag fl) k (component_list (params b)) b1)
    as (b2 & H2 & Hex2).
  { intros j Hj. destruct (H "mole_frac" [j]) as [Hfl Hvj]; [apply elem_of_state_vars; eauto 10|].
    split; [done|]. by apply (release_if_exists _ _ _ _ _ _ _ H1). }
  rewrite H2. simpl.
  destruct (H "pressure" []) as [[p Hpf] Hpv]; [apply elem_of_state_vars; auto|].
  rewrite flag_of_pressure in Hpf. rewrite (dict_get_Some _ _ _ Hpf). simpl.
  destruct (release_if_total p "pressure" [] b2) as [b3 H3].
  { by apply Hex2, (release_if_exists _ _ _ _ _ _ _ H1). }
  rewrite H3. simpl.
  destruct (H "temperature" []) as [[t Htf] Htv]; [apply elem_of_state_vars; auto|].
  rewrite flag_of_temperature in Htf. rewrite (dict_get_Some _ _ _ Htf). simpl.
  apply release_if_total.
  by apply (release_if_exists _ _ _ _ _ _ _ H3), Hex2, (release_if_exists _ _ _ _ _ _ _ H1).
Qed.

(** ** The indexed block: positions are preserved by every loop *)

Lemma for_each_lookup body (blk blk' : StateBlock) p k b :
  for_each body blk = Ok blk' → blk !! p = Some (k, b) →
  ∃ b', blk' !! p = Some (k, b') ∧ body k b = Ok b'.
Proof.
  revert blk' p. induction blk as [|[k0 b0] rest IH]; intros blk' p H Hp; [done|].
  simpl in H. apply bind_Ok in H as (b0' & Hb0 & H).
  apply bind_Ok in H as (rest' & Hrest & [= <-]).
  destruct p as [|p]; simpl in *.
  - injection Hp as -> ->. eauto.
  - eauto.
Qed.

Lemma for_each_pure_lookup body (blk : StateBlock) p k b :
  blk !! p = Some (k, b) → for_each_pure body blk !! p = Some (k, body b).
Proof. intros H. unfold for_each_pure. by rewrite list_lookup_fmap, H. Qed.

Lemma load_solution_lookup r (blk : StateBlock) p k b :
  blk !! p = Some (k, b) → load_solution r blk !! p = Some (k, load (solution r k) b).
Proof. intros H. unfold load_solution. by rewrite list_lookup_fmap, H. Qed.

(** Two lists of the same length that agree position by position on keys. *)
Lemma lookup_back {A} (R : nat → A → A → Prop) (l l' : list (nat * A)) p k x' :
  length l' = length l →
  (∀ p k x, l !! p = Some (k, x) → ∃ x', l' !! p = Some (k, x') ∧ R k x x') →
  l' !! p = Some (k, x') → ∃ x, l !! p = Some (k, x) ∧ R k x x'.
Proof.
  intros Hlen H Hp.
  destruct (l !! p) as [[k0 x0]|] eqn:E.
  - destruct (H _ _ _ E) as (x1 & Hx1 & HR). rewrite Hp in Hx1.
    injection Hx1 as -> ->. eauto.
  - apply lookup_ge_None in E. apply lookup_lt_Some in Hp. lia.
Qed.

Section Sequence.
Context (degrees_of_freedom : BlockData → Z).
Context (solver : nat → StateBlock → SolverResults).

(** A completed [solve_sequence], seen from each data object. *)
Lemma solve_sequence_inv outlvl blk blkF tr :
  solve_sequence solver outlvl blk = Ok (blkF, tr) →
  ∃ kb S1 S2 S3 S4 S5,
    last blk = Some kb ∧
    tr = sequence_trace solver outlvl (two_phase (has_phase_equilibrium kb.2) (params kb.2))
           S1 S2 S3 S4 S5 ∧
    (length S1 = length blk ∧ length S2 = length blk ∧ length S3 = length blk ∧
     length S4 = length blk ∧ length S5 = length blk ∧ length blkF = length blk) ∧
    ∀ p k b, blk !! p = Some (k, b) →
      ∃ s1 s2 s3 s4 s5 bF,
        block_sequence (two_phase (has_phase_equilibrium kb.2) (params kb.2))
          (solution (solver 1 S1) k) (solution (solver 2 S2) k)
          (solution (solver 3 S3) k) (solution (solver 4 S4) k)
          (solution (solver 5 S5) k) b = Ok (s1, s2, s3, s4, s5, bF) ∧
        S1 !! p = Some (k, s1) ∧ S2 !! p = Some (k, s2) ∧ S3 !! p = Some (k, s3) ∧
        S4 !! p = Some (k, s4) ∧ S5 !! p = Some (k, s5) ∧ blkF !! p = Some (k, bF).
Proof.
  unfold solve_sequence. intros H.
  apply bind_Ok in H as (kb' & Hlast & H).
  set (S1 := for_each_pure (set_active_in deactivated_for_first_solve false) blk) in *.
  assert (∃ kb, last blk = Some kb ∧
            has_phase_equilibrium kb'.2 = has_phase_equilibrium kb.2 ∧
            params kb'.2 = params kb.2) as (kb & Hl & Hpe & Hpar).
  { destruct (last S1) as [x|] eqn:E; simpl in Hlast; [|done]. injection Hlast as ->.
    unfold S1, for_each_pure in E. rewrite fmap_last in E.
    destruct (last blk) as [[k b]|]; simpl in E; [|done].
    injection E as <-. eexists; split; [done|]. done. }
  rewrite Hpe, Hpar in H. clear Hlast.
  set (two := two_phase (has_phase_equilibrium kb.2) (params kb.2)) in *.
  apply bind_Ok in H as (S2 & H2 & H).
  apply bind_Ok in H as (S4 & H4 & H).
  apply bind_Ok in H as (bF' & HF & [= <- <-]).
  simpl in *.
  set (B1 := (if two then solve_step solver outlvl 1 (S1, []) else _)) in *.
  set (S3 := for_each_pure activate_interaction (load_solution (solver 2 S2) S2)) in *.
  set (S5 := for_each_pure (set_active_in enthalpy_constraints true)
               (load_solution (solver 4 S4) S4)) in *.
  exists kb, S1, S2, S3, S4, S5. split; [done|]. split; [|split].
  { unfold sequence_trace, B1. fold two. destruct two; simpl;
      by rewrite <- ?app_assoc. }
  { apply for_each_length in HF, H4, H2.
    assert (length S1 = length blk) as L1.
    { unfold S1, for_each_pure. by rewrite length_fmap. }
    assert (length S2 = length blk) as L2.
    { rewrite H2. unfold B1, solve_step, load_solution.
      destruct two; simpl; by rewrite ?length_fmap. }
    assert (length S3 = length blk) as L3.
    { unfold S3, for_each_pure, load_solution. by rewrite !length_fmap. }
    assert (length S4 = length blk) as L4.
    { rewrite H4. unfold load_solution. by rewrite length_fmap. }
    assert (length S5 = length blk) as L5.
    { unfold S5, for_each_pure, load_solution. by rewrite !length_fmap. }
    split_and!; try done. rewrite HF. unfold load_solution.
    by rewrite length_fmap. }
  intros p k b Hp.
  pose proof (for_each_pure_lookup (set_active_in deactivated_for_first_solve false)
                _ _ _ _ Hp) as Hs1.
  fold S1 in Hs1.
  assert (B1.1 !! p = Some (k, if two then load (solution (solver 1 S1) k)
            (set_active_in deactivated_for_first_solve false b)
            else set_active_in deactivated_for_first_solve false b)) as Hb1.
  { unfold B1. destruct two; simpl; [|done]. by apply load_solution_lookup. }
  destruct (for_each_lookup _ _ _ _ _ _ H2 Hb1) as (s2 & Hs2 & E2).
  pose proof (load_solution_lookup (solver 2 S2) _ _ _ _ Hs2) as Hl2.
  pose proof (for_each_pure_lookup activate_interaction _ _ _ _ Hl2) as Hs3. fold S3 in Hs3.
  pose proof (load_solution_lookup (solver 3 S3) _ _ _ _ Hs3) as Hl3.
  destruct (for_each_lookup _ _ _ _ _ _ H4 Hl3) as (s4 & Hs4 & E4).
  pose proof (load_solution_lookup (solver 4 S4) _ _ _ _ Hs4) as Hl4.
  pose proof (for_each_pure_lookup (set_active_in enthalpy_constraints true)
                _ _ _ _ Hl4) as Hs5.
  fold S5 in Hs5.
  pose proof (load_solution_lookup (solver 5 S5) _ _ _ _ Hs5) as Hl5.
  destruct (for_each_lookup _ _ _ _ _ _ HF Hl5) as (bF & HbF & EF).
  eexists _, s2, _, s4, _, bF. split; [|done].
  unfold block_sequence. fold two. rewrite E2. simpl. rewrite E4. simpl. rewrite EF. done.
Qed.

(** A completed [initialize] that recorded flags. *)
Lemma initialize_hold_inv blk fm mf T P hold outlvl r blk1 tr :
  initialize degrees_of_freedom solver blk fm mf T P hold false outlvl = Ok (r, blk1, tr) →
  ∃ blk0 blkH fl blkF tr0,
    for_each (λ _, outlet_constraint false) blk = Ok blk0 ∧
    hold_state_vars fm mf T P blk0 no_flags = Ok (fl, blkH) ∧
    solve_sequence solver outlvl blkH = Ok (blkF, tr0) ∧
    if hold then r = Some fl ∧ blk1 = blkF ∧ tr = tr0
    else ∃ rel, release_state blkF (Some fl) 0 = Ok (blk1, rel) ∧ r = None ∧
                tr = tr0 ++ rel ++
                     (if (0 <? outlvl)%Z then [Log INFO initialisation_completed] else []).
Proof.
  unfold initialize. intros H.
  apply bind_Ok in H as (blk0 & H0 & H).
  apply bind_Ok in H as ([fl' blkH] & HH & H).
  apply bind_Ok in HH as ([fl blkH'] & HH & [= <- <-]).
  apply bind_Ok in H as ([blkF tr0] & HS & H).
  exists blk0, blkH', fl, blkF, tr0. split_and!; try done.
  destruct hold.
  - by injection H as <- <- <-.
  - apply bind_Ok in H as ([blk2 rel] & HR & [= <- <- <-]). eauto.
Qed.
End Sequence.

Section RoundTrip.
Context (degrees_of_freedom : BlockData → Z).
Context (solver : nat → StateBlock → SolverResults).

Lemma for_each_keys body (blk blk' : StateBlock) :
  for_each body blk = Ok blk' → blk'.*1 = blk.*1.
Proof.
  revert blk'. induction blk as [|[k b] rest IH]; intros blk' H; simpl in H.
  - by injection H as <-.
  - apply bind_Ok in H as (b' & _ & H). apply bind_Ok in H as (r' & Hr & [= <-]).
    simpl. f_equal. by apply IH.
Qed.

Lemma state_var_not_activity cl n i :
  (n, i) ∈ state_vars cl → bool_decide (n = "activity_coeff_comp") = false.
Proof.
  intros [[-> _]|[[-> _]|[[-> _]|[-> _]]]]%elem_of_state_vars; done.
Qed.

(** The state a holding [initialize] returns, position by position: state
    variables fixed, the activity coefficient of a non-ideal data object
    free, every other flag as before; the dictionary holds the earlier
    flag of each state variable. *)
Lemma initialize_hold_spec blk fm mf T P outlvl r blk1 tr :
  NoDup blk.*1 →
  Forall (λ kb, NoDup (component_list (params kb.2))) blk →
  initialize degrees_of_freedom solver blk fm mf T P true false outlvl = Ok (r, blk1, tr) →
  ∃ fl, r = Some fl ∧ length blk1 = length blk ∧
    ∀ p k b, blk !! p = Some (k, b) →
      ∃ b1, blk1 !! p = Some (k, b1) ∧ params b1 = params b ∧
        (∀ n i, fixed <$> lookup_var b1 n i =
           (λ d, if bool_decide ((n, i) ∈ state_vars (component_list (params b))) then true
                 else if not_ideal b && bool_decide (n = "activity_coeff_comp") then false
                 else fixed d) <$> lookup_var b n i) ∧
        (∀ n i, (n, i) ∈ state_vars (component_list (params b)) →
           flag_of fl k n i = fixed <$> lookup_var b n i ∧ is_Some (lookup_var b n i)).
Proof.
  intros Hk Hcl H.
  apply initialize_hold_inv in H
    as (blk0 & blkH & fl & blkF & tr0 & H0 & HH & HS & -> & -> & ->).
  exists fl. split; [done|].
  assert (∀ p k b, blk !! p = Some (k, b) →
            ∃ b0, blk0 !! p = Some (k, b0) ∧ transforms keep
              (switch (negb (defined_state b)) ["eq_mol_frac_out"] false) b b0) as P0.
  { intros p k b Hp. destruct (for_each_lookup _ _ _ _ _ _ H0 Hp) as (b0 & Hb0 & E0).
    apply outlet_constraint_spec in E0 as [T0 _]. eauto. }
  pose proof (for_each_length _ _ _ H0) as L0.
  apply hold_state_vars_spec in HH as (_ & LH & PH).
  2:{ by rewrite (for_each_keys _ _ _ H0). }
  2:{ apply Forall_lookup. intros p [k b0] Hp0.
      destruct (lookup_back (λ _ b b0, params b0 = params b) blk blk0 p k b0 L0)
        as (b & Hb & Hpar); [|done|].
      - intros p' k' b' Hp'. destruct (P0 _ _ _ Hp') as (b0' & ? & T0).
        exists b0'. split; [done|]. apply (tf_params _ _ _ _ T0).
      - simpl. rewrite Hpar. by apply (Forall_lookup_1 _ _ _ _ Hcl Hb). }
  apply solve_sequence_inv in HS as (kb & S1 & S2 & S3 & S4 & S5 & _ & _ & LF & PF).
  split; [destruct LF as (_ & _ & _ & _ & _ & LF); congruence|].
  intros p k b Hp.
  destruct (P0 _ _ _ Hp) as (b0 & Hp0 & T0).
  destruct (PH _ _ _ Hp0) as (bH & HpH & Hh & Hfl).
  destruct (PF _ _ _ HpH) as (s1 & s2 & s3 & s4 & s5 & bF & Hseq & _ & _ & _ & _ & _ & HpF).
  pose proof (tf_params _ _ _ _ T0) as Par0. rewrite Par0 in Hh, Hfl.
  exists bF. split; [done|]. split_and!.
  - apply block_sequence_spec in Hseq as (T1 & T2 & T3 & T4 & T5 & TF & _).
    rewrite (tf_params _ _ _ _ TF), (tf_params _ _ _ _ T5), (tf_params _ _ _ _ T4),
      (tf_params _ _ _ _ T3), (tf_params _ _ _ _ T2), (tf_params _ _ _ _ T1).
    by rewrite (holds_params _ _ _ Hh).
  - intros n i. rewrite (block_sequence_fixed _ _ _ _ _ _ _ _ _ _ _ _ _ n i Hseq).
    assert (not_ideal bH = not_ideal b) as ->.
    { unfold not_ideal. by rewrite (holds_params _ _ _ Hh), Par0. }
    pose proof (holds_fixed _ _ _ n i Hh) as HF.
    rewrite (tf_var _ _ _ _ T0) in HF. unfold keep in HF.
    destruct (lookup_var bH n i) as [dH|] eqn:EH, (lookup_var b n i) as [d|] eqn:E;
      simpl in *; try (by case_bool_decide).
    f_equal. case_bool_decide as Hin; injection HF as HF; rewrite HF; [|done].
    by rewrite (state_var_not_activity _ _ _ Hin), andb_false_r.
  - intros n i Hin. destruct (Hfl _ _ Hin) as [Hf Hex].
    rewrite Hf. rewrite (tf_var _ _ _ _ T0). unfold keep.
    split; [by destruct (lookup_var b n i)|].
    by apply (transforms_exists _ _ _ _ _ _ T0).
Qed.

Lemma released_fixed fl k S n i d :
  fixed (released fl k S n i d) =
  if bool_decide ((n, i) ∈ S) && bool_decide (flag_of fl k n i = Some false)
  then false else fixed d.
Proof. unfold released. by destruct (_ && _). Qed.

(** Initialise holding the state, then release with the returned flags:
    the flags of a data object after the two calls, in terms of those
    before the first. *)
Lemma roundtrip_general blk fm mf T P outlvl outlvl' r blk1 tr :
  NoDup blk.*1 →
  Forall (λ kb, NoDup (component_list (params kb.2))) blk →
  initialize degrees_of_freedom solver blk fm mf T P true false outlvl = Ok (r, blk1, tr) →
  ∃ blk2 tr', release_state blk1 r outlvl' = Ok (blk2, tr') ∧
    length blk2 = length blk ∧
    ∀ p k b, blk !! p = Some (k, b) →
      ∃ b1 b2, blk1 !! p = Some (k, b1) ∧ blk2 !! p = Some (k, b2) ∧
        (∀ n i, fixed <$> lookup_var b2 n i =
           (λ d, if not_ideal b && bool_decide (n = "activity_coeff_comp") then false
                 else fixed d) <$> lookup_var b n i) ∧
        (∀ n i, fixed <$> lookup_var b2 n i ≠ fixed <$> lookup_var b1 n i ↔
           (n, i) ∈ state_vars (component_list (params b)) ∧
           fixed <$> lookup_var b n i = Some false).
Proof.
  intros Hk Hcl H.
  destruct (initialize_hold_spec _ _ _ _ _ _ _ _ _ Hk Hcl H) as (fl & -> & L1 & P1).
  destruct (for_each_total (release_block fl) blk1) as [blk2 H2].
  { intros p k b1 Hp1.
    destruct (lookup_back (λ k b b1, params b1 = params b ∧
        (∀ n i, is_Some (lookup_var b1 n i) ↔ is_Some (lookup_var b n i)) ∧
        ∀ n i, (n, i) ∈ state_vars (component_list (params b)) →
          is_Some (flag_of fl k n i) ∧ is_Some (lookup_var b n i))
        blk blk1 p k b1 L1) as (b & Hb & Hpar & Hex & Hfl); [|done|].
    - intros p' k' b' Hp'. destruct (P1 _ _ _ Hp') as (b1' & ? & ? & HF & HG).
      exists b1'. split_and!; try done.
      + intros n i. rewrite <- (fmap_is_Some fixed (lookup_var b1' n i)), HF.
        apply fmap_is_Some.
      + intros n i Hin. destruct (HG _ _ Hin) as [-> ?].
        split; [by apply fmap_is_Some|done].
    - apply release_block_total. rewrite Hpar. intros n i Hin.
      destruct (Hfl _ _ Hin). split; [done|]. by apply Hex. }
  simpl. rewrite H2. simpl. eexists _, _. split; [done|].
  pose proof (for_each_length _ _ _ H2) as L2. split; [congruence|].
  intros p k b Hp. destruct (P1 _ _ _ Hp) as (b1 & Hp1 & Hpar & HF & HG).
  destruct (for_each_lookup _ _ _ _ _ _ H2 Hp1) as (b2 & Hp2 & HR).
  apply release_block_spec in HR. rewrite Hpar in HR.
  exists b1, b2. split_and!; try done.
  - intros n i. rewrite (tf_var _ _ _ _ HR).
    pose proof (HF n i) as HF1.
    destruct (lookup_var b1 n i) as [d1|] eqn:E1, (lookup_var b n i) as [d|] eqn:E;
      simpl in *; try done.
    f_equal. rewrite released_fixed. injection HF1 as ->.
    case_bool_decide as Hin; simpl; [|done].
    destruct (HG _ _ Hin) as [-> _]. rewrite E. simpl.
    rewrite (state_var_not_activity _ _ _ Hin), andb_false_r.
    by destruct (fixed d).
  - intros n i. rewrite (tf_var _ _ _ _ HR).
    pose proof (HF n i) as HF1.
    destruct (lookup_var b1 n i) as [d1|] eqn:E1, (lookup_var b n i) as [d|] eqn:E;
      simpl in *; try done; [|naive_solver].
    rewrite released_fixed. injection HF1 as ->.
    case_bool_decide as Hin; simpl.
    + destruct (HG _ _ Hin) as [-> _]. rewrite E. simpl.
      destruct (fixed d); simpl; naive_solver.
    + naive_solver.
Qed.
End RoundTrip.

(** ** Reading traces *)

Lemma snapshot_app_logs n tr rest :
  forallb is_log rest = true → snapshot n (tr ++ rest) = snapshot n tr.
Proof.
  intros Hr. induction tr as [|[m blk tc|l msg] tr IH]; simpl.
  - induction rest as [|[|] rest IH]; simpl in *; try done. by apply IH.
  - by rewrite IH.
  - done.
Qed.

Lemma solve_steps_app_logs tr rest :
  forallb is_log rest = true → solve_steps (tr ++ rest) = solve_steps tr.
Proof.
  intros Hr. unfold solve_steps. rewrite omap_app.
  assert (omap (λ e, match e with Solve n _ _ => Some n | Log _ _ => None end) rest = [])
    as ->; [|by rewrite app_nil_r].
  induction rest as [|[|] rest IH]; simpl in *; try done. by apply IH.
Qed.

Section Traces.
Context (solver : nat → StateBlock → SolverResults).

Lemma report_logs outlvl n tc : forallb is_log (report outlvl n tc) = true.
Proof. unfold report. destruct (0 <? outlvl)%Z; [|done]. by case_decide. Qed.

Lemma snapshot_report outlvl m tc n tr :
  snapshot n (report outlvl m tc ++ tr) = snapshot n tr.
Proof. unfold report. destruct (0 <? outlvl)%Z; [|done]. by case_decide. Qed.

Lemma solve_steps_report outlvl m tc tr :
  solve_steps (report outlvl m tc ++ tr) = solve_steps tr.
Proof. unfold report. destruct (0 <? outlvl)%Z; [|done]. by case_decide. Qed.

Lemma solve_steps_sequence_trace outlvl two S1 S2 S3 S4 S5 :
  solve_steps (sequence_trace solver outlvl two S1 S2 S3 S4 S5) =
  if two then [1; 2; 3; 4; 5] else [2; 3; 4; 5].
Proof.
  unfold sequence_trace.
  assert (∀ n S tc tr, solve_steps (Solve n S tc :: report outlvl n tc ++ tr)
                       = n :: solve_steps tr) as Hs.
  { intros. change (n :: solve_steps (report outlvl n tc ++ tr) = n :: solve_steps tr).
    by rewrite solve_steps_report. }
  rewrite <- (app_nil_r (report outlvl 5 _)).
  destruct two.
  - change (solve_steps (Solve 1 S1 (termination_condition (solver 1 S1))
              :: report outlvl 1 (termination_condition (solver 1 S1)) ++
              (Solve 2 S2 (termination_condition (solver 2 S2))
              :: report outlvl 2 (termination_condition (solver 2 S2)) ++
              (Solve 3 S3 (termination_condition (solver 3 S3))
              :: report outlvl 3 (termination_condition (solver 3 S3)) ++
              (Solve 4 S4 (termination_condition (solver 4 S4))
              :: report outlvl 4 (termination_condition (solver 4 S4)) ++
              (Solve 5 S5 (termination_condition (solver 5 S5))
              :: report outlvl 5 (termination_condition (solver 5 S5)) ++ [])))))
            = [1; 2; 3; 4; 5]).
    by rewrite !Hs.
  - assert (∀ tr, solve_steps ((if (0 <? outlvl)%Z then [Log INFO (step_skipped 1)] else [])
                               ++ tr) = solve_steps tr) as Hk.
    { intros. by destruct (0 <? outlvl)%Z. }
    rewrite Hk.
    change (solve_steps (
              (Solve 2 S2 (termination_condition (solver 2 S2))
              :: report outlvl 2 (termination_condition (solver 2 S2)) ++
              (Solve 3 S3 (termination_condition (solver 3 S3))
              :: report outlvl 3 (termination_condition (solver 3 S3)) ++
              (Solve 4 S4 (termination_condition (solver 4 S4))
              :: report outlvl 4 (termination_condition (solver 4 S4)) ++
              (Solve 5 S5 (termination_condition (solver 5 S5))
              :: report outlvl 5 (termination_condition (solver 5 S5)) ++ [])))))
            = [2; 3; 4; 5]).
    by rewrite !Hs.
Qed.

Lemma snapshot_sequence_trace outlvl two S1 S2 S3 S4 S5 :
  let tr := sequence_trace solver outlvl two S1 S2 S3 S4 S5 in
  snapshot 1 tr = (if two then Some S1 else None) ∧
  snapshot 2 tr = Some S2 ∧ snapshot 3 tr = Some S3 ∧
  snapshot 4 tr = Some S4 ∧ snapshot 5 tr = Some S5.
Proof.
  unfold sequence_trace. simpl.
  assert (∀ n m S tc tr, snapshot n (Solve m S tc :: report outlvl m tc ++ tr)
                         = if decide (m = n) then Some S else snapshot n tr) as Hs.
  { intros. simpl. case_decide; [done|]. apply snapshot_report. }
  assert (∀ n tr, snapshot n ((if (0 <? outlvl)%Z then [Log INFO (step_skipped 1)] else [])
                               ++ tr) = snapshot n tr) as Hk.
  { intros. by destruct (0 <? outlvl)%Z. }
  rewrite <- (app_nil_r (report outlvl 5 _)).
  destruct two; rewrite <- ?app_comm_cons, ?Hk, ?Hs; simpl; rewrite ?Hs; simpl;
    rewrite ?Hs; simpl; rewrite ?Hs; simpl; rewrite ?Hs; done.
Qed.

Lemma snapshot_Some n tr blk :
  snapshot n tr = Some blk → ∃ tc, Solve n blk tc ∈ tr.
Proof.
  induction tr as [|[m blk' tc|l msg] tr IH]; simpl; [done| |].
  - case_decide as E.
    + intros [= <-]. subst. exists tc. left.
    + intros (tc' & ?)%IH. exists tc'. by right.
  - intros (tc' & ?)%IH. exists tc'. by right.
Qed.

Lemma Solve_in_sequence_trace outlvl two S1 S2 S3 S4 S5 n blk tc :
  Solve n blk tc ∈ sequence_trace solver outlvl two S1 S2 S3 S4 S5 →
  blk ∈ [S1; S2; S3; S4; S5].
Proof.
  assert (∀ m tc', Solve n blk tc ∈ report outlvl m tc' → False) as Hr.
  { intros m tc'. unfold report. destruct (0 <? outlvl)%Z; [|set_solver].
    case_decide; set_solver. }
  unfold sequence_trace. rewrite !elem_of_app, !elem_of_cons.
  intros [H|[[H|H]|[[H|H]|[[H|H]|[H|H]]]]];
    try (injection H as -> -> ->; set_solver); try (by destruct (Hr _ _ H)).
  destruct two.
  - apply elem_of_cons in H as [H|H]; [injection H as -> -> ->; set_solver|].
    by destruct (Hr _ _ H).
  - destruct (0 <? outlvl)%Z; set_solver.
Qed.
End Traces.

(** ** A completed [initialize], whatever its arguments *)

Lemma hold_block_holds fm mf T P k b fl fl' b' :
  hold_block fm mf T P k b fl = Ok (fl', b') →
  holds (state_vars (component_list (params b))) b b'.
Proof.
  unfold hold_block. intros H.
  apply bind_Ok in H as ([f b1] & [H1 _]%hold_var_spec & H).
  apply bind_Ok in H as ([X b2] & (H2 & _)%hold_mole_frac_spec & H).
  apply bind_Ok in H as ([p b3] & [H3 _]%hold_var_spec & H).
  apply bind_Ok in H as ([t b4] & [H4 _]%hold_var_spec & [= <- <-]).
  pose proof (holds_app _ _ _ _ _ (holds_app _ _ _ _ _ (holds_app _ _ _ _ _ H1 H2) H3) H4) as HH.
  unfold state_vars. simpl in HH. by rewrite <- !app_assoc in HH.
Qed.

Lemma hold_state_vars_holds fm mf T P (blk : StateBlock) fl fl' blk' :
  hold_state_vars fm mf T P blk fl = Ok (fl', blk') →
  length blk' = length blk ∧
  ∀ p k b, blk !! p = Some (k, b) →
    ∃ b', blk' !! p = Some (k, b') ∧ holds (state_vars (component_list (params b))) b b'.
Proof.
  revert fl fl' blk'. induction blk as [|[k0 b0] rest IH]; intros fl fl' blk' H.
  - by injection H as <- <-.
  - simpl in H. apply bind_Ok in H as ([fl1 b0'] & H0%hold_block_holds & H).
    apply bind_Ok in H as ([fl2 rest'] & (Hlen & Hpos)%IH & [= <- <-]). split.
    + simpl. by rewrite Hlen.
    + intros [|p] k b Hp; simpl in Hp; [|by apply Hpos].
      injection Hp as <- <-. eauto.
Qed.

Section Completed.
Context (degrees_of_freedom : BlockData → Z).
Context (solver : nat → StateBlock → SolverResults).

Lemma check_dof_Ok (blk : StateBlock) :
  check_dof degrees_of_freedom blk = Ok () ↔
  Forall (λ kb, degrees_of_freedom kb.2 = 0%Z) blk.
Proof.
  induction blk as [|[k b] rest IH]; simpl; [done|].
  rewrite Forall_cons. simpl.
  destruct (decide (degrees_of_freedom b ≠ 0%Z)) as [E|E]; [naive_solver|].
  apply dec_stable in E. naive_solver.
Qed.

Lemma check_dof_Raise (blk : StateBlock) e :
  check_dof degrees_of_freedom blk = Raise e → e = DofException.
Proof.
  induction blk as [|[k b] rest IH]; simpl; [done|].
  case_decide; [by intros [= <-]|done].
Qed.

Lemma initialize_inv blk fm mf T P hold svf outlvl r blk1 tr :
  initialize degrees_of_freedom solver blk fm mf T P hold svf outlvl = Ok (r, blk1, tr) →
  ∃ blkH blkF tr0,
    solve_sequence solver outlvl blkH = Ok (blkF, tr0) ∧
    (∀ n, snapshot n tr = snapshot n tr0) ∧
    solve_steps tr = solve_steps tr0 ∧
    length blkH = length blk ∧
    (∀ p k b, blk !! p = Some (k, b) →
       ∃ bH, blkH !! p = Some (k, bH) ∧ prepared svf b bH) ∧
    (if svf || hold then blk1 = blkF
     else ∃ fl, for_each (release_block fl) blkF = Ok blk1).
Proof.
  unfold initialize. intros H.
  apply bind_Ok in H as (blk0 & H0 & H).
  apply bind_Ok in H as ([fl' blkH] & HH & H).
  apply bind_Ok in H as ([blkF tr0] & HS & H).
  assert (∀ p k b, blk !! p = Some (k, b) →
            ∃ b0, blk0 !! p = Some (k, b0) ∧ params b0 = params b ∧ transforms keep
              (switch (negb (defined_state b)) ["eq_mol_frac_out"] false) b b0) as P0.
  { intros p k b Hp. destruct (for_each_lookup _ _ _ _ _ _ H0 Hp) as (b0 & Hb0 & E0).
    apply outlet_constraint_spec in E0 as [T0 _]. exists b0. split_and!; try done.
    apply (tf_params _ _ _ _ T0). }
  pose proof (for_each_length _ _ _ H0) as L0.
  exists blkH, blkF, tr0. split; [done|].
  assert (length blkH = length blk ∧
          ∀ p k b, blk !! p = Some (k, b) →
            ∃ bH, blkH !! p = Some (k, bH) ∧ prepared svf b bH) as [LH PH].
  { destruct svf.
    - apply bind_Ok in HH as ([] & _ & [= <- <-]). split; [done|].
      intros p k b Hp. destruct (P0 _ _ _ Hp) as (b0 & Hp0 & _ & T0).
      exists b0. split; [done|]. exists keep. by split_and!.
    - apply bind_Ok in HH as ([fl blkH'] & (LH & PH)%hold_state_vars_holds & [= <- <-]).
      split; [congruence|].
      intros p k b Hp. destruct (P0 _ _ _ Hp) as (b0 & Hp0 & Par0 & T0).
      destruct (PH _ _ _ Hp0) as (bH & HpH & g & Tg & G1 & G2 & G3).
      exists bH. split; [done|]. exists g. split_and!; try done.
      + eapply transforms_ext_on; [exact (transforms_trans _ _ _ _ _ _ _ T0 Tg)|done|done].
      + by rewrite <- Par0. }
  assert (forallb is_log
            (if (0 <? outlvl)%Z then [Log INFO initialisation_completed] else [])
          = true) as Hdone.
  { by destruct (0 <? outlvl)%Z. }
  destruct svf; simpl.
  - injection H as <- <- <-. split_and!; try done.
    + intros n. apply snapshot_app_logs. exact Hdone.
    + apply solve_steps_app_logs. exact Hdone.
  - destruct hold.
    + injection H as <- <- <-. by split_and!.
    + apply bind_Ok in HH as ([fl blkH'] & _ & [= <- <-]).
      apply bind_Ok in H as ([blk2 rel] & HR & [= <- <- <-]). simpl in HR.
      apply bind_Ok in HR as (blk2' & HR & [= <- <-]). split_and!; try done.
      * intros n. rewrite app_nil_l. apply snapshot_app_logs. exact Hdone.
      * rewrite app_nil_l. apply solve_steps_app_logs. exact Hdone.
      * eauto.
Qed.
End Completed.

Lemma prepared_config svf b bH :
  prepared svf b bH →
  params bH = params b ∧ has_phase_equilibrium bH = has_phase_equilibrium b ∧
  defined_state bH = defined_state b.
Proof. intros (g & [] & _). done. Qed.

Lemma last_aligned {A} (R : A → A → Prop) (l l' : list (nat * A)) kb' :
  length l' = length l →
  (∀ p k x, l !! p = Some (k, x) → ∃ x', l' !! p = Some (k, x') ∧ R x x') →
  last l' = Some kb' → ∃ kb, last l = Some kb ∧ kb.1 = kb'.1 ∧ R kb.2 kb'.2.
Proof.
  intros Hlen H. rewrite !last_lookup, Hlen. intros Hl'.
  destruct (l !! pred (length l)) as [[k x]|] eqn:E.
  - destruct (H _ _ _ E) as (x' & Hx' & HR). rewrite Hl' in Hx'. injection Hx' as ->.
    by exists (k, x).
  - apply lookup_ge_None in E. apply lookup_lt_Some in Hl'. lia.
Qed.

Lemma Gij_diagonal_ok_transforms g h b b' :
  transforms g h b b' →
  (∀ i d, fixed d = true → g "Gij_coeff" [i; i] d = d) →
  Gij_diagonal_ok b → Gij_diagonal_ok b'.
Proof.
  intros Tg Hg Hb i Hi. rewrite (tf_params _ _ _ _ Tg) in Hi.
  destruct (Hb i Hi) as [Hv Hc]. split.
  - rewrite (tf_var _ _ _ _ Tg), Hv. simpl. f_equal. by apply Hg.
  - by rewrite (tf_con _ _ _ _ Tg), Hc.
Qed.

Lemma block_sequence_Gij two v1 v2 v3 v4 v5 b s1 s2 s3 s4 s5 bF :
  block_sequence two v1 v2 v3 v4 v5 b = Ok (s1, s2, s3, s4, s5, bF) →
  Gij_diagonal_ok b →
  Gij_diagonal_ok s1 ∧ Gij_diagonal_ok s2 ∧ Gij_diagonal_ok s3 ∧
  Gij_diagonal_ok s4 ∧ Gij_diagonal_ok s5 ∧ Gij_diagonal_ok bF.
Proof.
  intros (T1 & T2 & T3 & T4 & T5 & TF & _)%block_sequence_spec Hb.
  assert (∀ v i d, fixed d = true → loaded v "Gij_coeff" [i; i] d = d) as HL.
  { intros. by apply load_value_fixed. }
  assert (Gij_diagonal_ok s1) as H1.
  { eapply Gij_diagonal_ok_transforms; [exact T1| |done]. done. }
  assert (Gij_diagonal_ok s2) as H2.
  { eapply Gij_diagonal_ok_transforms; [exact T2| |done].
    intros i d Hd. unfold assume_ideal. rewrite andb_false_r.
    destruct two; [by apply HL|done]. }
  assert (Gij_diagonal_ok s3) as H3.
  { eapply Gij_diagonal_ok_transforms; [exact T3| |done]. apply HL. }
  assert (Gij_diagonal_ok s4) as H4.
  { eapply Gij_diagonal_ok_transforms; [exact T4| |done].
    intros i d Hd. unfold free_activity. rewrite andb_false_r. by apply HL. }
  assert (Gij_diagonal_ok s5) as H5.
  { eapply Gij_diagonal_ok_transforms; [exact T5| |done]. apply HL. }
  split_and!; try done.
  eapply Gij_diagonal_ok_transforms; [exact TF| |done]. apply HL.
Qed.

Section Phases.
Context (degrees_of_freedom : BlockData → Z).
Context (solver : nat → StateBlock → SolverResults).

(** The first solve runs exactly when the data object at the last key is
    two-phase. *)
Lemma first_solve_general blk fm mf T P hold svf outlvl r blk1 tr :
  initialize degrees_of_freedom solver blk fm mf T P hold svf outlvl = Ok (r, blk1, tr) →
  ∃ kb, last blk = Some kb ∧
    (is_Some (snapshot 1 tr) ↔
       two_phase (has_phase_equilibrium kb.2) (params kb.2) = true) ∧
    solve_steps tr =
      if two_phase (has_phase_equilibrium kb.2) (params kb.2)
      then [1; 2; 3; 4; 5] else [2; 3; 4; 5].
Proof.
  intros (blkH & blkF & tr0 & HS & Hsnap & Hsteps & LH & PH & _)%initialize_inv.
  apply solve_sequence_inv in HS as (kbH & S1 & S2 & S3 & S4 & S5 & Hlast & -> & _ & _).
  destruct (last_aligned (prepared svf) blk blkH kbH LH PH Hlast)
    as (kb & Hl & _ & (Hpar & Hpe & _)%prepared_config).
  exists kb. split; [done|]. rewrite Hpar, Hpe in *.
  rewrite Hsnap, Hsteps, solve_steps_sequence_trace.
  destruct (snapshot_sequence_trace solver outlvl
    (two_phase (has_phase_equilibrium kb.2) (params kb.2)) S1 S2 S3 S4 S5) as (-> & _).
  split; [|done]. destruct (two_phase _ _); split; intros H; try done; by destruct H.
Qed.

(** The diagonal of [Gij_coeff] through a whole run. *)
Lemma Gij_diagonal_preserved blk fm mf T P hold svf outlvl r blk1 tr :
  initialize degrees_of_freedom solver blk fm mf T P hold svf outlvl = Ok (r, blk1, tr) →
  Forall (λ kb, Gij_diagonal_ok kb.2) blk →
  Forall (λ kb, Gij_diagonal_ok kb.2) blk1 ∧
  ∀ n S, snapshot n tr = Some S → Forall (λ kb, Gij_diagonal_ok kb.2) S.
Proof.
  intros (blkH & blkF & tr0 & HS & Hsnap & Hsteps & LH & PH & H1)%initialize_inv Hblk.
  apply solve_sequence_inv in HS as (kbH & S1 & S2 & S3 & S4 & S5 & Hlast & -> & LF & PF).
  assert (∀ p k b, blk !! p = Some (k, b) →
    ∃ s1 s2 s3 s4 s5 bF,
      S1 !! p = Some (k, s1) ∧ S2 !! p = Some (k, s2) ∧ S3 !! p = Some (k, s3) ∧
      S4 !! p = Some (k, s4) ∧ S5 !! p = Some (k, s5) ∧ blkF !! p = Some (k, bF) ∧
      Gij_diagonal_ok s1 ∧ Gij_diagonal_ok s2 ∧ Gij_diagonal_ok s3 ∧
      Gij_diagonal_ok s4 ∧ Gij_diagonal_ok s5 ∧ Gij_diagonal_ok bF) as Hpos.
  { intros p k b Hp. destruct (PH _ _ _ Hp) as (bH & HpH & g & Tg & G1 & _).
    destruct (PF _ _ _ HpH) as (s1 & s2 & s3 & s4 & s5 & bF & Hseq & ?).
    apply block_sequence_Gij in Hseq.
    - exists s1, s2, s3, s4, s5, bF. naive_solver.
    - eapply Gij_diagonal_ok_transforms; [exact Tg|by intros; apply G1|].
      apply (Forall_lookup_1 _ _ _ _ Hblk Hp). }
  assert (∀ (L : StateBlock), length L = length blk →
            (∀ p k b, blk !! p = Some (k, b) → ∃ x, L !! p = Some (k, x) ∧ Gij_diagonal_ok x) →
            Forall (λ kb, Gij_diagonal_ok kb.2) L) as Hall.
  { intros L HL HP. apply Forall_lookup. intros p [k x] Hx.
    by destruct (lookup_back (λ _ _ x, Gij_diagonal_ok x) blk L p k x) as (? & _ & ?). }
  destruct LF as (L1 & L2 & L3 & L4 & L5 & LF).
  assert (Forall (λ kb, Gij_diagonal_ok kb.2) blkF) as HF.
  { apply Hall; [congruence|]. intros p k b Hp. destruct (Hpos _ _ _ Hp)
      as (s1 & s2 & s3 & s4 & s5 & bF & ?). exists bF. naive_solver. }
  split.
  - destruct (svf || hold); [by subst|]. destruct H1 as [fl HR].
    apply Forall_lookup. intros p [k b2] Hp2.
    pose proof (for_each_length _ _ _ HR) as L12.
    destruct (lookup_back (λ k bF b2, release_block fl k bF = Ok b2) blkF blk1 p k b2)
      as (bF & HpF & Hrel); try done.
    { intros p' k' b' Hp'. by apply (for_each_lookup _ _ _ _ _ _ HR). }
    apply release_block_spec in Hrel. simpl.
    eapply Gij_diagonal_ok_transforms; [exact Hrel| |].
    + intros i d Hd. unfold released. rewrite bool_decide_eq_false_2; [done|].
      intros [[? _]|[[? _]|[[? _]|[? _]]]]%elem_of_state_vars; done.
    + apply (Forall_lookup_1 _ _ _ _ HF HpF).
  - intros n S. rewrite Hsnap. intros (tc & Hin%Solve_in_sequence_trace)%snapshot_Some.
    assert (length S = length blk ∧ ∀ p k b, blk !! p = Some (k, b) →
              ∃ x, S !! p = Some (k, x) ∧ Gij_diagonal_ok x) as [? ?]; [|by apply Hall].
    repeat (apply elem_of_cons in Hin as [->|Hin];
      [split; [congruence|]; intros p k b Hp;
       destruct (Hpos _ _ _ Hp) as (s1 & s2 & s3 & s4 & s5 & bF & ?); naive_solver|]).
    set_solver.
Qed.
End Phases.

(** ** The activity-coefficient steps, for one data object *)

Lemma block_sequence_non_ideal two v1 v2 v3 v4 v5 b s1 s2 s3 s4 s5 bF :
  block_sequence two v1 v2 v3 v4 v5 b = Ok (s1, s2, s3, s4, s5, bF) →
  not_ideal b = true →
  is_Some (var_objects s2 !! "activity_coeff_comp") ∧ staged_non_ideal s2 s3 s4.
Proof.
  intros (T1 & T2 & T3 & T4 & T5 & TF & Hex)%block_sequence_spec Hni.
  rewrite Hni in *. destruct (Hex eq_refl) as [Hv Hc].
  split.
  { by apply (tf_var_obj _ _ _ _ T2), (tf_var_obj _ _ _ _ T1). }
  assert (∀ i d, lookup_var s2 "activity_coeff_comp" i = Some d → d = mkVar (Some 1%Q) true)
    as A2.
  { intros i d. rewrite (tf_var _ _ _ _ T2).
    destruct (lookup_var s1 _ i); [|done]. by intros [= <-]. }
  assert (∀ c i a, c ∈ activity_constraints → lookup_con s2 c i = Some a → a = false) as C2.
  { intros c i a Hin. rewrite (tf_con _ _ _ _ T2), (tf_con _ _ _ _ T1).
    destruct (lookup_con b c i); [|done]. simpl. intros [= <-]. unfold switch. simpl.
    repeat (apply elem_of_cons in Hin as [->|Hin]; [done|]). set_solver. }
  assert (∀ i d, lookup_var s3 "activity_coeff_comp" i = Some d → d = mkVar (Some 1%Q) true)
    as A3.
  { intros i d. rewrite (tf_var _ _ _ _ T3).
    destruct (lookup_var s2 _ i) as [d2|] eqn:E; [|done]. intros [= <-].
    by rewrite (A2 _ _ E). }
  split_and!; try done.
  - intros c i a Hin. rewrite (tf_con _ _ _ _ T3).
    destruct (lookup_con s2 c i); [|done]. simpl. intros [= <-]. unfold switch.
    by rewrite bool_decide_eq_true_2.
  - intros i a. rewrite (tf_con _ _ _ _ T3).
    destruct (lookup_con s2 _ i) as [a2|] eqn:E; [|done]. simpl. intros [= <-].
    unfold switch. simpl. apply (C2 "eq_activity_coeff" i); [set_solver|done].
  - intros i d. rewrite (tf_var _ _ _ _ T4).
    destruct (lookup_var s3 _ i); [|done]. by intros [= <-].
  - intros c i a Hin. rewrite (tf_con _ _ _ _ T4), (tf_con _ _ _ _ T3).
    destruct (lookup_con s2 c i); [|done]. simpl. intros [= <-]. unfold switch. simpl.
    repeat (apply elem_of_cons in Hin as [->|Hin]; [done|]). set_solver.
Qed.

Lemma block_sequence_ideal two v1 v2 v3 v4 v5 b s1 s2 s3 s4 s5 bF :
  block_sequence two v1 v2 v3 v4 v5 b = Ok (s1, s2, s3, s4, s5, bF) →
  not_ideal b = false →
  staged_ideal b s2 ∧ staged_ideal b s3 ∧ staged_ideal b s4 ∧
  staged_ideal b s5 ∧ staged_ideal b bF.
Proof.
  intros (T1 & T2 & T3 & T4 & T5 & TF & _)%block_sequence_spec Hni.
  rewrite Hni in *.
  assert (∀ s s' g h, staged_ideal b s → transforms g h s s' →
            (∀ n i d, fixed (g n i d) = fixed d) →
            (∀ c i, c ∈ activity_constraints → h c i false = false) →
            staged_ideal b s') as Hstep.
  { intros s s' g h [Hv Hc] Tg Hg Hh. split.
    - intros i. rewrite (tf_var _ _ _ _ Tg), <- Hv.
      destruct (lookup_var s _ i); simpl; by rewrite ?Hg.
    - intros c i a Hin. rewrite (tf_con _ _ _ _ Tg).
      destruct (lookup_con s c i) as [a0|] eqn:E; [|done]. intros [= <-].
      rewrite (Hc _ _ _ Hin E). by apply Hh. }
  assert (∀ c, c ∈ activity_constraints → ∀ names,
            (∀ x, x ∈ names → x ∉ activity_constraints) →
            ∀ cond i, switch cond names true c i false = false) as Hsw.
  { intros c Hin names Hn cond i. unfold switch.
    destruct cond; [|done]. simpl. rewrite bool_decide_eq_false_2; [done|]. naive_solver. }
  assert (staged_ideal b s1) as H1.
  { split.
    - intros i. rewrite (tf_var _ _ _ _ T1). by destruct (lookup_var b _ i).
    - intros c i a Hin. rewrite (tf_con _ _ _ _ T1).
      destruct (lookup_con b c i); [|done]. intros [= <-]. unfold switch. simpl.
      repeat (apply elem_of_cons in Hin as [->|Hin]; [done|]). set_solver. }
  assert (staged_ideal b s2) as H2.
  { eapply Hstep; [exact H1|exact T2| |].
    - intros n i d. unfold assume_ideal. simpl. destruct two; [apply fixed_load_value|done].
    - intros c i Hin. apply Hsw; [done|]. unfold activity_constraints, interaction_constraints.
      intros x Hx. repeat (apply elem_of_cons in Hx as [->|Hx]; [set_solver|]). set_solver. }
  assert (staged_ideal b s3) as H3.
  { eapply Hstep; [exact H2|exact T3| |done]. intros. apply fixed_load_value. }
  assert (staged_ideal b s4) as H4.
  { eapply Hstep; [exact H3|exact T4| |done]. intros. apply fixed_load_value. }
  assert (staged_ideal b s5) as H5.
  { eapply Hstep; [exact H4|exact T5| |].
    - intros. apply fixed_load_value.
    - intros c i Hin. apply Hsw; [done|]. unfold activity_constraints, interaction_constraints.
      intros x Hx. repeat (apply elem_of_cons in Hx as [->|Hx]; [set_solver|]). set_solver. }
  split_and!; try done.
  eapply Hstep; [exact H5|exact TF| |].
  - intros. apply fixed_load_value.
  - intros c i Hin. apply Hsw; [done|]. unfold activity_constraints, interaction_constraints.
    intros x Hx. repeat (apply elem_of_cons in Hx as [->|Hx]; [set_solver|]). set_solver.
Qed.

Section Activity.
Context (degrees_of_freedom : BlockData → Z).
Context (solver : nat → StateBlock → SolverResults).

Lemma prepared_staged_ideal svf b bH s :
  prepared svf b bH → staged_ideal bH s → staged_ideal b s.
Proof.
  intros (g & Tg & _ & G2 & _) [Hv Hc]. split; [|done].
  intros i. rewrite Hv, (tf_var _ _ _ _ Tg).
  destruct (lookup_var b _ i); [|done]. simpl. rewrite G2; [done|].
  intros [[? _]|[[? _]|[[? _]|[? _]]]]%elem_of_state_vars; done.
Qed.

(** The activity-coefficient steps of a completed run, position by
    position, as the second, third and fourth solve see them. *)
Lemma activity_steps_general blk fm mf T P hold svf outlvl r blk1 tr :
  initialize degrees_of_freedom solver blk fm mf T P hold svf outlvl = Ok (r, blk1, tr) →
  ∃ S2 S3 S4,
    snapshot 2 tr = Some S2 ∧ snapshot 3 tr = Some S3 ∧ snapshot 4 tr = Some S4 ∧
    ∀ p k b, blk !! p = Some (k, b) →
      ∃ s2 s3 s4,
        S2 !! p = Some (k, s2) ∧ S3 !! p = Some (k, s3) ∧ S4 !! p = Some (k, s4) ∧
        if not_ideal b
        then is_Some (var_objects b !! "activity_coeff_comp") ∧ staged_non_ideal s2 s3 s4
        else staged_ideal b s2 ∧ staged_ideal b s3 ∧ staged_ideal b s4.
Proof.
  intros (blkH & blkF & tr0 & HS & Hsnap & Hsteps & LH & PH & _)%initialize_inv.
  apply solve_sequence_inv in HS as (kbH & S1 & S2 & S3 & S4 & S5 & Hlast & -> & _ & PF).
  destruct (snapshot_sequence_trace solver outlvl
    (two_phase (has_phase_equilibrium kbH.2) (params kbH.2)) S1 S2 S3 S4 S5)
    as (_ & E2 & E3 & E4 & _).
  exists S2, S3, S4. rewrite !Hsnap. split_and!; try done.
  intros p k b Hp. destruct (PH _ _ _ Hp) as (bH & HpH & Hprep).
  destruct (PF _ _ _ HpH) as (s1 & s2 & s3 & s4 & s5 & bF & Hseq & _ & ? & ? & ? & _).
  exists s2, s3, s4. split_and!; try done.
  assert (not_ideal bH = not_ideal b) as Hni.
  { unfold not_ideal. by destruct (prepared_config _ _ _ Hprep) as (-> & _). }
  destruct (not_ideal b) eqn:E.
  - destruct (block_sequence_non_ideal _ _ _ _ _ _ _ _ _ _ _ _ _ Hseq Hni) as [Hex Hst].
    split; [|done]. destruct Hprep as (g & Tg & _).
    apply block_sequence_spec in Hseq as (T1 & T2 & _).
    by apply (tf_var_obj _ _ _ _ Tg), (tf_var_obj _ _ _ _ T1), (tf_var_obj _ _ _ _ T2).
  - destruct (block_sequence_ideal _ _ _ _ _ _ _ _ _ _ _ _ _ Hseq Hni)
      as (I2 & I3 & I4 & _).
    split_and!; by eapply prepared_staged_ideal.
Qed.
End Activity.

(** ** Runs that differ only in what the solver returns *)























Section SameOutcome.
Context (degrees_of_freedom : BlockData → Z).
Context (solver solver' : nat → StateBlock → SolverResults).



End SameOutcome.

(** ** Construction *)

Lemma lookup_var_add_var name idxs init b n i :
  lookup_var (add_var name idxs init b) n i =
  if decide (name = n) then new_var idxs init !! i else lookup_var b n i.
Proof. unfold lookup_var, add_var. simpl. rewrite lookup_insert. by case_decide. Qed.

Lemma lookup_new_var idxs init i :
  new_var idxs init !! i = if decide (i ∈ idxs) then Some (mkVar init false) else None.
Proof.
  unfold new_var. induction idxs as [|j idxs IH].
  - rewrite fmap_nil, list_to_map_nil, lookup_empty.
    by rewrite decide_False by set_solver.
  - rewrite fmap_cons, list_to_map_cons, lookup_insert. cbn [fst snd].
    destruct (decide (j = i)) as [->|E].
    + by rewrite decide_True by set_solver.
    + rewrite IH. destruct (decide (i ∈ idxs)).
      * by rewrite decide_True by set_solver.
      * by rewrite decide_False by set_solver.
Qed.

Lemma run_rule_relation idxs b acc : (run_rule relation idxs b acc).1 = b.
Proof. revert acc. induction idxs as [|i idxs IH]; intros acc; simpl; [done|]. apply IH. Qed.

Lemma add_con_relation_vars name idxs b :
  var_objects (add_con name idxs relation b) = var_objects b ∧
  params (add_con name idxs relation b) = params b ∧
  defined_state (add_con name idxs relation b) = defined_state b ∧
  has_phase_equilibrium (add_con name idxs relation b) = has_phase_equilibrium b.
Proof.
  unfold add_con. pose proof (run_rule_relation idxs b ∅) as H.
  destruct (run_rule relation idxs b ∅) as [b' c]. simpl in *. by subst.
Qed.

Lemma lookup_var_add_con_relation name idxs b n i :
  lookup_var (add_con name idxs relation b) n i = lookup_var b n i.
Proof. unfold lookup_var. by destruct (add_con_relation_vars name idxs b) as (-> & _). Qed.

Lemma lookup_con_add_con_relation name idxs b n i :
  name ≠ n → lookup_con (add_con name idxs relation b) n i = lookup_con b n i.
Proof.
  intros Hn. unfold add_con. pose proof (run_rule_relation idxs b ∅) as H.
  destruct (run_rule relation idxs b ∅) as [b' c]. simpl in *. subst.
  unfold lookup_con. simpl. by rewrite lookup_insert_ne.
Qed.

Lemma run_rule_Gij idxs b acc :
  let r := run_rule rule_Gij_coeff idxs b acc in
  params r.1 = params b ∧ defined_state r.1 = defined_state b ∧
  has_phase_equilibrium r.1 = has_phase_equilibrium b ∧
  constraint_objects r.1 = constraint_objects b ∧
  (∀ n ix, lookup_var r.1 n ix =
     (λ d, if bool_decide (n = "Gij_coeff" ∧ ix ∈ idxs) && is_diagonal ix
           then fix_data 1%Q d else d) <$> lookup_var b n ix) ∧
  (∀ i, r.2 !! [i; i] = acc !! [i; i]).
Proof.
  revert b acc. induction idxs as [|ix idxs IH]; intros b acc; simpl.
  - split_and!; try done. intros n ix.
    rewrite bool_decide_eq_false_2 by set_solver. by destruct (lookup_var b n ix).
  - assert (∃ b1 keep1, rule_Gij_coeff ix b = (b1, keep1) ∧
              params b1 = params b ∧ defined_state b1 = defined_state b ∧
              has_phase_equilibrium b1 = has_phase_equilibrium b ∧
              constraint_objects b1 = constraint_objects b ∧
              (∀ n jx, lookup_var b1 n jx =
                 (λ d, if bool_decide (n = "Gij_coeff" ∧ jx = ix) && is_diagonal jx
                       then fix_data 1%Q d else d) <$> lookup_var b n jx) ∧
              (∀ i, (if keep1 then <[ix := true]> acc else acc) !! [i; i] = acc !! [i; i]))
      as (b1 & keep1 & -> & P1 & P2 & P3 & P4 & P5 & P6).
    { unfold rule_Gij_coeff.
      destruct ix as [|i [|j [|]]];
        try (eexists _, _; split; [done|]; split_and!; try done;
             [intros n jx; destruct (lookup_var b n jx) eqn:E; simpl; [|done];
              case_bool_decide as Hc; [destruct Hc as [_ ->]|]; done
             |intros i'; by rewrite lookup_insert_ne]).
      destruct (decide (i ≠ j)) as [Hij|Hij].
      - eexists _, _; split; [done|]. split_and!; try done.
        + intros n jx. destruct (lookup_var b n jx) eqn:E; simpl; [|done].
          case_bool_decide as Hc; [|done]. destruct Hc as [_ ->]. simpl.
          by rewrite bool_decide_eq_false_2.
        + intros i'. rewrite lookup_insert_ne; [done|]. congruence.
      - apply dec_stable in Hij. subst j.
        eexists _, _; split; [done|]. split_and!; try done.
        intros n jx. unfold fix_at. rewrite lookup_var_map_vars.
        destruct (lookup_var b n jx) eqn:E; simpl; [|done]. f_equal.
        case_decide as Hc.
        + destruct Hc as [-> ->]. simpl. by rewrite !bool_decide_eq_true_2.
        + rewrite bool_decide_eq_false_2; [done|]. naive_solver. }
    destruct (IH b1 (if keep1 then <[ix:=true]> acc else acc))
      as (Q1 & Q2 & Q3 & Q4 & Q5 & Q6).
    split_and!; try congruence.
    intros n jx. rewrite Q5, P5. destruct (lookup_var b n jx); simpl; [|done]. f_equal.
    destruct (is_diagonal jx); rewrite ?andb_false_r, ?andb_true_r; [|done].
    repeat case_bool_decide; try done; set_solver.
Qed.

Lemma make_activity_eqs_Gij b :
  let b' := make_activity_eqs b in
  (∀ i, i ∈ component_list (params b) →
        lookup_var b' "Gij_coeff" [i; i] = Some (mkVar (Some 1%Q) true)) ∧
  (∀ i j, i ∈ component_list (params b) → j ∈ component_list (params b) → i ≠ j →
        lookup_var b' "Gij_coeff" [i; j] = Some (mkVar (Some 1%Q) false)) ∧
  (∀ i, lookup_con b' "eq_Gij_coeff" [i; i] = None).
Proof.
  unfold make_activity_eqs.
  set (cl := component_list (params b)).
  set (b4 := add_var "B" _ _ (add_var "A" _ _ (add_var "activity_coeff_comp" _ _
               (add_var "Gij_coeff" (over2 cl cl) (Some 1%Q) b)))).
  pose proof (run_rule_Gij (over2 cl cl) b4 ∅) as (_ & _ & _ & _ & R5 & R6).
  assert (∀ ix, lookup_var (add_con "eq_Gij_coeff" (over2 cl cl) rule_Gij_coeff b4)
                  "Gij_coeff" ix =
                (λ d, if bool_decide ("Gij_coeff" = "Gij_coeff" ∧ ix ∈ over2 cl cl)
                         && is_diagonal ix then fix_data 1%Q d else d)
                <$> lookup_var b4 "Gij_coeff" ix) as HV.
  { intros ix. rewrite <- R5. unfold add_con.
    by destruct (run_rule rule_Gij_coeff (over2 cl cl) b4 ∅). }
  assert (∀ i, lookup_con (add_con "eq_Gij_coeff" (over2 cl cl) rule_Gij_coeff b4)
                 "eq_Gij_coeff" [i; i] = None) as HC.
  { intros i. unfold add_con, lookup_con.
    destruct (run_rule rule_Gij_coeff (over2 cl cl) b4 ∅) as [b' c]. simpl in *.
    rewrite lookup_insert_eq. simpl. by rewrite R6. }
  assert (∀ ix, lookup_var b4 "Gij_coeff" ix =
                if decide (ix ∈ over2 cl cl) then Some (mkVar (Some 1%Q) false) else None)
    as H4.
  { intros ix. unfold b4. rewrite !lookup_var_add_var. simpl. apply lookup_new_var. }
  assert (∀ i j, i ∈ cl → j ∈ cl → [i; j] ∈ over2 cl cl) as Hin.
  { intros i j Hi Hj. unfold over2. apply list_elem_of_bind. exists i. split; [|done].
    apply list_elem_of_fmap. eauto. }
  cbv zeta. split_and!.
  - intros i Hi. rewrite !lookup_var_add_con_relation, HV, H4.
    rewrite decide_True by auto. simpl.
    rewrite bool_decide_eq_true_2 by auto. simpl.
    rewrite bool_decide_eq_true_2 by done. reflexivity.
  - intros i j Hi Hj Hij. rewrite !lookup_var_add_con_relation, HV, H4.
    rewrite decide_True by auto. simpl.
    rewrite (bool_decide_eq_false_2 (i = j)) by done. by rewrite andb_false_r.
  - intros i. rewrite !lookup_con_add_con_relation by done. apply HC.
Qed.

Lemma lookup_var_make_mol_frac_out b n i :
  lookup_var (make_mol_frac_out b) n i = lookup_var b n i.
Proof.
  unfold make_mol_frac_out. destruct (defined_state b); [done|].
  apply lookup_var_add_con_relation.
Qed.

Lemma lookup_con_make_mol_frac_out b n i :
  n ≠ "eq_mol_frac_out" → lookup_con (make_mol_frac_out b) n i = lookup_con b n i.
Proof.
  intros Hn. unfold make_mol_frac_out. destruct (defined_state b); [done|].
  by apply lookup_con_add_con_relation.
Qed.

Lemma _make_flash_eq_Gij b ix :
  lookup_var (_make_flash_eq b) "Gij_coeff" ix = lookup_var b "Gij_coeff" ix ∧
  lookup_con (_make_flash_eq b) "eq_Gij_coeff" ix = lookup_con b "eq_Gij_coeff" ix.
Proof.
  unfold _make_flash_eq, _temperature_bubble, _temperature_dew, _pressure_sat. cbv zeta.
  split.
  - repeat first [ rewrite lookup_var_add_con_relation
                 | rewrite lookup_var_make_mol_frac_out
                 | rewrite lookup_var_add_var, decide_False by done ]. done.
  - repeat first [ rewrite lookup_con_add_con_relation by done
                 | rewrite lookup_con_make_mol_frac_out by done
                 | progress change (lookup_con (add_var ?a ?b ?c ?d) ?n ?i)
                     with (lookup_con d n i) ]. done.
Qed.

Lemma build_two_phase p defined has_pe b :
  build p defined has_pe = Ok b → two_phase has_pe p = true →
  b = _make_flash_eq
        (let b0 := _make_vars (_make_state_vars (mkBlock p defined has_pe ∅ ∅)) in
         let b1 := if bool_decide (activity_coeff_model p = NRTL)
                   then _make_NRTL_eq b0 else b0 in
         if bool_decide (activity_coeff_model p = Wilson) then _make_Wilson_eq b1 else b1).
Proof.
  unfold build. intros Hb H2. destruct (has_pe && _) eqn:E0; [done|].
  injection Hb as <-. rewrite H2.
  assert (negb has_pe && bool_decide (valid_phase p = Liq) = false) as ->.
  { unfold two_phase in H2. destruct has_pe; [done|]. by destruct (valid_phase p). }
  assert (negb has_pe && bool_decide (valid_phase p = Vap) = false) as ->.
  { unfold two_phase in H2. destruct has_pe; [done|]. by destruct (valid_phase p). }
  done.
Qed.

(** [build] on a two-phase configuration with the NRTL or the Wilson model:
    the diagonal of [Gij_coeff] exists, is fixed at one, and has no
    constraint. *)
Lemma run_rule_params rule idxs b acc :
  (∀ i b, params (rule i b).1 = params b) →
  params (run_rule rule idxs b acc).1 = params b.
Proof.
  intros H. revert b acc. induction idxs as [|a idxs IH]; intros b acc; simpl; [done|].
  specialize (H a b). destruct (rule a b) as [b' keep]. by rewrite IH.
Qed.

Lemma params_add_con name idxs rule b :
  (∀ i b, params (rule i b).1 = params b) →
  params (add_con name idxs rule b) = params b.
Proof.
  intros H. unfold add_con. pose proof (run_rule_params rule idxs b ∅ H) as E.
  by destruct (run_rule rule idxs b ∅).
Qed.

Lemma rule_Gij_coeff_params i b : params (rule_Gij_coeff i b).1 = params b.
Proof. unfold rule_Gij_coeff. by repeat case_match. Qed.

Lemma params_add_var name idxs init b : params (add_var name idxs init b) = params b.
Proof. reflexivity. Qed.

Lemma params_make_mol_frac_out b : params (make_mol_frac_out b) = params b.
Proof.
  unfold make_mol_frac_out. destruct (defined_state b); [done|]. by apply params_add_con.
Qed.

(** One declaration at a time, from the outside in. *)
Ltac params_step :=
  etrans;
  [ first [ apply params_add_con; first [done | apply rule_Gij_coeff_params]
          | apply params_add_var
          | apply params_make_mol_frac_out ] | ].

Lemma params_make_activity_eqs b : params (make_activity_eqs b) = params b.
Proof. unfold make_activity_eqs. cbv zeta. repeat params_step. reflexivity. Qed.

Lemma params_make_NRTL_eq b : params (_make_NRTL_eq b) = params b.
Proof. unfold _make_NRTL_eq. cbv zeta. by rewrite params_make_activity_eqs. Qed.

Lemma params_make_Wilson_eq b : params (_make_Wilson_eq b) = params b.
Proof. unfold _make_Wilson_eq. cbv zeta. by rewrite params_make_activity_eqs. Qed.

Lemma params_make_liq_phase_eq b : params (_make_liq_phase_eq b) = params b.
Proof. unfold _make_liq_phase_eq. repeat params_step. reflexivity. Qed.

Lemma params_make_vap_phase_eq b : params (_make_vap_phase_eq b) = params b.
Proof. unfold _make_vap_phase_eq. repeat params_step. reflexivity. Qed.

Lemma params_make_flash_eq b : params (_make_flash_eq b) = params b.
Proof.
  unfold _make_flash_eq.
  etrans; [by apply params_add_con|]. unfold _pressure_sat.
  etrans; [by apply params_add_con|]. etrans; [apply params_add_var|].
  etrans; [by apply params_add_con|]. unfold _temperature_dew.
  etrans; [by apply params_add_con|]. etrans; [apply params_add_var|].
  etrans; [by apply params_add_con|]. unfold _temperature_bubble.
  etrans; [by apply params_add_con|].
  do 3 (etrans; [apply params_add_var|]).
  etrans; [apply params_make_mol_frac_out|].
  do 3 (etrans; [by apply params_add_con|]).
  reflexivity.
Qed.

Lemma build_params p defined has_pe b :
  build p defined has_pe = Ok b → params b = p.
Proof.
  unfold build. destruct (has_pe && _); [done|]. intros [= <-]. cbv zeta.
  destruct (negb has_pe && bool_decide (valid_phase p = Vap));
    rewrite ?params_make_vap_phase_eq;
    (destruct (two_phase has_pe p);
     [rewrite params_make_flash_eq;
      destruct (bool_decide (activity_coeff_model p = Wilson));
      rewrite ?params_make_Wilson_eq;
      destruct (bool_decide (activity_coeff_model p = NRTL));
      rewrite ?params_make_NRTL_eq|]);
    destruct (negb has_pe && bool_decide (valid_phase p = Liq));
    rewrite ?params_make_liq_phase_eq; reflexivity.
Qed.

(** Where [build] creates the activity-coefficient equations, the diagonal
    of [Gij_coeff] is fixed at one and has no constraint. *)
Lemma build_Gij_diagonal p defined has_pe b :
  build p defined has_pe = Ok b →
  activity_coeff_model p ≠ Ideal → two_phase has_pe p = true →
  Gij_diagonal_ok b.
Proof.
  intros Hb Hm H2 i. rewrite (build_params _ _ _ _ Hb).
  rewrite (build_two_phase _ _ _ _ Hb H2). cbv zeta.
  set (b0 := _make_vars _).
  assert (∃ x, component_list (params x) = component_list p ∧
            (if bool_decide (activity_coeff_model p = Wilson)
             then _make_Wilson_eq
                    (if bool_decide (activity_coeff_model p = NRTL)
                     then _make_NRTL_eq b0 else b0)
             else if bool_decide (activity_coeff_model p = NRTL)
                  then _make_NRTL_eq b0 else b0) = make_activity_eqs x) as (x & Hx & ->).
  { destruct (activity_coeff_model p) eqn:E; [done| |].
    - rewrite bool_decide_eq_false_2, bool_decide_eq_true_2 by done.
      eexists. split; [|done]. done.
    - rewrite bool_decide_eq_true_2, bool_decide_eq_false_2 by done.
      eexists. split; [|done]. done. }
  destruct (make_activity_eqs_Gij x) as (H1 & _ & H3). rewrite Hx in H1.
  intros Hi. destruct (_make_flash_eq_Gij (make_activity_eqs x) [i; i]) as [-> ->]. auto.
Qed.


(** Every solve is reported, and only failed solves give warnings. *)
Section Reports.
Context (degrees_of_freedom : BlockData → Z).
Context (solver : nat → StateBlock → SolverResults).







End Reports.

End ActivityCoeffFacts.

(** * Facts about the flowsheet *)

Module FlowsheetFacts.
Import Flowsheet.

Ltac split_paths c :=
  repeat match goal with
         | |- context [path_eqb ?p c] => destruct (path_eqb p c)
         end.

Ltac split_selects v i :=
  repeat match goal with
         | |- context [selects ?p ?s v i] => destruct (selects p s v i)
         end.

Lemma active_deactivate_constraints m c i :
  active (deactivate_constraints m) c i = if is_decoupled c then false else active m c i.
Proof.
  unfold deactivate_constraints, is_decoupled, decoupled_constraints, statements, deactivate.
  cbn [foldl active existsb]. split_paths c; reflexivity.
Qed.

Lemma active_activate_constraints m c i :
  active (activate_constraints m) c i = if is_decoupled c then true else active m c i.
Proof.
  unfold activate_constraints, is_decoupled, decoupled_constraints, statements, activate.
  cbn [foldl active existsb]. split_paths c; reflexivity.
Qed.

Lemma fixed_fix_split_fractions m v i :
  fixed (fix_split_fractions m) v i = if is_assumed v i then true else fixed m v i.
Proof.
  unfold fix_split_fractions, is_assumed, assumed_split_fractions, statements, fix_var.
  cbn [foldl fixed existsb fst snd]. split_selects v i; reflexivity.
Qed.

Lemma fixed_unfix_split_fractions m v i :
  fixed (unfix_split_fractions m) v i = if is_assumed v i then false else fixed m v i.
Proof.
  unfold unfix_split_fractions, is_assumed, assumed_split_fractions, statements, unfix_var.
  cbn [foldl fixed existsb fst snd]. split_selects v i; reflexivity.
Qed.

(** The frame of the four blocks. *)
Lemma fixed_deactivate_constraints m : fixed (deactivate_constraints m) = fixed m.
Proof. reflexivity. Qed.

Lemma fixed_activate_constraints m : fixed (activate_constraints m) = fixed m.
Proof. reflexivity. Qed.

Lemma active_fix_split_fractions m : active (fix_split_fractions m) = active m.
Proof. reflexivity. Qed.

Lemma active_unfix_split_fractions m : active (unfix_split_fractions m) = active m.
Proof. reflexivity. Qed.

Section Initialize.
Context (calculate_scaling_factors : Model → Model).
Context (unit_initialize : string → Model → Model).
Context (_set_port : Path → Path → Model → Model).

Lemma before_final_solve_eq m :
  before_final_solve calculate_scaling_factors unit_initialize _set_port m =
  activate_constraints
    (unfix_split_fractions
       (initialize_units unit_initialize _set_port
          (decoupled calculate_scaling_factors unit_initialize m))).
Proof. reflexivity. Qed.

Lemma flags_load_solution r m :
  fixed (load_solution r m) = fixed m ∧ active (load_solution r m) = active m.
Proof. done. Qed.

Lemma initialize_model (solver : Model → SolverResults) m :
  (initialize calculate_scaling_factors unit_initialize _set_port solver m).1 =
  load_solution
    (solver (before_final_solve calculate_scaling_factors unit_initialize _set_port m))
    (before_final_solve calculate_scaling_factors unit_initialize _set_port m).
Proof. reflexivity. Qed.

Lemma initialize_flags (solver : Model → SolverResults) m :
  let m' := (initialize calculate_scaling_factors unit_initialize _set_port solver m).1 in
  let m0 := before_final_solve calculate_scaling_factors unit_initialize _set_port m in
  fixed m' = fixed m0 ∧ active m' = active m0.
Proof. cbv zeta. rewrite initialize_model. apply flags_load_solution. Qed.

End Initialize.
End FlowsheetFacts.

(** * The property-package initialiser: the statements *)

Module ActivityCoeffTheorems.
Import ActivityCoeff ActivityCoeffFacts Examples.

Lemma result_Ok (r : Res (option Flags * StateBlock * list Event)) :
  is_Ok r = true → r = Ok ((result r).1.1, (result r).1.2, (result r).2).
Proof. by destruct r as [[[? ?] ?]|]. Qed.

Lemma from_Ok_Ok {A} (d : A * list Event) (r : Res (A * list Event)) :
  is_Ok r = true → r = Ok ((from_Ok d r).1, (from_Ok d r).2).
Proof. by destruct r as [[? ?]|]. Qed.

(** C1 (as amended).  For an indexed state block (distinct keys, a component
    list without repetition), [initialize] with [hold_state=True] and
    [state_vars_fixed=False] followed by [release_state] with the returned
    flags succeeds, and in every data object: each variable has the [fixed]
    flag it had before [initialize], except [activity_coeff_comp] of a
    non-ideal data object, which is left unfixed whatever it was before; and
    [release_state] changes the flag of exactly the state variables
    ([flow_mol], [mole_frac], [pressure], [temperature]) that were not fixed
    before [initialize], that is, those [initialize] itself fixed. *)
Theorem release_state_round_trip (degrees_of_freedom : BlockData → Z)
    (solver : nat → StateBlock → SolverResults) blk fm mf T P outlvl outlvl' r blk1 tr :
  NoDup blk.*1 →
  Forall (λ kb, NoDup (component_list (params kb.2))) blk →
  initialize degrees_of_freedom solver blk fm mf T P true false outlvl = Ok (r, blk1, tr) →
  ∃ blk2 tr', release_state blk1 r outlvl' = Ok (blk2, tr') ∧
    length blk2 = length blk ∧
    ∀ p k b, blk !! p = Some (k, b) →
      ∃ b1 b2, blk1 !! p = Some (k, b1) ∧ blk2 !! p = Some (k, b2) ∧
        (∀ n i, fixed <$> lookup_var b2 n i =
           (λ d, if not_ideal b && bool_decide (n = "activity_coeff_comp") then false
                 else fixed d) <$> lookup_var b n i) ∧
        (∀ n i, fixed <$> lookup_var b2 n i ≠ fixed <$> lookup_var b1 n i ↔
           (n, i) ∈ state_vars (component_list (params b)) ∧
           fixed <$> lookup_var b n i = Some false).
Proof. apply roundtrip_general. Qed.

Lemma release_state_round_trip_witness :
  ∃ blk2 tr', release_state (result vle_run).1.2 (result vle_run).1.1 0 = Ok (blk2, tr') ∧
              length blk2 = length vle_block.
Proof.
  destruct (release_state_round_trip square (reports optimal) vle_block
              None None None None 1 0 (result vle_run).1.1 (result vle_run).1.2 (result vle_run).2)
    as (blk2 & tr' & H1 & H2 & _).
  - repeat constructor. apply not_elem_of_nil.
  - constructor; [|constructor]. vm_compute. repeat constructor; set_solver.
  - apply result_Ok. vm_compute. reflexivity.
  - exists blk2, tr'. split; [exact H1|exact H2].
Defined.

(** C1, as the claim words it, fails: an activity coefficient the caller
    had fixed before [initialize] is unfixed after the round trip. *)
Lemma fixed_activity_coefficient_not_restored :
  ∃ r blk1 tr blk2 tr',
    vle_run_fixed_coefficient = Ok (r, blk1, tr) ∧
    release_state blk1 r 0 = Ok (blk2, tr') ∧
    (λ kb, fixed <$> lookup_var kb.2 "activity_coeff_comp" ["benzene"])
      <$> vle_block_fixed_coefficient = [Some true] ∧
    (λ kb, fixed <$> lookup_var kb.2 "activity_coeff_comp" ["benzene"])
      <$> blk2 = [Some false].
Proof.
  exists (result vle_run_fixed_coefficient).1.1, (result vle_run_fixed_coefficient).1.2,
    (result vle_run_fixed_coefficient).2,
    (from_Ok ([], []) vle_release_fixed_coefficient).1,
    (from_Ok ([], []) vle_release_fixed_coefficient).2.
  split_and!.
  - apply result_Ok. vm_compute. reflexivity.
  - apply from_Ok_Ok. vm_compute. reflexivity.
  - vm_compute. reflexivity.
  - vm_compute. reflexivity.
Qed.


(** C4.  When [initialize] returns, the first solve (the phase-equilibrium
    sub-system) has run exactly when the data object at the last key is
    two-phase ([has_phase_equilibrium] set, or [valid_phase] a vapour-liquid
    pair); otherwise the solver is first called for the mass-balance solve:
    the solves that ran are 1 to 5, respectively 2 to 5, in this order. *)
Theorem first_solve_iff_two_phase (degrees_of_freedom : BlockData → Z)
    (solver : nat → StateBlock → SolverResults) blk fm mf T P hold svf outlvl r blk1 tr :
  initialize degrees_of_freedom solver blk fm mf T P hold svf outlvl = Ok (r, blk1, tr) →
  ∃ kb, last blk = Some kb ∧
    (is_Some (snapshot 1 tr) ↔
       two_phase (has_phase_equilibrium kb.2) (params kb.2) = true) ∧
    solve_steps tr =
      if two_phase (has_phase_equilibrium kb.2) (params kb.2)
      then [1; 2; 3; 4; 5] else [2; 3; 4; 5].
Proof. apply first_solve_general. Qed.

Lemma first_solve_iff_two_phase_witness :
  (∃ kb, last vle_block = Some kb ∧ solve_steps (result vle_run).2 =
      if two_phase (has_phase_equilibrium kb.2) (params kb.2)
      then [1; 2; 3; 4; 5] else [2; 3; 4; 5]) ∧
  (∃ kb, last vapour_block = Some kb ∧ solve_steps (result vapour_run).2 =
      if two_phase (has_phase_equilibrium kb.2) (params kb.2)
      then [1; 2; 3; 4; 5] else [2; 3; 4; 5]).
Proof.
  split.
  - destruct (first_solve_iff_two_phase square (reports optimal) vle_block
                None None None None true false 1
                (result vle_run).1.1 (result vle_run).1.2 (result vle_run).2)
      as (kb & H1 & _ & H2).
    + apply result_Ok. vm_compute. reflexivity.
    + exists kb. split; [exact H1|exact H2].
  - destruct (first_solve_iff_two_phase square (reports (other_condition "infeasible"))
                vapour_block None None None None true false 1
                (result vapour_run).1.1 (result vapour_run).1.2 (result vapour_run).2)
      as (kb & H1 & _ & H2).
    + apply result_Ok. vm_compute. reflexivity.
    + exists kb. split; [exact H1|exact H2].
Defined.

(** C5 (as amended).  When [initialize] returns, then in every data object:
    for a non-ideal model [activity_coeff_comp] exists and
    - at the second solve it is fixed at 1 and [eq_activity_coeff],
      [eq_Gij_coeff], [eq_A], [eq_B] are inactive;
    - at the third solve [eq_Gij_coeff], [eq_A], [eq_B] are active again,
      while the coefficient is still fixed at 1 and [eq_activity_coeff] is
      still inactive;
    - at the fourth solve [eq_activity_coeff] is active as well and the
      coefficient is unfixed;
    for the Ideal model the coefficient's flag is never written and the four
    constraints are never switched on. *)
Theorem activity_coefficient_staging (degrees_of_freedom : BlockData → Z)
    (solver : nat → StateBlock → SolverResults) blk fm mf T P hold svf outlvl r blk1 tr :
  initialize degrees_of_freedom solver blk fm mf T P hold svf outlvl = Ok (r, blk1, tr) →
  ∃ S2 S3 S4,
    snapshot 2 tr = Some S2 ∧ snapshot 3 tr = Some S3 ∧ snapshot 4 tr = Some S4 ∧
    ∀ p k b, blk !! p = Some (k, b) →
      ∃ s2 s3 s4,
        S2 !! p = Some (k, s2) ∧ S3 !! p = Some (k, s3) ∧ S4 !! p = Some (k, s4) ∧
        if not_ideal b
        then is_Some (var_objects b !! "activity_coeff_comp") ∧ staged_non_ideal s2 s3 s4
        else staged_ideal b s2 ∧ staged_ideal b s3 ∧ staged_ideal b s4.
Proof. apply activity_steps_general. Qed.

Lemma activity_coefficient_staging_witness :
  ∃ S2 S3 S4, snapshot 2 (result vle_run).2 = Some S2 ∧
              snapshot 3 (result vle_run).2 = Some S3 ∧
              snapshot 4 (result vle_run).2 = Some S4.
Proof.
  destruct (activity_coefficient_staging square (reports optimal) vle_block
              None None None None true false 1
              (result vle_run).1.1 (result vle_run).1.2 (result vle_run).2)
    as (S2 & S3 & S4 & H2 & H3 & H4 & _).
  - apply result_Ok. vm_compute. reflexivity.
  - exists S2, S3, S4. split; [exact H2|]. split; [exact H3|exact H4].
Defined.

(** C5, as the claim words it, fails: the solve that follows the
    mass-balance solve (the third) runs with [eq_Gij_coeff] active again but
    [eq_activity_coeff] still inactive and the coefficient still fixed. *)
Lemma third_solve_keeps_coefficient_fixed :
  ∃ r blk1 tr,
    vle_run = Ok (r, blk1, tr) ∧
    fmap (M := list)
      (λ kb, (lookup_con kb.2 "eq_Gij_coeff" ["benzene"; "toluene"],
              lookup_con kb.2 "eq_activity_coeff" ["benzene"],
              lookup_var kb.2 "activity_coeff_comp" ["benzene"]))
      <$> snapshot 3 tr
    = Some [(Some true, Some false, Some (mkVar (Some 1%Q) true))].
Proof.
  exists (result vle_run).1.1, (result vle_run).1.2, (result vle_run).2. split.
  - apply result_Ok. vm_compute. reflexivity.
  - vm_compute. reflexivity.
Qed.


(** C7 (the failing input).  A one-element state block whose data object is
    single-phase, has a non-ideal activity model and therefore, as [build]
    leaves it, no [activity_coeff_comp], and whose degrees of freedom are
    zero: [initialize] with [state_vars_fixed=True] passes the
    degrees-of-freedom check and then stops with an [AttributeError] before
    any solve, at [blk[k].activity_coeff_comp.fix(1)]. *)
Theorem single_phase_non_ideal_initialize_fails (degrees_of_freedom : BlockData → Z)
    (solver : nat → StateBlock → SolverResults) k b hold outlvl :
  defined_state b = true →
  degrees_of_freedom b = 0%Z →
  two_phase (has_phase_equilibrium b) (params b) = false →
  activity_coeff_model (params b) ≠ Ideal →
  var_objects b !! "activity_coeff_comp" = None →
  initialize degrees_of_freedom solver [(k, b)] None None None None hold true outlvl
  = Raise (AttributeError "activity_coeff_comp").
Proof.
  intros Hdef Hdof Htwo Hni Hnone.
  unfold initialize. cbn [for_each]. unfold outlet_constraint at 1. rewrite Hdef.
  cbn [mbind Res_bind check_dof]. rewrite decide_False by (intros H; by apply H).
  cbn [mbind Res_bind]. unfold solve_sequence.
  cbn [for_each_pure fmap list_fmap prod_map id fst snd last from_option mbind Res_bind].
  change (has_phase_equilibrium (set_active_in deactivated_for_first_solve false b))
    with (has_phase_equilibrium b).
  change (params (set_active_in deactivated_for_first_solve false b)) with (params b).
  rewrite Htwo. cbn [fst snd for_each]. unfold activate_balances at 1. cbv zeta.
  unfold not_ideal. 
  change (params (set_active_in balance_constraints true
            (set_active_in deactivated_for_first_solve false b))) with (params b).
  rewrite bool_decide_eq_true_2 by done. unfold fix_all.
  change (var_objects (set_active_in balance_constraints true
            (set_active_in deactivated_for_first_solve false b))) with (var_objects b).
  rewrite Hnone. reflexivity.
Qed.

Lemma single_phase_non_ideal_initialize_fails_witness :
  initialize square (reports optimal) liquid_block None None None None false true 0
  = Raise (AttributeError "activity_coeff_comp").
Proof.
  apply (single_phase_non_ideal_initialize_fails square (reports optimal) 0%nat
           (fix_state_vars (built (benzene_toluene NRTL Liq) true false)) false 0%Z).
  - vm_compute. reflexivity.
  - reflexivity.
  - vm_compute. reflexivity.
  - vm_compute. discriminate.
  - vm_compute. reflexivity.
Defined.

Lemma build_Ok (p : ParameterBlock) (defined has_pe : bool) :
  is_Ok (build p defined has_pe) = true →
  build p defined has_pe = Ok (built p defined has_pe).
Proof. unfold built. by destruct (build p defined has_pe). Qed.

(** C9 (as amended).  A data object built with the NRTL or Wilson model
    and two-phase ([has_phase_equilibrium] set, or [valid_phase] a
    vapour-liquid pair) has, for every component [i], [Gij_coeff[i,i]] equal
    to 1 and fixed and no [eq_Gij_coeff[i,i]]; and when every data object of
    a state block is so, then so is every data object at each solve of
    [initialize] and when [initialize] returns. *)
Theorem Gij_diagonal_fixed_at_one :
  (∀ p defined has_pe b,
     build p defined has_pe = Ok b →
     activity_coeff_model p ≠ Ideal → two_phase has_pe p = true →
     Gij_diagonal_ok b) ∧
  (∀ (degrees_of_freedom : BlockData → Z) (solver : nat → StateBlock → SolverResults)
     blk fm mf T P hold svf outlvl r blk1 tr,
     initialize degrees_of_freedom solver blk fm mf T P hold svf outlvl = Ok (r, blk1, tr) →
     Forall (λ kb, Gij_diagonal_ok kb.2) blk →
     Forall (λ kb, Gij_diagonal_ok kb.2) blk1 ∧
     ∀ n S, snapshot n tr = Some S → Forall (λ kb, Gij_diagonal_ok kb.2) S).
Proof.
  split.
  - apply build_Gij_diagonal.
  - intros dof solver. apply Gij_diagonal_preserved.
Qed.

Lemma Gij_diagonal_fixed_at_one_witness :
  Gij_diagonal_ok (built (benzene_toluene NRTL Vap_Liq) true true) ∧
  Forall (λ kb, Gij_diagonal_ok kb.2) (result vle_run).1.2.
Proof.
  destruct Gij_diagonal_fixed_at_one as [A B].
  assert (Gij_diagonal_ok (built (benzene_toluene NRTL Vap_Liq) true true)) as H.
  { apply (A (benzene_toluene NRTL Vap_Liq) true true).
    - apply build_Ok. vm_compute. reflexivity.
    - discriminate.
    - reflexivity. }
  split; [exact H|].
  destruct (B square (reports optimal) vle_block None None None None true false 1%Z
              (result vle_run).1.1 (result vle_run).1.2 (result vle_run).2) as [HB _].
  - apply result_Ok. vm_compute. reflexivity.
  - constructor; [exact H|constructor].
  - exact HB.
Defined.

(** C9, as the claim words it, fails: a liquid-only block built with the
    NRTL model has no [Gij_coeff] at all. *)
Lemma liquid_only_block_has_no_Gij :
  build (benzene_toluene NRTL Liq) true false
    = Ok (built (benzene_toluene NRTL Liq) true false) ∧
  lookup_var (built (benzene_toluene NRTL Liq) true false)
    "Gij_coeff" ["benzene"; "benzene"] = None.
Proof.
  split.
  - apply build_Ok. vm_compute. reflexivity.
  - vm_compute. reflexivity.
Qed.

End ActivityCoeffTheorems.

(** * The flowsheet: the statements *)

Module FlowsheetTheorems.
Import Flowsheet FlowsheetFacts.

Lemma path_eqb_eq (p q : Path) : path_eqb p q = true ↔ p = q.
Proof.
  revert q. induction p as [|a p IH]; intros [|b q]; simpl; try done.
  rewrite andb_true_iff, IH, String.eqb_eq. split; [by intros [-> ->]|by intros [= -> ->]].
Qed.

Lemma is_decoupled_spec (c : Path) : is_decoupled c = true ↔ c ∈ decoupled_constraints.
Proof.
  unfold is_decoupled. rewrite existsb_exists. split.
  - intros (p & Hp%list_elem_of_In & <-%path_eqb_eq). done.
  - intros Hc. exists c. split; [by apply list_elem_of_In|by apply path_eqb_eq].
Qed.

(** C2 (as amended).  Whatever the unit initialisers do: the decoupling
    block of the staged initialiser fixes exactly the eight assumed split
    fractions and deactivates exactly [constraint_out_pressure] and the
    seven [fwhN_vaporfrac_constraint]s (the saturated-liquid constraints);
    the last block before the final solve reactivates exactly those eight
    constraints and unfixes exactly those eight split fractions.  The
    power-balance constraint [constraint_bfp_power] is not among them. *)
Theorem decoupling_is_undone (calculate_scaling_factors : Model → Model)
    (unit_initialize : string → Model → Model) (_set_port : Path → Path → Model → Model)
    (m : Model) :
  (∀ c i, active (decoupled calculate_scaling_factors unit_initialize m) c i =
          if is_decoupled c then false
          else active (initialize_boiler unit_initialize (calculate_scaling_factors m)) c i) ∧
  (∀ v i, fixed (decoupled calculate_scaling_factors unit_initialize m) v i =
          if is_assumed v i then true
          else fixed (initialize_boiler unit_initialize (calculate_scaling_factors m)) v i) ∧
  (∀ c i, active (before_final_solve calculate_scaling_factors unit_initialize _set_port m) c i =
          if is_decoupled c then true
          else active (initialize_units unit_initialize _set_port
                         (decoupled calculate_scaling_factors unit_initialize m)) c i) ∧
  (∀ v i, fixed (before_final_solve calculate_scaling_factors unit_initialize _set_port m) v i =
          if is_assumed v i then false
          else fixed (initialize_units unit_initialize _set_port
                        (decoupled calculate_scaling_factors unit_initialize m)) v i) ∧
  (∀ c, is_decoupled c = true ↔ c ∈ decoupled_constraints) ∧
  is_decoupled ["constraint_bfp_power"] = false ∧
  is_decoupled ["constraint_out_pressure"] = true.
Proof.
  split_and!.
  - intros c i. unfold decoupled.
    by rewrite active_deactivate_constraints, active_fix_split_fractions.
  - intros v i. unfold decoupled. rewrite fixed_deactivate_constraints.
    apply fixed_fix_split_fractions.
  - intros c i.
    by rewrite before_final_solve_eq, active_activate_constraints,
      active_unfix_split_fractions.
  - intros v i. rewrite before_final_solve_eq, fixed_activate_constraints.
    apply fixed_unfix_split_fractions.
  - apply is_decoupled_spec.
  - reflexivity.
  - reflexivity.
Qed.

(** C2, as the claim words it, fails: on a freshly declared model the
    decoupling block leaves the power-balance constraint active (and
    switches [constraint_out_pressure] off instead). *)
Lemma power_balance_stays_active :
  active (decoupled (λ m, m) (λ _ m, m) declared) ["constraint_bfp_power"] [time 0] = true ∧
  active (decoupled (λ m, m) (λ _ m, m) declared) ["constraint_out_pressure"] [time 0] = false.
Proof. split; reflexivity. Qed.

(** C10.  [set_model_input] fixes the make-up stream's pressure and molar
    enthalpy and leaves the [fixed] flag of its molar flow as it was (so on
    a freshly declared model the flow stays free), but the initial value it
    means to give the molar flow never reaches the variable: the assignment
    of line 719 binds the attribute [value] of the indexed port member, and
    every data object of [makeup.flow_mol] keeps the value it had before the
    call (none, on a freshly declared model). *)
Theorem set_model_input_makeup (m : Model) (i : Idx) :
  fixed (set_model_input m) ["condenser_mix"; "makeup"; "flow_mol"] i
    = fixed m ["condenser_mix"; "makeup"; "flow_mol"] i ∧
  fixed (set_model_input declared) ["condenser_mix"; "makeup"; "flow_mol"] i = false ∧
  value (set_model_input m) ["condenser_mix"; "makeup"; "flow_mol"] i
    = value m ["condenser_mix"; "makeup"; "flow_mol"] i ∧
  value (set_model_input declared) ["condenser_mix"; "makeup"; "flow_mol"] i = None ∧
  attribute (set_model_input m) ["condenser_mix"; "makeup"; "flow_mol"] "value"
    = Some (1.08002495835536e-12)%Q ∧
  fixed (set_model_input m) ["condenser_mix"; "makeup"; "pressure"] i = true ∧
  value (set_model_input m) ["condenser_mix"; "makeup"; "pressure"] i = Some 103421.4%Q ∧
  fixed (set_model_input m) ["condenser_mix"; "makeup"; "enth_mol"] i = true ∧
  value (set_model_input m) ["condenser_mix"; "makeup"; "enth_mol"] i = Some 1131.69204%Q.
Proof. split_and!; reflexivity. Qed.

End FlowsheetTheorems.

(** * The pynumero smoke test: the statements *)

Module PynumeroTheorems.
Import Pynumero.

(** C8 (as amended).  For the smoke-test NLP as the source builds it
    (constraints [x3^2 + x1 = 25] and [x2^2 + x1 <= 18], objective
    [x1^4 - 3 x1 x2^3 + x3^2 - 8], every variable initialised to 4) the
    objective is exactly -504 and the constraint Jacobian, with the columns
    in the order (x2, x3, x1), has the rows (0, 8, 1) and (8, 0, 1); among
    all orders of rows and columns the assertions of the test hold for this
    one and for its mirror image (rows exchanged, columns (x3, x2, x1))
    only. *)
Theorem smoke_test_values :
  (∀ rows cols, evaluate_objective (mkNLP model rows cols) = (-504)%Q) ∧
  evaluate_jacobian (mkNLP model [0; 1] [2; 3; 1]) = [[0; 8; 1]; [8; 0; 1]]%Q ∧
  filter (λ o, test_have_pynumero (mkNLP model o.1 o.2) = true) orderings
    = [([0; 1], [2; 3; 1]); ([1; 0], [3; 2; 1])].
Proof. split_and!; [intros rows cols|..]; vm_compute; reflexivity. Qed.

(** C8, as the claim words it, fails: with the first constraint
    [x1^2 + x3^2 = 25] its Jacobian row is (8, 0, 8) in the order
    (x1, x2, x3), and no order of rows and columns satisfies the test. *)
Lemma sum_of_squares_constraint_fails_test :
  evaluate_jacobian (mkNLP model_squares [0; 1] [1; 2; 3]) = [[8; 0; 8]; [1; 8; 0]]%Q ∧
  filter (λ o, test_have_pynumero (mkNLP model_squares o.1 o.2) = true) orderings = [].
Proof. split; vm_compute; reflexivity. Qed.

End PynumeroTheorems.

(** * Both initialisers: solver failures are soft *)

Module InitializerTheorems.
Import Examples.




End InitializerTheorems.

(** * The property-package initialiser: further lemmas *)

Module ActivityCoeffMore.
Import ActivityCoeff ActivityCoeffFacts Examples.

Section Modes.
Context (degrees_of_freedom : BlockData → Z).
Context (solver : nat → StateBlock → SolverResults).

(** A run that releases the state is a run that holds it, followed by
    [release_state]. *)
Lemma initialize_release_split blk fm mf T P outlvl r blk2 tr :
  initialize degrees_of_freedom solver blk fm mf T P false false outlvl = Ok (r, blk2, tr) →
  r = None ∧
  ∃ fl blk1 tr1 rel,
    initialize degrees_of_freedom solver blk fm mf T P true false outlvl
      = Ok (Some fl, blk1, tr1) ∧
    release_state blk1 (Some fl) 0 = Ok (blk2, rel).
Proof.
  intros H. pose proof H as H'.
  apply initialize_hold_inv in H'
    as (blk0 & blkH & fl & blkF & tr0 & H0 & HH & HS & rel & HR & -> & ->).
  split; [done|]. exists fl, blkF, tr0, rel. split; [|done].
  unfold initialize. rewrite H0. simpl. rewrite HH. simpl. by rewrite HS.
Qed.

Lemma initialize_fixed_flags_other_modes blk fm mf T P hold svf outlvl r blk1 tr :
  NoDup blk.*1 →
  Forall (λ kb, NoDup (component_list (params kb.2))) blk →
  hold = false ∨ svf = true →
  initialize degrees_of_freedom solver blk fm mf T P hold svf outlvl = Ok (r, blk1, tr) →
  r = None ∧ length blk1 = length blk ∧
  ∀ p k b, blk !! p = Some (k, b) →
    ∃ b1, blk1 !! p = Some (k, b1) ∧
      ∀ n i, fixed <$> lookup_var b1 n i =
        (λ d, if not_ideal b && bool_decide (n = "activity_coeff_comp") then false
              else fixed d) <$> lookup_var b n i.
Proof.
  intros Hk Hcl Hmode H. destruct svf.
  - (* the caller fixed the state variables *)
    assert (r = None) as ->.
    { unfold initialize in H.
      apply bind_Ok in H as (? & _ & H). apply bind_Ok in H as ([? ?] & _ & H).
      apply bind_Ok in H as ([? ?] & _ & H). simpl in H. by injection H as <- _ _. }
    apply initialize_inv in H
      as (blkH & blkF & tr0 & HS & _ & _ & LH & PH & ->). simpl in *.
    apply solve_sequence_inv in HS
      as (kbH & S1 & S2 & S3 & S4 & S5 & _ & _ & (_ & _ & _ & _ & _ & LF) & PF).
    split; [done|]. split; [congruence|].
    intros p k b Hp. destruct (PH _ _ _ Hp) as (bH & HpH & g & Tg & _ & _ & Gid).
    destruct (PF _ _ _ HpH) as (s1 & s2 & s3 & s4 & s5 & bF & Hseq & _ & _ & _ & _ & _ & HpF).
    exists bF. split; [done|]. intros n i.
    rewrite (block_sequence_fixed _ _ _ _ _ _ _ _ _ _ _ _ _ n i Hseq).
    unfold not_ideal. rewrite (tf_params _ _ _ _ Tg), (tf_var _ _ _ _ Tg).
    destruct (lookup_var b n i) as [d|]; [|done]. simpl. by rewrite (Gid eq_refl).
  - destruct Hmode as [->|[=]].
    apply initialize_release_split in H as (-> & fl & blkF & tr1 & rel & Hhold & HR).
    destruct (roundtrip_general degrees_of_freedom solver _ _ _ _ _ _ 0%Z _ _ _ Hk Hcl Hhold)
      as (blk2 & tr' & HR' & L2 & P2).
    rewrite HR in HR'. injection HR' as <- <-.
    split; [done|]. split; [done|].
    intros p k b Hp. destruct (P2 _ _ _ Hp) as (b1 & b2 & _ & Hp2 & HF & _). eauto.
Qed.

End Modes.

Section Stages.
Context (degrees_of_freedom : BlockData → Z).
Context (solver : nat → StateBlock → SolverResults).

(** A completed run, seen from one data object: the block as each solve
    received it and as [initialize] returned it. *)
Lemma initialize_stages blk fm mf T P hold svf outlvl r blk1 tr :
  initialize degrees_of_freedom solver blk fm mf T P hold svf outlvl = Ok (r, blk1, tr) →
  ∃ (two : bool) S1 S2 S3 S4 S5,
    snapshot 1 tr = (if two then Some S1 else None) ∧
    snapshot 2 tr = Some S2 ∧ snapshot 3 tr = Some S3 ∧
    snapshot 4 tr = Some S4 ∧ snapshot 5 tr = Some S5 ∧
    length blk1 = length blk ∧
    ∀ p k b, blk !! p = Some (k, b) →
      ∃ bH s1 s2 s3 s4 s5 bF b1 v1 v2 v3 v4 v5,
        prepared svf b bH ∧
        block_sequence two v1 v2 v3 v4 v5 bH = Ok (s1, s2, s3, s4, s5, bF) ∧
        S1 !! p = Some (k, s1) ∧ S2 !! p = Some (k, s2) ∧ S3 !! p = Some (k, s3) ∧
        S4 !! p = Some (k, s4) ∧ S5 !! p = Some (k, s5) ∧
        blk1 !! p = Some (k, b1) ∧
        (if svf || hold then b1 = bF else ∃ fl, release_block fl k bF = Ok b1).
Proof.
  intros (blkH & blkF & tr0 & HS & Hsnap & Hsteps & LH & PH & H1)%initialize_inv.
  apply solve_sequence_inv in HS
    as (kbH & S1 & S2 & S3 & S4 & S5 & Hlast & -> & (_ & _ & _ & _ & _ & LF) & PF).
  destruct (snapshot_sequence_trace solver outlvl
    (two_phase (has_phase_equilibrium kbH.2) (params kbH.2)) S1 S2 S3 S4 S5)
    as (E1 & E2 & E3 & E4 & E5).
  exists (two_phase (has_phase_equilibrium kbH.2) (params kbH.2)), S1, S2, S3, S4, S5.
  rewrite !Hsnap. split_and!; try done.
  { destruct (svf || hold); [congruence|]. destruct H1 as [fl HR].
    rewrite (for_each_length _ _ _ HR). congruence. }
  intros p k b Hp. destruct (PH _ _ _ Hp) as (bH & HpH & Hprep).
  destruct (PF _ _ _ HpH) as (s1 & s2 & s3 & s4 & s5 & bF & Hseq & ? & ? & ? & ? & ? & HpF).
  destruct (svf || hold) eqn:Emode.
  - subst blk1. exists bH, s1, s2, s3, s4, s5, bF, bF. do 5 eexists. by split_and!.
  - destruct H1 as [fl HR].
    destruct (for_each_lookup _ _ _ _ _ _ HR HpF) as (b1 & Hp1 & Hrel).
    exists bH, s1, s2, s3, s4, s5, bF, b1. do 5 eexists. split_and!; try done. eauto.
Qed.

Lemma constraint_active_at_other stage ni defined n a :
  n ∉ named_constraints → constraint_active_at stage ni defined n a = a.
Proof.
  intros Hn. unfold constraint_active_at.
  rewrite !bool_decide_eq_false_2; [done|..];
    intros Hc; apply Hn; unfold named_constraints, deactivated_for_first_solve,
      enthalpy_constraints, interaction_constraints, balance_constraints in *; set_solver.
Qed.

(** The switches of the routine, composed up to a stage. *)
Lemma switches_closed_form stage ni defined (n : string) (i : Index) (a : bool) :
  (1 ≤ stage ≤ 6)%nat →
  (let h0 := switch (negb defined) ["eq_mol_frac_out"] false n i a in
   let h1 := switch true deactivated_for_first_solve false n i h0 in
   let h2 := switch true balance_constraints true n i h1 in
   let h3 := switch ni interaction_constraints true n i h2 in
   let h4 := switch ni ["eq_activity_coeff"] true n i h3 in
   let h5 := switch true enthalpy_constraints true n i h4 in
   let h6 := switch (negb defined) ["eq_mol_frac_out"] true n i h5 in
   nth (stage - 1) [h1; h2; h3; h4; h5; h6] a)
  = constraint_active_at stage ni defined n a.
Proof.
  intros Hst. cbv zeta.
  destruct (decide (n ∈ named_constraints)) as [Hn|Hn].
  - assert (stage ∈ [1; 2; 3; 4; 5; 6]%nat) as Hs.
    { destruct stage as [|[|[|[|[|[|[|?]]]]]]]; try lia; set_solver. }
    unfold named_constraints, deactivated_for_first_solve in Hn.
    repeat (apply elem_of_cons in Hn as [->|Hn]);
      try (by apply elem_of_nil in Hn);
      repeat (apply elem_of_cons in Hs as [->|Hs]);
      try (by apply elem_of_nil in Hs);
      destruct ni, defined; vm_compute; reflexivity.
  - rewrite constraint_active_at_other by done.
    assert (∀ c names act x, Forall (λ y, y ∈ named_constraints) names →
                             switch c names act n i x = x) as Hsw.
    { intros c names act x HF. unfold switch.
      rewrite bool_decide_eq_false_2, andb_false_r; [done|]. intros Hin. apply Hn.
      rewrite Forall_forall in HF. auto. }
    rewrite !Hsw by (unfold named_constraints, deactivated_for_first_solve,
      enthalpy_constraints, interaction_constraints, balance_constraints;
      repeat constructor).
    destruct stage as [|[|[|[|[|[|[|?]]]]]]]; simpl; try done; lia.
Qed.

(** The [active] flag of every constraint of every data object, at each
    solve and on return. *)
Lemma constraint_schedule_general blk fm mf T P hold svf outlvl r blk1 tr :
  initialize degrees_of_freedom solver blk fm mf T P hold svf outlvl = Ok (r, blk1, tr) →
  ∀ p k b, blk !! p = Some (k, b) →
    (∀ stage S, (1 ≤ stage ≤ 5)%nat → snapshot stage tr = Some S →
       ∃ s, S !! p = Some (k, s) ∧
         ∀ c i, lookup_con s c i =
           constraint_active_at stage (not_ideal b) (defined_state b) c <$> lookup_con b c i) ∧
    (∃ b1, blk1 !! p = Some (k, b1) ∧
       ∀ c i, lookup_con b1 c i =
         constraint_active_at 6 (not_ideal b) (defined_state b) c <$> lookup_con b c i).
Proof.
  intros (two & S1 & S2 & S3 & S4 & S5 & E1 & E2 & E3 & E4 & E5 & _ & Hpos)%initialize_stages
    p k b Hp.
  destruct (Hpos _ _ _ Hp) as (bH & s1 & s2 & s3 & s4 & s5 & bF & b1 & v1 & v2 & v3 & v4 & v5
    & Hprep & Hseq & H1 & H2 & H3 & H4 & H5 & Hb1 & Hrel).
  pose proof Hprep as (g & T0 & _).
  destruct (prepared_config _ _ _ Hprep) as (Hpar & _ & Hdef).
  assert (not_ideal bH = not_ideal b) as Hni by (unfold not_ideal; by rewrite Hpar).
  apply block_sequence_spec in Hseq as (T1 & T2 & T3 & T4 & T5 & T6 & _). cbv zeta in *.
  rewrite Hni in *. rewrite Hdef in *.
  assert (∀ c i, lookup_con b1 c i = lookup_con bF c i) as Hfin.
  { destruct (svf || hold); [by subst|]. destruct Hrel as [fl Hrel%release_block_spec].
    intros c i. rewrite (tf_con _ _ _ _ Hrel). by destruct (lookup_con bF c i). }
  assert (∀ stage s, (1 ≤ stage ≤ 6)%nat →
            nth (stage - 1) [s1; s2; s3; s4; s5; bF] b = s →
            ∀ c i, lookup_con s c i =
              constraint_active_at stage (not_ideal b) (defined_state b) c <$> lookup_con b c i)
    as Hall.
  { intros stage s Hst Hs c i.
    pose proof (tf_con _ _ _ _ T0 c i) as C0. pose proof (tf_con _ _ _ _ T1 c i) as C1.
    pose proof (tf_con _ _ _ _ T2 c i) as C2. pose proof (tf_con _ _ _ _ T3 c i) as C3.
    pose proof (tf_con _ _ _ _ T4 c i) as C4. pose proof (tf_con _ _ _ _ T5 c i) as C5.
    pose proof (tf_con _ _ _ _ T6 c i) as C6.
    destruct (lookup_con b c i) as [a|]; simpl in *.
    - rewrite <- (switches_closed_form stage _ _ c i a Hst). cbv zeta.
      rewrite C0 in C1. simpl in C1. rewrite C1 in C2. simpl in C2.
      rewrite C2 in C3. simpl in C3. rewrite C3 in C4. simpl in C4.
      rewrite C4 in C5. simpl in C5. rewrite C5 in C6. simpl in C6.
      destruct stage as [|[|[|[|[|[|[|?]]]]]]]; try lia; simpl in Hs; subst s; done.
    - rewrite C0 in C1. simpl in C1. rewrite C1 in C2. simpl in C2.
      rewrite C2 in C3. simpl in C3. rewrite C3 in C4. simpl in C4.
      rewrite C4 in C5. simpl in C5. rewrite C5 in C6. simpl in C6.
      destruct stage as [|[|[|[|[|[|[|?]]]]]]]; try lia; simpl in Hs; subst s; done. }
  split.
  - intros stage S Hst HS.
    assert (∃ s, S !! p = Some (k, s) ∧ nth (stage - 1) [s1; s2; s3; s4; s5; bF] b = s)
      as (s & HSp & Hs).
    { destruct stage as [|[|[|[|[|[|?]]]]]]; try lia; simpl.
      - rewrite E1 in HS. destruct two; [|done]. injection HS as <-. eauto.
      - rewrite E2 in HS. injection HS as <-. eauto.
      - rewrite E3 in HS. injection HS as <-. eauto.
      - rewrite E4 in HS. injection HS as <-. eauto.
      - rewrite E5 in HS. injection HS as <-. eauto. }
    exists s. split; [done|]. apply (Hall stage s); [lia|done].
  - exists b1. split; [done|]. intros c i. rewrite Hfin. by apply (Hall 6%nat bF); [lia|].
Qed.

End Stages.


Lemma holds_at_nil V b : holds_at V [] b b.
Proof.
  exists keep. split_and!; try done. - apply transforms_refl. - set_solver.
Qed.

Lemma holds_at_app V S1 S2 b1 b2 b3 :
  holds_at V S1 b1 b2 → holds_at V S2 b2 b3 → holds_at V (S1 ++ S2) b1 b3.
Proof.
  intros (g1 & T1 & F1 & O1 & I1) (g2 & T2 & F2 & O2 & I2).
  exists (λ n i d, g2 n i (g1 n i d)). split_and!.
  - eapply transforms_ext; [exact (transforms_trans _ _ _ _ _ _ _ T1 T2)|done|done].
  - intros n i d Hd. by rewrite F1, F2.
  - intros n i d Hn. rewrite O1, O2; set_solver.
  - intros n i d Hn Hd. destruct (decide ((n, i) ∈ S1)) as [Hn1|Hn1].
    + rewrite (I1 _ _ _ Hn1 Hd). by apply F2.
    + rewrite (O1 _ _ _ Hn1). apply I2; [set_solver|done].
Qed.

Lemma holds_at_lookup V S b b' n i :
  holds_at V S b b' →
  lookup_var b' n i =
    (λ d, if bool_decide ((n, i) ∈ S) && negb (fixed d) then mkVar (V n i) true else d)
      <$> lookup_var b n i.
Proof.
  intros (g & T & F & O & I). rewrite (tf_var _ _ _ _ T).
  destruct (lookup_var b n i) as [d|]; [|done]. simpl. f_equal.
  case_bool_decide as Hin; simpl.
  - destruct (fixed d) eqn:E; simpl; [by apply F|by apply I].
  - by apply O.
Qed.

Lemma hold_var_value V name i v b f b' :
  hold_var name i v b = Ok (f, b') →
  (∀ q, v = Ok q → V name i = Some q) →
  holds_at V [(name, i)] b b'.
Proof.
  unfold hold_var. intros (d & Hd%get_var_Ok & H)%bind_Ok HV.
  destruct (fixed d) eqn:Hf.
  - injection H as <- <-.
    exists (λ n j x, if decide (n = name ∧ j = i)
                     then (if fixed x then x else mkVar (V name i) true) else x).
    split_and!.
    + eapply transforms_ext_on; [apply transforms_refl| |done].
      intros n j x Hx. case_decide as E; [|done]. destruct E as [-> ->].
      assert (x = d) as -> by congruence. by rewrite Hf.
    + intros n j x Hx. case_decide; [|done]. by rewrite Hx.
    + intros n j x Hn. rewrite decide_False; [done|]. intros [-> ->]. set_solver.
    + intros n j x [= -> ->]%list_elem_of_singleton Hx.
      rewrite decide_True by done. by rewrite Hx.
  - apply bind_Ok in H as (q & Hq & [= <- <-]).
    exists (λ n j x, if decide (n = name ∧ j = i)
                     then (if fixed x then x else mkVar (V name i) true) else x).
    split_and!.
    + eapply transforms_ext_on; [apply transforms_map_vars| |done].
      intros n j x Hx. simpl. case_decide as E; [|done]. destruct E as [-> ->].
      assert (x = d) as -> by congruence. rewrite Hf, (HV _ Hq). done.
    + intros n j x Hx. case_decide; [|done]. by rewrite Hx.
    + intros n j x Hn. rewrite decide_False; [done|]. intros [-> ->]. set_solver.
    + intros n j x [= -> ->]%list_elem_of_singleton Hx.
      rewrite decide_True by done. by rewrite Hx.
Qed.

Lemma hold_mole_frac_value V mf cl k js X b X' b' :
  hold_mole_frac mf cl k js X b = Ok (X', b') →
  (∀ j q, mole_frac_value mf cl j = Ok q → V "mole_frac" [j] = Some q) →
  holds_at V (mole_fracs js) b b'.
Proof.
  intros H HV. revert X b H. induction js as [|j js IH]; intros X b H; simpl in H.
  - injection H as <- <-. apply holds_at_nil.
  - apply bind_Ok in H as ([f b1] & H1 & H).
    apply (hold_var_value V) in H1; [|by apply HV].
    apply IH in H. exact (holds_at_app _ _ _ _ _ _ H1 H).
Qed.

Lemma hold_block_value fm mf T P k b fl fl' b' :
  hold_block fm mf T P k b fl = Ok (fl', b') →
  holds_at (held_value fm mf T P (component_list (params b)))
    (state_vars (component_list (params b))) b b'.
Proof.
  unfold hold_block. intros H.
  apply bind_Ok in H as ([f b1] & H1 & H).
  apply bind_Ok in H as ([X b2] & H2 & H).
  apply bind_Ok in H as ([p b3] & H3 & H).
  apply bind_Ok in H as ([t b4] & H4 & [= <- <-]).
  set (V := held_value fm mf T P (component_list (params b))).
  apply (hold_var_value V) in H1; [|by intros q [= <-]].
  apply (hold_mole_frac_value V) in H2.
  2:{ intros j q. unfold mole_frac_value, V, held_value. simpl.
      destruct mf as [m|]; [|by intros [= <-]]. by destruct (m !! j); intros [= <-]. }
  apply (hold_var_value V) in H3; [|by intros q [= <-]].
  apply (hold_var_value V) in H4; [|by intros q [= <-]].
  pose proof (holds_at_app _ _ _ _ _ _
    (holds_at_app _ _ _ _ _ _ (holds_at_app _ _ _ _ _ _ H1 H2) H3) H4) as HH.
  unfold state_vars. simpl in HH. by rewrite <- !app_assoc in HH.
Qed.

Lemma hold_state_vars_value fm mf T P (blk : StateBlock) fl fl' blk' :
  hold_state_vars fm mf T P blk fl = Ok (fl', blk') →
  ∀ p k b, blk !! p = Some (k, b) →
    ∃ b', blk' !! p = Some (k, b') ∧
          holds_at (held_value fm mf T P (component_list (params b)))
            (state_vars (component_list (params b))) b b'.
Proof.
  revert fl fl' blk'. induction blk as [|[k0 b0] blk IH]; intros fl fl' blk' H; [done|].
  simpl in H. apply bind_Ok in H as ([fl1 b1] & H1 & H).
  apply bind_Ok in H as ([fl2 rest] & H2 & [= <- <-]).
  intros [|p] k b Hp; simpl in *.
  - injection Hp as <- <-. exists b1. split; [done|]. by eapply hold_block_value.
  - by eapply IH.
Qed.


(** What the solves and the release leave of a variable that is fixed, or
    is not touched by them. *)
Lemma loaded_fixed v n i d : fixed d = true → loaded v n i d = d.
Proof. apply load_value_fixed. Qed.

Lemma value_released fl k S n i d : value (released fl k S n i d) = value d.
Proof. unfold released. by destruct (_ && _). Qed.

Section Values.
Context (degrees_of_freedom : BlockData → Z).
Context (solver : nat → StateBlock → SolverResults).

(** A completed run with [state_vars_fixed=False], seen from one data
    object, with the values the state variables were fixed at. *)
Lemma initialize_stages_hold blk fm mf T P hold outlvl r blk1 tr :
  initialize degrees_of_freedom solver blk fm mf T P hold false outlvl = Ok (r, blk1, tr) →
  ∃ (two : bool) S1 S2 S3 S4 S5,
    snapshot 1 tr = (if two then Some S1 else None) ∧
    snapshot 2 tr = Some S2 ∧ snapshot 3 tr = Some S3 ∧
    snapshot 4 tr = Some S4 ∧ snapshot 5 tr = Some S5 ∧
    ∀ p k b, blk !! p = Some (k, b) →
      ∃ b0 bH s1 s2 s3 s4 s5 bF b1 v1 v2 v3 v4 v5,
        transforms keep (switch (negb (defined_state b)) ["eq_mol_frac_out"] false) b b0 ∧
        holds_at (held_value fm mf T P (component_list (params b)))
          (state_vars (component_list (params b))) b0 bH ∧
        block_sequence two v1 v2 v3 v4 v5 bH = Ok (s1, s2, s3, s4, s5, bF) ∧
        S1 !! p = Some (k, s1) ∧ S2 !! p = Some (k, s2) ∧ S3 !! p = Some (k, s3) ∧
        S4 !! p = Some (k, s4) ∧ S5 !! p = Some (k, s5) ∧
        blk1 !! p = Some (k, b1) ∧
        (if hold then b1 = bF else ∃ fl, release_block fl k bF = Ok b1).
Proof.
  intros (blk0 & blkH & fl & blkF & tr0 & H0 & HH & HS & H1)%initialize_hold_inv.
  apply solve_sequence_inv in HS
    as (kbH & S1 & S2 & S3 & S4 & S5 & Hlast & -> & _ & PF).
  destruct (snapshot_sequence_trace solver outlvl
    (two_phase (has_phase_equilibrium kbH.2) (params kbH.2)) S1 S2 S3 S4 S5)
    as (E1 & E2 & E3 & E4 & E5).
  exists (two_phase (has_phase_equilibrium kbH.2) (params kbH.2)), S1, S2, S3, S4, S5.
  assert (∀ n, snapshot n tr =
               snapshot n (sequence_trace solver outlvl
                 (two_phase (has_phase_equilibrium kbH.2) (params kbH.2)) S1 S2 S3 S4 S5))
    as Hsnap.
  { intros n. destruct hold.
    - by destruct H1 as (_ & _ & ->).
    - destruct H1 as (rel & HR & _ & ->). simpl in HR.
      apply bind_Ok in HR as (blk2 & _ & [= _ <-]). rewrite app_nil_l.
      apply snapshot_app_logs. by destruct (0 <? outlvl)%Z. }
  rewrite !Hsnap. split_and!; try done.
  intros p k b Hp.
  destruct (for_each_lookup _ _ _ _ _ _ H0 Hp) as (b0 & Hp0 & [T0 _]%outlet_constraint_spec).
  destruct (hold_state_vars_value _ _ _ _ _ _ _ _ HH _ _ _ Hp0) as (bH & HpH & Hval).
  rewrite (tf_params _ _ _ _ T0) in Hval.
  destruct (PF _ _ _ HpH) as (s1 & s2 & s3 & s4 & s5 & bF & Hseq & ? & ? & ? & ? & ? & HpF).
  destruct hold.
  - destruct H1 as (_ & -> & _).
    exists b0, bH, s1, s2, s3, s4, s5, bF, bF. do 5 eexists. by split_and!.
  - destruct H1 as (rel & HR & _ & _). simpl in HR.
    apply bind_Ok in HR as (blk2 & HR & [= <- _]).
    destruct (for_each_lookup _ _ _ _ _ _ HR HpF) as (b1 & Hp1 & Hrel).
    exists b0, bH, s1, s2, s3, s4, s5, bF, b1. do 5 eexists. split_and!; try done. eauto.
Qed.

(** A variable fixed when the first solve receives the block is the same
    at every later solve and after the last one, the activity coefficient
    of a non-ideal data object apart. *)
Lemma block_sequence_fixed_var two v1 v2 v3 v4 v5 b s1 s2 s3 s4 s5 bF n i d :
  block_sequence two v1 v2 v3 v4 v5 b = Ok (s1, s2, s3, s4, s5, bF) →
  not_ideal b && bool_decide (n = "activity_coeff_comp") = false →
  lookup_var b n i = Some d → fixed d = true →
  lookup_var s1 n i = Some d ∧ lookup_var s2 n i = Some d ∧ lookup_var s3 n i = Some d ∧
  lookup_var s4 n i = Some d ∧ lookup_var s5 n i = Some d ∧ lookup_var bF n i = Some d.
Proof.
  intros (T1 & T2 & T3 & T4 & T5 & TF & _)%block_sequence_spec Hn Hd Hf.
  cbv zeta in *.
  assert (lookup_var s1 n i = Some d) as L1.
  { rewrite (tf_var _ _ _ _ T1), Hd. done. }
  assert (lookup_var s2 n i = Some d) as L2.
  { rewrite (tf_var _ _ _ _ T2), L1. simpl. unfold assume_ideal. rewrite Hn.
    destruct two; [by rewrite loaded_fixed|done]. }
  assert (lookup_var s3 n i = Some d) as L3.
  { rewrite (tf_var _ _ _ _ T3), L2. simpl. by rewrite loaded_fixed. }
  assert (lookup_var s4 n i = Some d) as L4.
  { rewrite (tf_var _ _ _ _ T4), L3. simpl. unfold free_activity. rewrite Hn.
    by rewrite loaded_fixed. }
  assert (lookup_var s5 n i = Some d) as L5.
  { rewrite (tf_var _ _ _ _ T5), L4. simpl. by rewrite loaded_fixed. }
  split_and!; try done.
  rewrite (tf_var _ _ _ _ TF), L5. simpl. by rewrite loaded_fixed.
Qed.

Lemma snapshot_stage (two : bool) (S1 S2 S3 S4 S5 : StateBlock) tr p k s1 s2 s3 s4 s5 stage S :
  snapshot 1 tr = (if two then Some S1 else None) →
  snapshot 2 tr = Some S2 → snapshot 3 tr = Some S3 →
  snapshot 4 tr = Some S4 → snapshot 5 tr = Some S5 →
  S1 !! p = Some (k, s1) → S2 !! p = Some (k, s2) → S3 !! p = Some (k, s3) →
  S4 !! p = Some (k, s4) → S5 !! p = Some (k, s5) →
  (1 ≤ stage ≤ 5)%nat → snapshot stage tr = Some S →
  ∃ s, S !! p = Some (k, s) ∧ s ∈ [s1; s2; s3; s4; s5].
Proof.
  intros E1 E2 E3 E4 E5 H1 H2 H3 H4 H5 Hst HS.
  destruct stage as [|[|[|[|[|[|?]]]]]]; try lia.
  - rewrite E1 in HS. destruct two; [|done]. injection HS as <-. exists s1. split; [done|]. repeat constructor.
  - rewrite E2 in HS. injection HS as <-. exists s2. split; [done|]. repeat constructor.
  - rewrite E3 in HS. injection HS as <-. exists s3. split; [done|]. repeat constructor.
  - rewrite E4 in HS. injection HS as <-. exists s4. split; [done|]. repeat constructor.
  - rewrite E5 in HS. injection HS as <-. exists s5. split; [done|]. repeat constructor.
Qed.

(** With [state_vars_fixed=False]: every state variable the caller left
    free is fixed at the value given for it, or at the default of the
    routine, when each solve receives the block; on return it is still
    fixed there when the state is held, and has that value and is free
    again when it is released.  A state variable the caller had fixed keeps
    its value and stays fixed throughout. *)
Lemma state_variables_held_general blk fm mf T P hold outlvl r blk1 tr :
  NoDup blk.*1 → Forall (λ kb, NoDup (component_list (params kb.2))) blk →
  initialize degrees_of_freedom solver blk fm mf T P hold false outlvl = Ok (r, blk1, tr) →
  ∀ p k b n i, blk !! p = Some (k, b) →
    (n, i) ∈ state_vars (component_list (params b)) →
    let held d := if fixed d then d
                  else mkVar (held_value fm mf T P (component_list (params b)) n i) true in
    (∀ stage S, (1 ≤ stage ≤ 5)%nat → snapshot stage tr = Some S →
       ∃ s, S !! p = Some (k, s) ∧ lookup_var s n i = held <$> lookup_var b n i) ∧
    (∃ b1, blk1 !! p = Some (k, b1) ∧
       lookup_var b1 n i =
         (λ d, if hold then held d else mkVar (value (held d)) (fixed d)) <$> lookup_var b n i).
Proof.
  intros ND NC Hrun p k b n i Hp Hin held.
  pose proof Hrun as (two & S1 & S2 & S3 & S4 & S5 & E1 & E2 & E3 & E4 & E5 & Hpos)
    %initialize_stages_hold.
  destruct (Hpos _ _ _ Hp) as (b0 & bH & s1 & s2 & s3 & s4 & s5 & bF & b1 & v1 & v2 & v3 & v4
    & v5 & T0 & Hval & Hseq & H1 & H2 & H3 & H4 & H5 & Hb1 & Hrel).
  pose proof (state_var_not_activity _ _ _ Hin) as Hna.
  assert (lookup_var bH n i = held <$> lookup_var b n i) as LH.
  { rewrite (holds_at_lookup _ _ _ _ _ _ Hval), (tf_var _ _ _ _ T0).
    destruct (lookup_var b n i) as [d|]; [|done]. simpl. f_equal. unfold keep, held.
    rewrite bool_decide_eq_true_2 by done. by destruct (fixed d). }
  destruct (lookup_var b n i) as [d|] eqn:Hd; simpl in *.
  - assert (fixed (held d) = true) as Hf.
    { unfold held. by destruct (fixed d) eqn:E. }
    destruct (block_sequence_fixed_var _ _ _ _ _ _ _ _ _ _ _ _ _ n i (held d) Hseq)
      as (L1 & L2 & L3 & L4 & L5 & LF); try done.
    { by rewrite Hna, andb_false_r. }
    split.
    + intros stage S Hst HS.
      destruct (snapshot_stage _ _ _ _ _ _ _ _ _ _ _ _ _ _ _ _
        E1 E2 E3 E4 E5 H1 H2 H3 H4 H5 Hst HS) as (s & HSp & Hs).
      exists s. split; [done|].
      repeat (apply elem_of_cons in Hs as [->|Hs]); try done. by apply elem_of_nil in Hs.
    + exists b1. split; [done|]. destruct hold; [by subst b1|].
      destruct Hrel as [fl' Hrel%release_block_spec].
      destruct (initialize_fixed_flags_other_modes degrees_of_freedom solver
        _ _ _ _ _ _ _ _ _ _ _ ND NC (or_introl eq_refl) Hrun) as (_ & _ & Hflags).
      destruct (Hflags _ _ _ Hp) as (b1' & Hb1' & Hfix).
      assert (b1' = b1) as -> by congruence.
      specialize (Hfix n i). rewrite Hd, Hna, andb_false_r in Hfix. simpl in Hfix.
      pose proof (tf_var _ _ _ _ Hrel n i) as Hv. rewrite LF in Hv. simpl in Hv.
      rewrite Hv in Hfix |- *. simpl in Hfix. injection Hfix as Hfix. f_equal.
      rewrite <- Hfix, <- (value_released fl' k
        (state_vars (component_list (params bF))) n i (held d)).
      by destruct (released _ _ _ _ _ _).
  - split.
    + intros stage S Hst HS.
      destruct (snapshot_stage _ _ _ _ _ _ _ _ _ _ _ _ _ _ _ _
        E1 E2 E3 E4 E5 H1 H2 H3 H4 H5 Hst HS) as (s & HSp & Hs).
      exists s. split; [done|].
      apply block_sequence_spec in Hseq as (T1 & T2 & T3 & T4 & T5 & TF & _).
      pose proof (tf_var _ _ _ _ T1 n i) as L1. rewrite LH in L1.
      pose proof (tf_var _ _ _ _ T2 n i) as L2. rewrite L1 in L2.
      pose proof (tf_var _ _ _ _ T3 n i) as L3. rewrite L2 in L3.
      pose proof (tf_var _ _ _ _ T4 n i) as L4. rewrite L3 in L4.
      pose proof (tf_var _ _ _ _ T5 n i) as L5. rewrite L4 in L5.
      repeat (apply elem_of_cons in Hs as [->|Hs]); try done. by apply elem_of_nil in Hs.
    + exists b1. split; [done|].
      apply block_sequence_spec in Hseq as (T1 & T2 & T3 & T4 & T5 & TF & _).
      pose proof (tf_var _ _ _ _ T1 n i) as L1. rewrite LH in L1.
      pose proof (tf_var _ _ _ _ T2 n i) as L2. rewrite L1 in L2.
      pose proof (tf_var _ _ _ _ T3 n i) as L3. rewrite L2 in L3.
      pose proof (tf_var _ _ _ _ T4 n i) as L4. rewrite L3 in L4.
      pose proof (tf_var _ _ _ _ T5 n i) as L5. rewrite L4 in L5.
      pose proof (tf_var _ _ _ _ TF n i) as LF. rewrite L5 in LF.
      destruct hold; [by subst b1|].
      destruct Hrel as [fl' Hrel%release_block_spec].
      by rewrite (tf_var _ _ _ _ Hrel n i), LF.
Qed.

(** A variable the caller fixed before [initialize] has the same value and
    is fixed when each solve receives the block and when [initialize]
    returns, in every mode; the one exception is the activity coefficient
    of a non-ideal data object. *)
Lemma fixed_variables_general blk fm mf T P hold svf outlvl r blk1 tr :
  NoDup blk.*1 → Forall (λ kb, NoDup (component_list (params kb.2))) blk →
  initialize degrees_of_freedom solver blk fm mf T P hold svf outlvl = Ok (r, blk1, tr) →
  ∀ p k b n i d, blk !! p = Some (k, b) →
    lookup_var b n i = Some d → fixed d = true →
    not_ideal b && bool_decide (n = "activity_coeff_comp") = false →
    (∀ stage S, (1 ≤ stage ≤ 5)%nat → snapshot stage tr = Some S →
       ∃ s, S !! p = Some (k, s) ∧ lookup_var s n i = Some d) ∧
    (∃ b1, blk1 !! p = Some (k, b1) ∧ lookup_var b1 n i = Some d).
Proof.
  intros ND NC Hrun p k b n i d Hp Hd Hf Hna.
  pose proof Hrun as (two & S1 & S2 & S3 & S4 & S5 & E1 & E2 & E3 & E4 & E5 & _ & Hpos)
    %initialize_stages.
  destruct (Hpos _ _ _ Hp) as (bH & s1 & s2 & s3 & s4 & s5 & bF & b1 & v1 & v2 & v3 & v4
    & v5 & Hprep & Hseq & H1 & H2 & H3 & H4 & H5 & Hb1 & Hrel).
  pose proof Hprep as (g & T0 & G1 & _).
  destruct (prepared_config _ _ _ Hprep) as (Hpar & _ & _).
  assert (lookup_var bH n i = Some d) as LH.
  { rewrite (tf_var _ _ _ _ T0), Hd. simpl. by rewrite G1. }
  destruct (block_sequence_fixed_var _ _ _ _ _ _ _ _ _ _ _ _ _ n i d Hseq)
    as (L1 & L2 & L3 & L4 & L5 & LF); try done.
  { unfold not_ideal in *. by rewrite Hpar. }
  split.
  - intros stage S Hst HS.
    destruct (snapshot_stage _ _ _ _ _ _ _ _ _ _ _ _ _ _ _ _
      E1 E2 E3 E4 E5 H1 H2 H3 H4 H5 Hst HS) as (s & HSp & Hs).
    exists s. split; [done|].
    repeat (apply elem_of_cons in Hs as [->|Hs]); try done. by apply elem_of_nil in Hs.
  - exists b1. split; [done|]. destruct (svf || hold) eqn:Emode; [by subst b1|].
    apply orb_false_iff in Emode as [-> ->].
    destruct Hrel as [fl' Hrel%release_block_spec].
    destruct (initialize_fixed_flags_other_modes degrees_of_freedom solver
      _ _ _ _ _ _ _ _ _ _ _ ND NC (or_introl eq_refl) Hrun) as (_ & _ & Hflags).
    destruct (Hflags _ _ _ Hp) as (b1' & Hb1' & Hfix).
    assert (b1' = b1) as -> by congruence.
    specialize (Hfix n i). rewrite Hd, Hna in Hfix. simpl in Hfix.
    pose proof (tf_var _ _ _ _ Hrel n i) as Hv. rewrite LF in Hv. simpl in Hv.
    rewrite Hv in Hfix |- *. simpl in Hfix. injection Hfix as Hfix. f_equal.
    pose proof (value_released fl' k (state_vars (component_list (params bF))) n i d) as Hv'.
    destruct (released _ _ _ _ _ _), d. simpl in *. congruence.
Qed.

End Values.


Lemma bind_Raise {A B} (m : Res A) (f : A → Res B) e :
  m ≫= f = Raise e ↔ m = Raise e ∨ ∃ x, m = Ok x ∧ f x = Raise e.
Proof.
  destruct m; simpl; split; [eauto|intros [[=]|(? & [= ->] & ?)]; done
    |intros [= ->]; eauto|intros [[= ->]|(? & [=] & ?)]; done].
Qed.

Lemma for_each_Raise body (blk : StateBlock) e :
  for_each body blk = Raise e → ∃ p k b, blk !! p = Some (k, b) ∧ body k b = Raise e.
Proof.
  induction blk as [|[k b] rest IH]; simpl; [done|].
  intros [H|(b' & _ & [H|(r & _ & [=])]%bind_Raise)]%bind_Raise.
  - by exists 0, k, b.
  - destruct (IH H) as (p & k' & b'' & ? & ?). by exists (S p), k', b''.
Qed.

Lemma set_active_Raise name act b e :
  set_active name act b = Raise e → e = AttributeError name.
Proof. unfold set_active. destruct (_ !! _); [done|by intros [= <-]]. Qed.

Lemma fix_all_Raise name v b e : fix_all name v b = Raise e → e = AttributeError name.
Proof. unfold fix_all. destruct (_ !! _); [done|by intros [= <-]]. Qed.

Lemma unfix_all_Raise name b e : unfix_all name b = Raise e → e = AttributeError name.
Proof. unfold unfix_all. destruct (_ !! _); [done|by intros [= <-]]. Qed.

Lemma get_var_Raise name i b e : get_var name i b = Raise e → lookup_error e.
Proof.
  unfold get_var, lookup_error. destruct (_ !! _) as [c|]; [|intros [= <-]; eauto].
  destruct (_ !! _); [done|intros [= <-]; eauto].
Qed.

Lemma outlet_constraint_Raise act b e :
  outlet_constraint act b = Raise e → e = AttributeError "eq_mol_frac_out".
Proof. unfold outlet_constraint. destruct (defined_state b); [done|apply set_active_Raise]. Qed.

Lemma hold_var_Raise name i v b e :
  hold_var name i v b = Raise e → (∀ e', v = Raise e' → lookup_error e') → lookup_error e.
Proof.
  unfold hold_var. intros [H|(d & _ & H)]%bind_Raise Hv; [by eapply get_var_Raise|].
  destruct (fixed d); [done|]. apply bind_Raise in H as [H|(q & _ & [=])]. by apply Hv.
Qed.

Lemma mole_frac_value_Raise mf cl j e : mole_frac_value mf cl j = Raise e → lookup_error e.
Proof.
  unfold mole_frac_value, lookup_error. destruct mf as [m|]; [|done].
  destruct (m !! j); [done|intros [= <-]; eauto].
Qed.

Lemma hold_mole_frac_Raise mf cl k js X b e :
  hold_mole_frac mf cl k js X b = Raise e → lookup_error e.
Proof.
  revert X b. induction js as [|j js IH]; intros X b; simpl; [done|].
  intros [H|([f b'] & _ & H)]%bind_Raise.
  - eapply hold_var_Raise; [exact H|]. intros e'. apply mole_frac_value_Raise.
  - by eapply IH.
Qed.

Lemma hold_block_Raise fm mf T P k b fl e :
  hold_block fm mf T P k b fl = Raise e → lookup_error e.
Proof.
  unfold hold_block.
  intros [H|([f b1] & _ & [H|([X b2] & _ & [H|([p b3] & _ & [H|([t b4] & _ & [=])]
    %bind_Raise)]%bind_Raise)]%bind_Raise)]%bind_Raise.
  - by eapply hold_var_Raise.
  - by eapply hold_mole_frac_Raise.
  - by eapply hold_var_Raise.
  - by eapply hold_var_Raise.
Qed.

Lemma hold_state_vars_Raise fm mf T P (blk : StateBlock) fl e :
  hold_state_vars fm mf T P blk fl = Raise e → lookup_error e.
Proof.
  revert fl. induction blk as [|[k b] rest IH]; intros fl; simpl; [done|].
  intros [H|([fl1 b1] & _ & [H|([fl2 r] & _ & [=])]%bind_Raise)]%bind_Raise.
  - by eapply hold_block_Raise.
  - by eapply IH.
Qed.

Lemma activate_balances_Raise b e :
  activate_balances b = Raise e → e = AttributeError "activity_coeff_comp".
Proof. unfold activate_balances. destruct (not_ideal _); [apply fix_all_Raise|done]. Qed.

Lemma activate_activity_Raise b e : activate_activity b = Raise e → lookup_error e.
Proof.
  unfold activate_activity, lookup_error. destruct (not_ideal _); [|done].
  intros [->%set_active_Raise|(b' & _ & ->%unfix_all_Raise)]%bind_Raise; eauto.
Qed.

Lemma release_if_Raise f name i b e : release_if f name i b = Raise e → lookup_error e.
Proof.
  unfold release_if. destruct f; [done|].
  intros [H|(? & _ & [=])]%bind_Raise. by eapply get_var_Raise.
Qed.

Lemma dict_get_Raise {K} `{Countable K} (m : gmap K bool) k e :
  dict_get m k = Raise e → lookup_error e.
Proof. unfold dict_get, lookup_error. destruct (m !! k); [done|intros [= <-]; eauto]. Qed.

Lemma release_mole_frac_Raise X k js b e :
  release_mole_frac X k js b = Raise e → lookup_error e.
Proof.
  revert b. induction js as [|j js IH]; intros b; simpl; [done|].
  intros [H|(f & _ & [H|(b' & _ & H)]%bind_Raise)]%bind_Raise.
  - by eapply dict_get_Raise.
  - by eapply release_if_Raise.
  - by eapply IH.
Qed.

Lemma release_block_Raise fl k b e : release_block fl k b = Raise e → lookup_error e.
Proof.
  unfold release_block.
  intros [H|(f & _ & [H|(b1 & _ & [H|(b2 & _ & [H|(p & _ & [H|(b3 & _ & [H|(t & _ & H)]
    %bind_Raise)]%bind_Raise)]%bind_Raise)]%bind_Raise)]%bind_Raise)]%bind_Raise.
  - by eapply dict_get_Raise.
  - by eapply release_if_Raise.
  - by eapply release_mole_frac_Raise.
  - by eapply dict_get_Raise.
  - by eapply release_if_Raise.
  - by eapply dict_get_Raise.
  - by eapply release_if_Raise.
Qed.

Lemma release_state_Raise (blk : StateBlock) flags outlvl e :
  release_state blk flags outlvl = Raise e → lookup_error e.
Proof.
  unfold release_state. destruct flags as [fl|]; [|done].
  intros [(p & k & b & _ & H)%for_each_Raise|(? & _ & [=])]%bind_Raise.
  by eapply release_block_Raise.
Qed.

Lemma hold_state_vars_length fm mf T P (blk : StateBlock) fl fl' blk' :
  hold_state_vars fm mf T P blk fl = Ok (fl', blk') → length blk' = length blk.
Proof. by intros [? _]%hold_state_vars_holds. Qed.

Section Errors.
Context (degrees_of_freedom : BlockData → Z).
Context (solver : nat → StateBlock → SolverResults).

Lemma solve_sequence_Raise outlvl (blk : StateBlock) e :
  solve_sequence solver outlvl blk = Raise e →
  (e = UnboundLocalError ∧ blk = []) ∨ lookup_error e.
Proof.
  unfold solve_sequence.
  intros [H|(kb & _ & [H|(blk2 & _ & [H|(blk4 & _ & [H|(blk5 & _ & [=])]%bind_Raise)]
    %bind_Raise)]%bind_Raise)]%bind_Raise.
  - left. unfold for_each_pure in H.
    destruct blk as [|kb blk _] using rev_ind; [by injection H as <-|].
    rewrite fmap_app in H. simpl in H. by rewrite last_snoc in H.
  - right. apply for_each_Raise in H as (? & ? & ? & _ & ->%activate_balances_Raise).
    right. eauto.
  - right. apply for_each_Raise in H as (? & ? & ? & _ & H). by eapply activate_activity_Raise.
  - right. apply for_each_Raise in H as (? & ? & ? & _ & ->%outlet_constraint_Raise).
    right. eauto.
Qed.

(** The stages of [initialize] and the exception each can raise. *)
Lemma initialize_Raise blk fm mf T P hold svf outlvl e :
  initialize degrees_of_freedom solver blk fm mf T P hold svf outlvl = Raise e →
  lookup_error e ∨ (e = UnboundLocalError ∧ blk = []) ∨
  (e = DofException ∧ svf = true ∧
   ∃ blk0, for_each (λ _, outlet_constraint false) blk = Ok blk0 ∧
           check_dof degrees_of_freedom blk0 = Raise e).
Proof.
  unfold initialize. intros [H|(blk0 & H0 & H)]%bind_Raise.
  { left. apply for_each_Raise in H as (? & ? & ? & _ & ->%outlet_constraint_Raise).
    right. eauto. }
  pose proof (for_each_length _ _ _ H0) as L0.
  apply bind_Raise in H as [H|([fl blkH] & HH & H)].
  { destruct svf.
    - apply bind_Raise in H as [H|(? & _ & [=])].
      right. right. pose proof (check_dof_Raise _ _ _ H) as ->. eauto.
    - apply bind_Raise in H as [H|([] & _ & [=])]. left. by eapply hold_state_vars_Raise. }
  assert (length blkH = length blk) as LH.
  { destruct svf.
    - apply bind_Ok in HH as (? & _ & [= _ <-]). done.
    - apply bind_Ok in HH as ([] & HH%hold_state_vars_length & [= _ <-]). congruence. }
  apply bind_Raise in H as [H|([blkF tr] & _ & H)].
  { apply solve_sequence_Raise in H as [[-> ->]|H]; [|by left].
    right. left. split; [done|]. by destruct blk. }
  destruct svf; [done|]. destruct hold; [done|].
  apply bind_Raise in H as [H|([] & _ & [=])]. left. by eapply release_state_Raise.
Qed.

Lemma initialize_empty fm mf T P hold svf outlvl :
  initialize degrees_of_freedom solver [] fm mf T P hold svf outlvl = Raise UnboundLocalError.
Proof. by destruct svf. Qed.

(** [initialize] raises the error of an unbound loop variable exactly on a
    state block with no element. *)
Lemma initialize_unbound_iff_empty blk fm mf T P hold svf outlvl :
  initialize degrees_of_freedom solver blk fm mf T P hold svf outlvl = Raise UnboundLocalError
  ↔ blk = [].
Proof.
  split; [|intros ->; apply initialize_empty].
  intros [[[=]|[? [=]]]|[[_ ->]|[[=] _]]]%initialize_Raise. done.
Qed.

(** [initialize] raises the degrees-of-freedom exception exactly when
    [state_vars_fixed] is set and, the outlet constraints switched off, some
    data object has degrees of freedom other than zero. *)
Lemma initialize_dof_exception_iff blk fm mf T P hold svf outlvl :
  initialize degrees_of_freedom solver blk fm mf T P hold svf outlvl = Raise DofException
  ↔ svf = true ∧
    ∃ blk0, for_each (λ _, outlet_constraint false) blk = Ok blk0 ∧
            Exists (λ kb, degrees_of_freedom kb.2 ≠ 0%Z) blk0.
Proof.
  split.
  - intros [[[=]|[? [=]]]|[[[=] _]|(_ & -> & blk0 & H0 & Hc)]]%initialize_Raise.
    split; [done|]. exists blk0. split; [done|].
    apply (not_Forall_Exists (λ kb, degrees_of_freedom kb.2 = 0%Z)).
    intros HZ. apply (check_dof_Ok degrees_of_freedom solver) in HZ. congruence.
  - intros (-> & blk0 & H0 & HE). unfold initialize. rewrite H0. simpl.
    destruct (check_dof degrees_of_freedom blk0) as [[]|e] eqn:Hc.
    + apply (check_dof_Ok degrees_of_freedom solver) in Hc. apply Exists_exists in HE as (kb & Hin & Hkb).
      rewrite Forall_forall in Hc. by specialize (Hc _ Hin).
    + simpl. by rewrite (check_dof_Raise _ _ _ Hc).
Qed.

End Errors.


Lemma extends_refl b : extends b b.
Proof. by split. Qed.

Lemma extends_trans b1 b2 b3 : extends b1 b2 → extends b2 b3 → extends b1 b3.
Proof.
  intros [] []. split; try congruence; auto.
  intros n i Hn. by rewrite ext_state1, ext_state0.
Qed.

Lemma extends_add_var name idxs init b :
  name ∉ state_var_names → extends b (add_var name idxs init b).
Proof.
  intros Hn. split; try done.
  - intros n Hs. unfold add_var. simpl.
    destruct (decide (name = n)) as [->|E];
      [by rewrite lookup_insert_eq|by rewrite lookup_insert_ne].
  - intros n i Hi. rewrite lookup_var_add_var. rewrite decide_False; [done|].
    intros ->. done.
Qed.

Lemma extends_add_con_relation name idxs b : extends b (add_con name idxs relation b).
Proof.
  destruct (add_con_relation_vars name idxs b) as (Hv & Hp & Hd & Hpe).
  split; try done.
  - intros n. by rewrite Hv.
  - intros n Hs. unfold add_con. rewrite (surjective_pairing (run_rule _ _ _ _)). simpl.
    rewrite run_rule_relation.
    destruct (decide (name = n)) as [->|E];
      [by rewrite lookup_insert_eq|by rewrite lookup_insert_ne].
  - intros n i _. apply lookup_var_add_con_relation.
Qed.

Lemma run_rule_Gij_var_objects idxs b acc n :
  is_Some (var_objects (run_rule rule_Gij_coeff idxs b acc).1 !! n) ↔
  is_Some (var_objects b !! n).
Proof.
  revert b acc. induction idxs as [|ix idxs IH]; intros b acc; simpl; [done|].
  destruct (rule_Gij_coeff ix b) as [b1 keep1] eqn:E. rewrite IH.
  unfold rule_Gij_coeff in E.
  destruct ix as [|i [|j [|]]]; try (by injection E as <- _).
  destruct (decide (i ≠ j)); injection E as <- _; [done|].
  apply var_objects_map_vars.
Qed.

Lemma extends_add_con_Gij idxs b : extends b (add_con "eq_Gij_coeff" idxs rule_Gij_coeff b).
Proof.
  pose proof (run_rule_Gij idxs b ∅) as (Hp & Hd & Hpe & Hc & Hv & _).
  pose proof (run_rule_Gij_var_objects idxs b ∅) as Hobj.
  unfold add_con. destruct (run_rule rule_Gij_coeff idxs b ∅) as [b' c]. simpl in *.
  split; simpl; try done.
  - intros n. by rewrite Hobj.
  - intros n Hs. rewrite Hc.
    destruct (decide ("eq_Gij_coeff" = n)) as [<-|E];
      [by rewrite lookup_insert_eq|by rewrite lookup_insert_ne].
  - intros n i Hn. change (lookup_var b' n i = lookup_var b n i). rewrite Hv.
    rewrite bool_decide_eq_false_2; [by destruct (lookup_var b n i)|].
    intros [-> _]. unfold state_var_names in Hn. set_solver.
Qed.

Lemma extends_make_mol_frac_out b : extends b (make_mol_frac_out b).
Proof.
  unfold make_mol_frac_out. destruct (defined_state b);
    [apply extends_refl|apply extends_add_con_relation].
Qed.

Ltac extends_step :=
  first
    [ apply extends_refl
    | eapply extends_trans; [|apply extends_add_con_relation]
    | eapply extends_trans; [|apply extends_add_con_Gij]
    | eapply extends_trans; [|apply extends_make_mol_frac_out]
    | eapply extends_trans;
      [|apply extends_add_var; unfold state_var_names; set_solver] ].

Lemma extends_make_vars b : extends b (_make_vars b).
Proof. unfold _make_vars. cbv zeta. repeat extends_step. Qed.

Lemma extends_make_liq_phase_eq b : extends b (_make_liq_phase_eq b).
Proof. unfold _make_liq_phase_eq. repeat extends_step. Qed.

Lemma extends_make_vap_phase_eq b : extends b (_make_vap_phase_eq b).
Proof. unfold _make_vap_phase_eq. repeat extends_step. Qed.

Lemma extends_make_flash_eq b : extends b (_make_flash_eq b).
Proof.
  unfold _make_flash_eq, _temperature_bubble, _temperature_dew, _pressure_sat. cbv zeta.
  repeat extends_step.
Qed.

Lemma extends_make_activity_eqs b : extends b (make_activity_eqs b).
Proof. unfold make_activity_eqs. cbv zeta. repeat extends_step. Qed.

Lemma extends_make_NRTL_eq b : extends b (_make_NRTL_eq b).
Proof.
  unfold _make_NRTL_eq. cbv zeta.
  eapply extends_trans; [|apply extends_make_activity_eqs]. repeat extends_step.
Qed.

Lemma extends_make_Wilson_eq b : extends b (_make_Wilson_eq b).
Proof.
  unfold _make_Wilson_eq. cbv zeta.
  eapply extends_trans; [|apply extends_make_activity_eqs]. repeat extends_step.
Qed.

(** What [make_activity_eqs] and the equation builders declare. *)
Lemma make_activity_eqs_declares b :
  is_Some (var_objects (make_activity_eqs b) !! "activity_coeff_comp") ∧
  is_Some (constraint_objects (make_activity_eqs b) !! "eq_activity_coeff").
Proof.
  unfold make_activity_eqs. cbv zeta. split.
  - repeat (apply (ext_var_obj _ _ (extends_add_con_relation _ _ _))).
    apply (ext_var_obj _ _ (extends_add_con_Gij _ _)).
    apply (ext_var_obj _ _ (extends_add_var "B" _ _ _ ltac:(unfold state_var_names; set_solver))).
    apply (ext_var_obj _ _ (extends_add_var "A" _ _ _ ltac:(unfold state_var_names; set_solver))).
    unfold add_var at 1. simpl. by rewrite lookup_insert_eq.
  - unfold add_con at 1. rewrite (surjective_pairing (run_rule _ _ _ _)). simpl.
    by rewrite lookup_insert_eq.
Qed.

Lemma make_mol_frac_out_declares b :
  defined_state b = false →
  is_Some (constraint_objects (make_mol_frac_out b) !! "eq_mol_frac_out").
Proof.
  intros Hd. unfold make_mol_frac_out. rewrite Hd.
  unfold add_con. rewrite (surjective_pairing (run_rule _ _ _ _)). simpl.
  by rewrite lookup_insert_eq.
Qed.

Lemma make_flash_eq_declares b :
  defined_state b = false →
  is_Some (constraint_objects (_make_flash_eq b) !! "eq_mol_frac_out").
Proof.
  intros Hd. unfold _make_flash_eq, _temperature_bubble, _temperature_dew, _pressure_sat.
  cbv zeta.
  match goal with
  | |- context [make_mol_frac_out ?x] =>
      assert (is_Some (constraint_objects (make_mol_frac_out x) !! "eq_mol_frac_out")) as H
  end.
  { apply make_mol_frac_out_declares.
    by rewrite !(ext_defined _ _ (extends_add_con_relation _ _ _)). }
  revert H.
  match goal with
  | |- is_Some (constraint_objects ?x !! _) → is_Some (constraint_objects ?y !! _) =>
      assert (extends x y) as E by (repeat extends_step)
  end.
  apply (ext_con_obj _ _ E).
Qed.

Lemma make_state_vars_lookup b n i :
  (n, i) ∈ state_vars (component_list (params b)) →
  lookup_var (_make_state_vars b) n i =
    Some (mkVar (Some (initial_state_value (component_list (params b)) n)) false).
Proof.
  intros Hin. unfold _make_state_vars. cbv zeta.
  apply elem_of_state_vars in Hin as [[-> ->]|[[-> (j & -> & Hj)]|[[-> ->]|[-> ->]]]];
    rewrite !lookup_var_add_var; simpl; rewrite lookup_new_var;
    (rewrite decide_True; [done|]); unfold scalar, over; set_solver.
Qed.

Lemma extends_make_state_vars_config b :
  params (_make_state_vars b) = params b ∧
  defined_state (_make_state_vars b) = defined_state b ∧
  has_phase_equilibrium (_make_state_vars b) = has_phase_equilibrium b.
Proof. done. Qed.

(** [build]: the block it returns extends the state variables it declared
    first. *)
Lemma build_extends p defined has_pe b :
  build p defined has_pe = Ok b →
  extends (_make_state_vars (mkBlock p defined has_pe ∅ ∅)) b.
Proof.
  unfold build. destruct (has_pe && _); [done|]. intros [= <-]. cbv zeta.
  repeat match goal with
         | |- extends _ (if ?c then _ else _) => destruct c
         | |- extends _ (_make_vap_phase_eq _) =>
             eapply extends_trans; [|apply extends_make_vap_phase_eq]
         | |- extends _ (_make_liq_phase_eq _) =>
             eapply extends_trans; [|apply extends_make_liq_phase_eq]
         | |- extends _ (_make_flash_eq _) =>
             eapply extends_trans; [|apply extends_make_flash_eq]
         | |- extends _ (_make_Wilson_eq _) =>
             eapply extends_trans; [|apply extends_make_Wilson_eq]
         | |- extends _ (_make_NRTL_eq _) =>
             eapply extends_trans; [|apply extends_make_NRTL_eq]
         | |- extends _ (_make_vars _) => apply extends_make_vars
         end.
Qed.

Lemma build_config p defined has_pe b :
  build p defined has_pe = Ok b →
  params b = p ∧ defined_state b = defined ∧ has_phase_equilibrium b = has_pe.
Proof. intros [Hp Hd Hpe _ _ _]%build_extends. done. Qed.

Lemma build_state_vars p defined has_pe b n i :
  build p defined has_pe = Ok b →
  (n, i) ∈ state_vars (component_list p) →
  lookup_var b n i = Some (mkVar (Some (initial_state_value (component_list p) n)) false).
Proof.
  intros Hb Hin. pose proof (build_extends _ _ _ _ Hb) as E.
  rewrite (ext_state _ _ E).
  - by apply (make_state_vars_lookup (mkBlock p defined has_pe ∅ ∅)).
  - apply elem_of_state_vars in Hin as [[-> _]|[[-> _]|[[-> _]|[-> _]]]];
      unfold state_var_names; set_solver.
Qed.


Lemma equipped_transforms g h b b' : transforms g h b b' → equipped b → equipped b'.
Proof.
  intros T [H1 H2]. split.
  - rewrite (tf_defined _ _ _ _ T). intros Hd. by apply (tf_con_obj _ _ _ _ T), H1.
  - rewrite (transforms_not_ideal _ _ _ _ T). intros Hn. destruct (H2 Hn). split.
    + by apply (tf_var_obj _ _ _ _ T).
    + by apply (tf_con_obj _ _ _ _ T).
Qed.

Lemma has_state_vars_transforms g h b b' :
  transforms g h b b' → has_state_vars b → has_state_vars b'.
Proof.
  intros T H n i. rewrite (tf_params _ _ _ _ T). intros Hin.
  rewrite (tf_var _ _ _ _ T). apply fmap_is_Some. auto.
Qed.

Lemma for_each_Forall body (P Q : BlockData → Prop) (blk : StateBlock) :
  (∀ k b, P b → ∃ b', body k b = Ok b' ∧ Q b') →
  Forall (λ kb, P kb.2) blk →
  ∃ blk', for_each body blk = Ok blk' ∧ Forall (λ kb, Q kb.2) blk' ∧
          length blk' = length blk.
Proof.
  intros Hbody. induction 1 as [|[k b] rest Hb _ IH]; [by exists []|].
  destruct (Hbody k b Hb) as (b' & Hb' & HQ). destruct IH as (rest' & Hr & HF & HL).
  exists ((k, b') :: rest'). simpl. rewrite Hb'. simpl. rewrite Hr. simpl.
  split_and!; [done|by constructor|by rewrite HL].
Qed.

Lemma for_each_pure_Forall f (P Q : BlockData → Prop) (blk : StateBlock) :
  (∀ b, P b → Q (f b)) →
  Forall (λ kb, P kb.2) blk → Forall (λ kb, Q kb.2) (for_each_pure f blk).
Proof.
  intros Hf HF. unfold for_each_pure. apply Forall_fmap.
  eapply Forall_impl; [exact HF|]. intros [k b]. simpl. apply Hf.
Qed.

Lemma load_solution_Forall r (P : BlockData → Prop) (blk : StateBlock) :
  (∀ v b, P b → P (load v b)) →
  Forall (λ kb, P kb.2) blk → Forall (λ kb, P kb.2) (load_solution r blk).
Proof.
  intros Hf HF. unfold load_solution. apply Forall_fmap.
  eapply Forall_impl; [exact HF|]. intros [k b]. simpl. apply Hf.
Qed.

Lemma equipped_load v b : equipped b → equipped (load v b).
Proof. apply equipped_transforms with (loaded v) keep, load_spec. Qed.

Lemma equipped_set_active_in names act b : equipped b → equipped (set_active_in names act b).
Proof. eapply equipped_transforms, set_active_in_spec. Qed.

Lemma equipped_activate_interaction b : equipped b → equipped (activate_interaction b).
Proof. eapply equipped_transforms, activate_interaction_spec. Qed.

Lemma set_active_total name act b :
  is_Some (constraint_objects b !! name) → ∃ b', set_active name act b = Ok b'.
Proof. intros [c Hc]. unfold set_active. rewrite Hc. by eexists. Qed.

Lemma outlet_constraint_total act b :
  equipped b → ∃ b', outlet_constraint act b = Ok b' ∧ equipped b'.
Proof.
  intros E. assert (∃ b', outlet_constraint act b = Ok b') as [b' Hb'].
  { unfold outlet_constraint. destruct (defined_state b) eqn:Hd; [by eexists|].
    apply set_active_total. by apply E. }
  exists b'. split; [done|].
  apply outlet_constraint_spec in Hb' as [T _]. by eapply equipped_transforms.
Qed.

Lemma activate_balances_total b :
  equipped b → ∃ b', activate_balances b = Ok b' ∧ equipped b'.
Proof.
  intros E. assert (∃ b', activate_balances b = Ok b') as [b' Hb'].
  { unfold activate_balances.
    pose proof (set_active_in_spec balance_constraints true b) as T.
    rewrite (transforms_not_ideal _ _ _ _ T).
    destruct (not_ideal b) eqn:Hn; [|by eexists].
    destruct E as [_ E]. destruct (E Hn) as [[c Hc]%(tf_var_obj _ _ _ _ T) _].
    unfold fix_all. rewrite Hc. by eexists. }
  exists b'. split; [done|].
  apply activate_balances_spec in Hb' as [T _]. by eapply equipped_transforms.
Qed.

Lemma activate_activity_total b :
  equipped b → ∃ b', activate_activity b = Ok b' ∧ equipped b'.
Proof.
  intros E. assert (∃ b', activate_activity b = Ok b') as [b' Hb'].
  { unfold activate_activity. destruct (not_ideal b) eqn:Hn; [|by eexists].
    destruct E as [_ E]. destruct (E Hn) as [Hv [c Hc]].
    unfold set_active. rewrite Hc. simpl.
    unfold unfix_all.
    match goal with |- context [var_objects ?x !! _] =>
      assert (is_Some (var_objects x !! "activity_coeff_comp")) as [c' ->] by done
    end. by eexists. }
  exists b'. split; [done|].
  apply activate_activity_spec in Hb' as [T _]. by eapply equipped_transforms.
Qed.

Lemma hold_var_total name i v b :
  is_Some (lookup_var b name i) → (∃ q, v = Ok q) →
  ∃ f b', hold_var name i v b = Ok (f, b').
Proof.
  intros [d Hd%get_var_Ok] [q ->]. unfold hold_var. rewrite Hd. simpl.
  destruct (fixed d); by eexists _, _.
Qed.

Lemma hold_mole_frac_total mf cl k js X b :
  (∀ j, j ∈ js → is_Some (lookup_var b "mole_frac" [j]) ∧ ∃ q, mole_frac_value mf cl j = Ok q) →
  ∃ X' b', hold_mole_frac mf cl k js X b = Ok (X', b').
Proof.
  revert X b. induction js as [|j js IH]; intros X b H; [by eexists _, _|]. simpl.
  destruct (H j) as [Hv Hq]; [set_solver|].
  destruct (hold_var_total "mole_frac" [j] _ b Hv Hq) as (f & b1 & H1). rewrite H1. simpl.
  apply IH. intros j' Hj'. destruct (H j') as [Hv' Hq']; [set_solver|]. split; [|done].
  apply hold_var_spec in H1 as [H1 _]. by apply (holds_exists _ _ _ _ _ H1).
Qed.

Lemma mole_frac_value_total mf b j :
  covers mf b → j ∈ component_list (params b) →
  ∃ q, mole_frac_value mf (component_list (params b)) j = Ok q.
Proof.
  intros Hc Hj. unfold mole_frac_value. destruct mf as [m|]; [|by eexists].
  destruct (Hc m j eq_refl Hj) as [q ->]. by eexists.
Qed.

Lemma hold_block_total fm mf T P k b fl :
  has_state_vars b → covers mf b → ∃ fl' b', hold_block fm mf T P k b fl = Ok (fl', b').
Proof.
  intros Hs Hc. unfold hold_block.
  destruct (hold_var_total "flow_mol" [] (given fm 1%Q) b) as (f & b1 & H1);
    [apply Hs, elem_of_state_vars; auto|by eexists|].
  rewrite H1. simpl. pose proof H1 as [E1 _]%hold_var_spec.
  destruct (hold_mole_frac_total mf (component_list (params b)) k
              (component_list (params b)) (Xflag fl) b1) as (X & b2 & H2).
  { intros j Hj. split; [|by apply mole_frac_value_total].
    apply (holds_exists _ _ _ _ _ E1), Hs, elem_of_state_vars. eauto 10. }
  rewrite H2. simpl. pose proof H2 as [E2 _]%hold_mole_frac_spec.
  destruct (hold_var_total "pressure" [] (given P 101325%Q) b2) as (p & b3 & H3);
    [|by eexists|].
  { apply (holds_exists _ _ _ _ _ E2), (holds_exists _ _ _ _ _ E1), Hs, elem_of_state_vars.
    auto. }
  rewrite H3. simpl. pose proof H3 as [E3 _]%hold_var_spec.
  destruct (hold_var_total "temperature" [] (given T 300%Q) b3) as (t & b4 & H4);
    [|by eexists|].
  { apply (holds_exists _ _ _ _ _ E3), (holds_exists _ _ _ _ _ E2),
      (holds_exists _ _ _ _ _ E1), Hs, elem_of_state_vars. auto. }
  rewrite H4. simpl. by eexists _, _.
Qed.

Lemma hold_state_vars_total fm mf T P (blk : StateBlock) fl :
  Forall (λ kb, has_state_vars kb.2 ∧ covers mf kb.2) blk →
  ∃ fl' blk', hold_state_vars fm mf T P blk fl = Ok (fl', blk').
Proof.
  intros HF. revert fl. induction HF as [|[k b] rest [Hs Hc] _ IH]; intros fl;
    [by eexists _, _|].
  simpl. destruct (hold_block_total fm mf T P k b fl Hs Hc) as (fl1 & b1 & H1).
  rewrite H1. simpl. destruct (IH fl1) as (fl2 & rest' & H2). rewrite H2. simpl.
  by eexists _, _.
Qed.

Lemma hold_state_vars_equipped fm mf T P (blk : StateBlock) fl fl' blk' :
  hold_state_vars fm mf T P blk fl = Ok (fl', blk') →
  Forall (λ kb, equipped kb.2) blk → Forall (λ kb, equipped kb.2) blk'.
Proof.
  intros H HF. apply Forall_lookup. intros p [k b'] Hp.
  destruct (hold_state_vars_holds _ _ _ _ _ _ _ _ H) as [HL HP].
  assert (is_Some (blk !! p)) as [[k0 b0] Hp0].
  { apply lookup_lt_is_Some. rewrite <- HL. by eapply lookup_lt_Some. }
  destruct (HP _ _ _ Hp0) as (b1 & Hp1 & g & Tg & _).
  rewrite Hp in Hp1. injection Hp1 as -> ->. simpl.
  eapply equipped_transforms; [exact Tg|].
  rewrite Forall_lookup in HF. exact (HF _ _ Hp0).
Qed.

Section Total.
Context (degrees_of_freedom : BlockData → Z).
Context (solver : nat → StateBlock → SolverResults).

Lemma solve_step_equipped outlvl n (st : StateBlock * list Event) :
  Forall (λ kb, equipped kb.2) st.1 →
  Forall (λ kb, equipped kb.2) (solve_step solver outlvl n st).1.
Proof. intros HF. unfold solve_step. cbn [fst]. apply load_solution_Forall; [|done]. apply equipped_load. Qed.

Lemma solve_sequence_total outlvl (blk : StateBlock) :
  blk ≠ [] → Forall (λ kb, equipped kb.2) blk →
  ∃ blkF tr, solve_sequence solver outlvl blk = Ok (blkF, tr).
Proof.
  intros Hne HF. unfold solve_sequence.
  pose proof (for_each_pure_Forall (set_active_in deactivated_for_first_solve false)
                _ _ blk (equipped_set_active_in _ _) HF) as F1.
  destruct (last (for_each_pure (set_active_in deactivated_for_first_solve false) blk))
    as [kb|] eqn:Hlast.
  2:{ apply last_None in Hlast. unfold for_each_pure in Hlast.
      by apply fmap_nil_inv in Hlast. }
  cbn [from_option mbind Res_bind].
  set (st1 := if two_phase (has_phase_equilibrium kb.2) (params kb.2)
              then solve_step solver outlvl 1 _ else _).
  assert (Forall (λ kb, equipped kb.2) st1.1) as FS1.
  { unfold st1. destruct (two_phase _ _); [|done]. by apply solve_step_equipped. }
  destruct (for_each_Forall (λ _, activate_balances) _ equipped st1.1
              (λ _, activate_balances_total) FS1) as (blk2 & -> & F2 & _).
  cbn [mbind Res_bind].
  set (st2 := solve_step solver outlvl 2 (blk2, st1.2)).
  assert (Forall (λ kb, equipped kb.2) st2.1) as FS2 by by apply solve_step_equipped.
  pose proof (for_each_pure_Forall activate_interaction _ _ st2.1
                equipped_activate_interaction FS2) as F3.
  set (st3 := solve_step solver outlvl 3 (for_each_pure activate_interaction st2.1, st2.2)).
  assert (Forall (λ kb, equipped kb.2) st3.1) as FS3 by by apply solve_step_equipped.
  destruct (for_each_Forall (λ _, activate_activity) _ equipped st3.1
              (λ _, activate_activity_total) FS3) as (blk4 & -> & F4 & _).
  cbn [mbind Res_bind].
  set (st4 := solve_step solver outlvl 4 (blk4, st3.2)).
  assert (Forall (λ kb, equipped kb.2) st4.1) as FS4 by by apply solve_step_equipped.
  pose proof (for_each_pure_Forall (set_active_in enthalpy_constraints true) _ _ st4.1
                (equipped_set_active_in _ _) FS4) as F5.
  set (st5 := solve_step solver outlvl 5
                (for_each_pure (set_active_in enthalpy_constraints true) st4.1, st4.2)).
  assert (Forall (λ kb, equipped kb.2) st5.1) as FS5 by by apply solve_step_equipped.
  destruct (for_each_Forall (λ _, outlet_constraint true) _ equipped st5.1
              (λ _, outlet_constraint_total true) FS5) as (blk6 & -> & F6 & _).
  cbn [mbind Res_bind]. by eexists _, _.
Qed.

(** [initialize] returns on every non-empty indexed block whose data
    objects have the components it refers to, given a [mole_frac] argument
    that covers the components and, with [state_vars_fixed], zero degrees of
    freedom once the outlet constraints are off. *)
Lemma initialize_total blk fm mf T P hold svf outlvl :
  blk ≠ [] → NoDup blk.*1 →
  Forall (λ kb, NoDup (component_list (params kb.2))) blk →
  Forall (λ kb, equipped kb.2) blk →
  (svf = true → ∀ blk0, for_each (λ _, outlet_constraint false) blk = Ok blk0 →
                 Forall (λ kb, degrees_of_freedom kb.2 = 0%Z) blk0) →
  (svf = false → Forall (λ kb, has_state_vars kb.2 ∧ covers mf kb.2) blk) →
  ∃ r blk1 tr,
    initialize degrees_of_freedom solver blk fm mf T P hold svf outlvl = Ok (r, blk1, tr).
Proof.
  intros Hne Hk Hcl HE Hdof Hmode.
  destruct (for_each_Forall (λ _, outlet_constraint false) _ equipped blk
              (λ _, outlet_constraint_total false) HE) as (blk0 & H0 & F0 & L0).
  assert (blk0 ≠ []) as Hne0.
  { intros ->. destruct blk; [done|]. simpl in L0. lia. }
  destruct svf.
  - unfold initialize. rewrite H0. cbn [mbind Res_bind].
    rewrite (proj2 (check_dof_Ok degrees_of_freedom solver blk0) (Hdof eq_refl _ H0)).
    cbn [mbind Res_bind].
    destruct (solve_sequence_total outlvl blk0 Hne0 F0) as (blkF & tr & ->).
    cbn [mbind Res_bind]. by eexists _, _, _.
  - specialize (Hmode eq_refl).
    assert (Forall (λ kb, has_state_vars kb.2 ∧ covers mf kb.2) blk0) as Hs0.
    { apply Forall_lookup. intros p [k b0] Hp0.
      assert (is_Some (blk !! p)) as [[k' b] Hp].
      { apply lookup_lt_is_Some. rewrite <- L0. by eapply lookup_lt_Some. }
      destruct (for_each_lookup _ _ _ _ _ _ H0 Hp) as (b0' & Hp0' & [T0 _]%outlet_constraint_spec).
      rewrite Hp0 in Hp0'. injection Hp0' as <- <-.
      rewrite Forall_lookup in Hmode. destruct (Hmode _ _ Hp) as [Hs Hc]. simpl in *. split.
      - by eapply has_state_vars_transforms.
      - unfold covers. by rewrite (tf_params _ _ _ _ T0). }
    destruct (hold_state_vars_total fm mf T P blk0 no_flags Hs0) as (fl & blkH & HH).
    pose proof (hold_state_vars_equipped _ _ _ _ _ _ _ _ HH F0) as FH.
    assert (blkH ≠ []) as HneH.
    { intros ->. apply hold_state_vars_length in HH. destruct blk0; [done|]. simpl in HH. lia. }
    destruct (solve_sequence_total outlvl blkH HneH FH) as (blkF & tr & HS).
    assert (initialize degrees_of_freedom solver blk fm mf T P true false outlvl
            = Ok (Some fl, blkF, tr)) as Hhold.
    { unfold initialize. rewrite H0. cbn [mbind Res_bind]. rewrite HH. cbn [mbind Res_bind].
      rewrite HS. done. }
    destruct hold; [by eexists _, _, _|].
    destruct (roundtrip_general degrees_of_freedom solver _ _ _ _ _ _ 0%Z _ _ _ Hk Hcl Hhold)
      as (blk2 & tr' & HR & _).
    unfold initialize. rewrite H0. cbn [mbind Res_bind]. rewrite HH. cbn [mbind Res_bind].
    rewrite HS. cbn [mbind Res_bind]. rewrite HR. cbn [mbind Res_bind]. by eexists _, _, _.
Qed.

End Total.

Ltac extends_build :=
  repeat match goal with
         | |- extends _ (if ?c then _ else _) => destruct c
         | |- extends _ (_make_vap_phase_eq _) =>
             eapply extends_trans; [|apply extends_make_vap_phase_eq]
         | |- extends _ (_make_liq_phase_eq _) =>
             eapply extends_trans; [|apply extends_make_liq_phase_eq]
         | |- extends _ (_make_flash_eq _) =>
             eapply extends_trans; [|apply extends_make_flash_eq]
         | |- extends _ (_make_Wilson_eq _) =>
             eapply extends_trans; [|apply extends_make_Wilson_eq]
         | |- extends _ (_make_NRTL_eq _) =>
             eapply extends_trans; [|apply extends_make_NRTL_eq]
         | |- extends _ (_make_vars _) => apply extends_make_vars
         | |- extends _ (add_con _ _ relation _) =>
             eapply extends_trans; [|apply extends_add_con_relation]
         end.

(** What [build] returns is equipped for [initialize] unless it is a
    single-phase block with a non-ideal model, and has its state
    variables. *)
Lemma build_equipped p defined has_pe b :
  build p defined has_pe = Ok b →
  activity_coeff_model p = Ideal ∨ two_phase has_pe p = true →
  equipped b.
Proof.
  intros Hb Hm. destruct (build_config _ _ _ _ Hb) as (Hp & Hd & Hpe). split.
  - rewrite Hd. intros ->. revert Hb. unfold build.
    destruct (has_pe && _) eqn:E0; [done|]. intros [= <-]. cbv zeta.
    assert (∀ X, extends (_make_state_vars (mkBlock p false has_pe ∅ ∅)) X →
                 defined_state X = false) as HD.
    { by intros X [_ HX _ _ _ _]. }
    destruct (negb has_pe && bool_decide (valid_phase p = Vap)) eqn:EV.
    { unfold _make_vap_phase_eq. apply make_mol_frac_out_declares, HD. extends_build. }
    destruct (two_phase has_pe p) eqn:E2.
    { apply make_flash_eq_declares, HD. extends_build. }
    destruct (negb has_pe && bool_decide (valid_phase p = Liq)) eqn:EL.
    { unfold _make_liq_phase_eq. apply make_mol_frac_out_declares, HD. extends_build. }
    exfalso. unfold two_phase in E2. destruct has_pe; [done|]. simpl in *.
    destruct (valid_phase p); done.
  - unfold not_ideal. rewrite Hp. intros Hn%bool_decide_eq_true.
    destruct Hm as [Hm|H2]; [done|].
    rewrite (build_two_phase _ _ _ _ Hb H2). cbv zeta.
    set (b0 := _make_vars _).
    assert (∃ x, (if bool_decide (activity_coeff_model p = Wilson)
                  then _make_Wilson_eq
                         (if bool_decide (activity_coeff_model p = NRTL)
                          then _make_NRTL_eq b0 else b0)
                  else if bool_decide (activity_coeff_model p = NRTL)
                       then _make_NRTL_eq b0 else b0) = make_activity_eqs x) as (x & ->).
    { destruct (activity_coeff_model p) eqn:E; [done| |].
      - rewrite bool_decide_eq_false_2, bool_decide_eq_true_2 by done. by eexists.
      - rewrite bool_decide_eq_true_2, bool_decide_eq_false_2 by done. by eexists. }
    destruct (make_activity_eqs_declares x) as [Hv Hc]. split.
    + by apply (ext_var_obj _ _ (extends_make_flash_eq _)).
    + by apply (ext_con_obj _ _ (extends_make_flash_eq _)).
Qed.

Lemma build_has_state_vars p defined has_pe b :
  build p defined has_pe = Ok b → has_state_vars b.
Proof.
  intros Hb n i. destruct (build_config _ _ _ _ Hb) as (-> & _). intros Hin.
  by rewrite (build_state_vars _ _ _ _ _ _ Hb Hin).
Qed.


Lemma solver_calls_app tr1 tr2 :
  solver_calls (tr1 ++ tr2) = solver_calls tr1 ++ solver_calls tr2.
Proof. apply filter_app. Qed.

Lemma solver_calls_logs tr : forallb is_log tr = true → solver_calls tr = [].
Proof.
  induction tr as [|e tr IH]; [done|]. simpl. intros [He Htr]%andb_true_iff.
  unfold solver_calls. rewrite filter_cons_False by by rewrite He. by apply IH.
Qed.

Lemma flag_of_no_flags k n i : flag_of no_flags k n i = None.
Proof.
  unfold flag_of, no_flags. simpl. repeat case_decide; try done;
    by destruct i as [|j [|??]].
Qed.

Section More.
Context (degrees_of_freedom : BlockData → Z).
Context (solver : nat → StateBlock → SolverResults).

(** [initialize] with [hold_state=False] is [initialize] with
    [hold_state=True] followed by [release_state] on the flags it returns,
    and then the closing log record. *)
Lemma initialize_release_iff blk fm mf T P outlvl r blk2 tr :
  initialize degrees_of_freedom solver blk fm mf T P false false outlvl = Ok (r, blk2, tr) ↔
  r = None ∧
  ∃ fl blk1 tr1,
    initialize degrees_of_freedom solver blk fm mf T P true false outlvl
      = Ok (Some fl, blk1, tr1) ∧
    release_state blk1 (Some fl) 0 = Ok (blk2, []) ∧
    tr = tr1 ++ (if (0 <? outlvl)%Z then [Log INFO initialisation_completed] else []).
Proof.
  split.
  - intros H. pose proof H as H'.
    apply initialize_hold_inv in H'
      as (blk0 & blkH & fl & blkF & tr0 & H0 & HH & HS & rel & HR & -> & ->).
    split; [done|]. exists fl, blkF, tr0.
    assert (rel = []) as ->.
    { simpl in HR. by apply bind_Ok in HR as (? & _ & [= _ <-]). }
    split_and!; try done.
    unfold initialize. rewrite H0. simpl. rewrite HH. simpl. by rewrite HS.
  - intros (-> & fl & blk1 & tr1 & H & HR & ->). pose proof H as H'.
    apply initialize_hold_inv in H'
      as (blk0 & blkH & fl' & blkF & tr0 & H0 & HH & HS & [= <-] & -> & ->).
    unfold initialize. rewrite H0. cbn [mbind Res_bind]. rewrite HH. cbn [mbind Res_bind].
    rewrite HS. cbn [mbind Res_bind]. rewrite HR. done.
Qed.

Lemma solve_step_calls outlvl n (st : StateBlock * list Event) :
  (solve_step solver outlvl n st).1 = load_solution (solver n st.1) st.1 ∧
  solver_calls (solve_step solver outlvl n st).2 =
    solver_calls st.2 ++ [Solve n st.1 (termination_condition (solver n st.1))].
Proof.
  unfold solve_step. cbn [fst snd]. split; [done|].
  rewrite solver_calls_app. f_equal. unfold solver_calls.
  rewrite filter_cons_True by done. f_equal.
  apply solver_calls_logs, report_logs.
Qed.

Lemma solve_sequence_log_free outlvl outlvl' (blk : StateBlock) :
  same_outcome (λ x y, x.1 = y.1 ∧ solver_calls x.2 = solver_calls y.2)
    (solve_sequence solver outlvl blk) (solve_sequence solver outlvl' blk).
Proof.
  unfold solve_sequence.
  destruct (last (for_each_pure (set_active_in deactivated_for_first_solve false) blk))
    as [kb|]; [|done].
  cbn [from_option mbind Res_bind].
  set (blk1 := for_each_pure (set_active_in deactivated_for_first_solve false) blk).
  set (st1 := if two_phase (has_phase_equilibrium kb.2) (params kb.2)
              then solve_step solver outlvl 1 (blk1, [])
              else (blk1, if (0 <? outlvl)%Z then [Log INFO (step_skipped 1)] else [])).
  set (st1' := if two_phase (has_phase_equilibrium kb.2) (params kb.2)
               then solve_step solver outlvl' 1 (blk1, [])
               else (blk1, if (0 <? outlvl')%Z then [Log INFO (step_skipped 1)] else [])).
  assert (st1.1 = st1'.1 ∧ solver_calls st1.2 = solver_calls st1'.2) as [E1 C1].
  { unfold st1, st1'. destruct (two_phase _ _).
    - destruct (solve_step_calls outlvl 1 (blk1, [])) as [-> ->].
      by destruct (solve_step_calls outlvl' 1 (blk1, [])) as [-> ->].
    - split; [done|]. by destruct (0 <? outlvl)%Z, (0 <? outlvl')%Z. }
  rewrite <- E1. destruct (for_each (λ _, activate_balances) st1.1) as [blk2|e]; [|done].
  cbn [mbind Res_bind].
  set (st2 := solve_step solver outlvl 2 (blk2, st1.2)).
  set (st2' := solve_step solver outlvl' 2 (blk2, st1'.2)).
  assert (st2.1 = st2'.1 ∧ solver_calls st2.2 = solver_calls st2'.2) as [E2 C2].
  { unfold st2, st2'.
    destruct (solve_step_calls outlvl 2 (blk2, st1.2)) as [-> ->].
    destruct (solve_step_calls outlvl' 2 (blk2, st1'.2)) as [-> ->].
    cbn [fst snd]. by rewrite C1. }
  rewrite <- E2.
  set (blk3 := for_each_pure activate_interaction st2.1).
  set (st3 := solve_step solver outlvl 3 (blk3, st2.2)).
  set (st3' := solve_step solver outlvl' 3 (blk3, st2'.2)).
  assert (st3.1 = st3'.1 ∧ solver_calls st3.2 = solver_calls st3'.2) as [E3 C3].
  { unfold st3, st3'.
    destruct (solve_step_calls outlvl 3 (blk3, st2.2)) as [-> ->].
    destruct (solve_step_calls outlvl' 3 (blk3, st2'.2)) as [-> ->].
    cbn [fst snd]. by rewrite C2. }
  rewrite <- E3. destruct (for_each (λ _, activate_activity) st3.1) as [blk4|e]; [|done].
  cbn [mbind Res_bind].
  set (st4 := solve_step solver outlvl 4 (blk4, st3.2)).
  set (st4' := solve_step solver outlvl' 4 (blk4, st3'.2)).
  assert (st4.1 = st4'.1 ∧ solver_calls st4.2 = solver_calls st4'.2) as [E4 C4].
  { unfold st4, st4'.
    destruct (solve_step_calls outlvl 4 (blk4, st3.2)) as [-> ->].
    destruct (solve_step_calls outlvl' 4 (blk4, st3'.2)) as [-> ->].
    cbn [fst snd]. by rewrite C3. }
  rewrite <- E4.
  set (blk5 := for_each_pure (set_active_in enthalpy_constraints true) st4.1).
  set (st5 := solve_step solver outlvl 5 (blk5, st4.2)).
  set (st5' := solve_step solver outlvl' 5 (blk5, st4'.2)).
  assert (st5.1 = st5'.1 ∧ solver_calls st5.2 = solver_calls st5'.2) as [E5 C5].
  { unfold st5, st5'.
    destruct (solve_step_calls outlvl 5 (blk5, st4.2)) as [-> ->].
    destruct (solve_step_calls outlvl' 5 (blk5, st4'.2)) as [-> ->].
    cbn [fst snd]. by rewrite C4. }
  rewrite <- E5. destruct (for_each (λ _, outlet_constraint true) st5.1) as [blk6|e]; [|done].
  cbn [mbind Res_bind same_outcome fst snd]. done.
Qed.

(** [outlvl] changes nothing but the log: with another value [initialize]
    raises the same exception, or returns the same flags and the same
    block after the same solver calls on the same blocks. *)
Lemma initialize_log_free blk fm mf T P hold svf outlvl outlvl' :
  same_outcome same_but_log
    (initialize degrees_of_freedom solver blk fm mf T P hold svf outlvl)
    (initialize degrees_of_freedom solver blk fm mf T P hold svf outlvl').
Proof.
  unfold initialize.
  destruct (for_each (λ _, outlet_constraint false) blk) as [blk0|e]; [|done].
  cbn [mbind Res_bind].
  match goal with
  | |- same_outcome _ (?m ≫= _) _ => destruct m as [[flags blkH]|e]; [|done]
  end.
  cbn [mbind Res_bind].
  pose proof (solve_sequence_log_free outlvl outlvl' blkH) as HS.
  destruct (solve_sequence solver outlvl blkH) as [[blkF tr]|e],
    (solve_sequence solver outlvl' blkH) as [[blkF' tr']|e']; try done.
  simpl in HS. destruct HS as [<- HC]. cbn [mbind Res_bind].
  destruct svf.
  - unfold same_but_log. simpl. split_and!; try done.
    rewrite !solver_calls_app, HC. f_equal.
    by destruct (0 <? outlvl)%Z, (0 <? outlvl')%Z.
  - destruct hold; [done|].
    destruct (release_state blkF flags 0) as [[blk2 rel]|e]; [|done].
    unfold same_but_log. simpl. split_and!; try done.
    rewrite !solver_calls_app, HC. do 2 f_equal.
    by destruct (0 <? outlvl)%Z, (0 <? outlvl')%Z.
Qed.

(** The dictionary [initialize] returns with [hold_state=True] records,
    for each key of the block and each state variable, whether the
    variable was fixed before the call, and has no entry for other keys. *)
Lemma initialize_flags_general blk fm mf T P outlvl r blk1 tr :
  NoDup blk.*1 → Forall (λ kb, NoDup (component_list (params kb.2))) blk →
  initialize degrees_of_freedom solver blk fm mf T P true false outlvl = Ok (r, blk1, tr) →
  ∃ fl, r = Some fl ∧
    (∀ p k b n i, blk !! p = Some (k, b) →
       (n, i) ∈ state_vars (component_list (params b)) →
       ∃ d, lookup_var b n i = Some d ∧ flag_of fl k n i = Some (fixed d)) ∧
    (∀ k n i, k ∉ blk.*1 → flag_of fl k n i = None).
Proof.
  intros Hk Hcl H. pose proof H as H'.
  apply initialize_hold_inv in H'
    as (blk0 & blkH & fl & blkF & tr0 & H0 & HH & HS & -> & -> & ->).
  exists fl. split; [done|].
  assert (NoDup blk0.*1) as Hk0 by by rewrite (for_each_keys _ _ _ H0).
  assert (Forall (λ kb, NoDup (component_list (params kb.2))) blk0) as Hcl0.
  { apply Forall_lookup. intros p [k b0] Hp0.
    assert (is_Some (blk !! p)) as [[k' b] Hp].
    { apply lookup_lt_is_Some. rewrite <- (for_each_length _ _ _ H0). by eapply lookup_lt_Some. }
    destruct (for_each_lookup _ _ _ _ _ _ H0 Hp) as (b0' & Hp0' & [T0 _]%outlet_constraint_spec).
    rewrite Hp0 in Hp0'. injection Hp0' as <- <-. simpl. rewrite (tf_params _ _ _ _ T0).
    rewrite Forall_lookup in Hcl. exact (Hcl _ _ Hp). }
  destruct (hold_state_vars_spec _ _ _ _ _ _ _ _ HH Hk0 Hcl0) as (Hother & _ & Hpos).
  split.
  - intros p k b n i Hp Hin.
    destruct (for_each_lookup _ _ _ _ _ _ H0 Hp) as (b0 & Hp0 & [T0 _]%outlet_constraint_spec).
    destruct (Hpos _ _ _ Hp0) as (bH & _ & _ & Hfl).
    rewrite (tf_params _ _ _ _ T0) in Hfl. destruct (Hfl _ _ Hin) as [Hf Hs].
    rewrite (tf_var _ _ _ _ T0) in Hf, Hs.
    destruct (lookup_var b n i) as [d|]; [|by destruct Hs]. exists d. by rewrite Hf.
  - intros k n i Hk'. rewrite Hother by by rewrite (for_each_keys _ _ _ H0).
    apply flag_of_no_flags.
Qed.

End More.

(** [release_state]: with no flags it does nothing; with flags it unfixes
    the state variables flagged [False] and changes nothing else. *)
Lemma release_state_effect (blk : StateBlock) flags outlvl blk' tr :
  release_state blk flags outlvl = Ok (blk', tr) →
  match flags with
  | None => blk' = blk ∧ tr = []
  | Some fl =>
      tr = (if (0 <? outlvl)%Z then [Log INFO state_released] else []) ∧
      length blk' = length blk ∧
      ∀ p k b, blk !! p = Some (k, b) →
        ∃ b', blk' !! p = Some (k, b') ∧
          (∀ n i, lookup_var b' n i =
             (λ d, if bool_decide ((n, i) ∈ state_vars (component_list (params b)))
                      && bool_decide (flag_of fl k n i = Some false)
                   then mkVar (value d) false else d) <$> lookup_var b n i) ∧
          (∀ c i, lookup_con b' c i = lookup_con b c i)
  end.
Proof.
  unfold release_state. destruct flags as [fl|]; [|by intros [= <- <-]].
  intros (blk2 & HR & [= <- <-])%bind_Ok. split_and!; [done|by eapply for_each_length|].
  intros p k b Hp. destruct (for_each_lookup _ _ _ _ _ _ HR Hp) as (b' & Hp' & Hb').
  exists b'. split; [done|]. apply release_block_spec in Hb'. split.
  - intros n i. by rewrite (tf_var _ _ _ _ Hb').
  - intros c i. rewrite (tf_con _ _ _ _ Hb'). by destruct (lookup_con b c i).
Qed.


End ActivityCoeffMore.

(** * The flowsheet: further lemmas *)

Module FlowsheetMore.
Import Flowsheet FlowsheetFacts.

Ltac split_writes v i :=
  repeat match goal with
         | |- context [selects ?p ?s v i] => destruct (selects p s v i)
         | |- context [path_eqb ?p v] => destruct (path_eqb p v)
         end.

(** [set_model_input] on any model: the flags and values it leaves are
    those it gives a freshly declared model, laid over the model's own. *)
Lemma set_model_input_overlay (m : Model) (v : Path) (i : Idx) :
  fixed (set_model_input m) v i = fixed (set_model_input declared) v i || fixed m v i ∧
  value (set_model_input m) v i =
    from_option Some (value m v i) (value (set_model_input declared) v i) ∧
  active (set_model_input m) v i = active m v i ∧
  fixed (set_model_input (set_model_input m)) v i = fixed (set_model_input m) v i ∧
  value (set_model_input (set_model_input m)) v i = value (set_model_input m) v i.
Proof.
  split_and!.
  - unfold set_model_input, statements, fix_var, set_value, declared.
    cbn [foldl fixed]. split_writes v i; reflexivity.
  - unfold set_model_input, statements, fix_var, set_value, declared.
    cbn [foldl value]. split_writes v i; reflexivity.
  - reflexivity.
  - unfold set_model_input, statements, fix_var, set_value.
    cbn [foldl fixed]. split_writes v i; reflexivity.
  - unfold set_model_input, statements, fix_var, set_value.
    cbn [foldl value]. split_writes v i; reflexivity.
Qed.


Lemma acts_fix_var p s q :
  acts_on_fixed (fix_var p s q) (λ v i x, if selects p s v i then true else x).
Proof. done. Qed.
Lemma acts_unfix_var p s :
  acts_on_fixed (unfix_var p s) (λ v i x, if selects p s v i then false else x).
Proof. done. Qed.
Lemma acts_unfix_port port :
  acts_on_fixed (unfix_port port) (λ v i x, if port_member port v then false else x).
Proof. done. Qed.
Lemma acts_activate c : acts_on_fixed (activate c) (λ _ _ x, x).
Proof. done. Qed.
Lemma acts_deactivate c : acts_on_fixed (deactivate c) (λ _ _ x, x).
Proof. done. Qed.
Lemma active_fix_var p s q : acts_on_active (fix_var p s q) (λ _ _ x, x).
Proof. done. Qed.
Lemma active_unfix_var p s : acts_on_active (unfix_var p s) (λ _ _ x, x).
Proof. done. Qed.
Lemma active_unfix_port port : acts_on_active (unfix_port port) (λ _ _ x, x).
Proof. done. Qed.
Lemma acts_nil flag : acts_on flag (statements []) (λ _ _ x, x).
Proof. done. Qed.
Lemma acts_cons flag f l g G :
  acts_on flag f g → acts_on flag (statements l) G →
  acts_on flag (statements (f :: l)) (λ v i x, G v i (g v i x)).
Proof. intros Hf Hl m v i. unfold statements. simpl. by rewrite (Hl (f m)), Hf. Qed.
Lemma acts_cons_id flag f l G :
  acts_on flag f (λ _ _ x, x) → acts_on flag (statements l) G →
  acts_on flag (statements (f :: l)) G.
Proof. intros Hf Hl m v i. unfold statements. simpl. by rewrite (Hl (f m)), Hf. Qed.

Lemma acts_ext flag f g g' :
  acts_on flag f g → (∀ v i x, g v i x = g' v i x) → acts_on flag f g'.
Proof. intros Hf Hg m v i. by rewrite Hf, Hg. Qed.

(** A variable selected by a statement on a member of a port is a member of
    that port. *)
Lemma selects_member p s v i port :
  port_member port p = true → selects p s v i = true → port_member port v = true.
Proof.
  unfold selects. intros Hp [->%FlowsheetTheorems.path_eqb_eq _]%andb_true_iff. done.
Qed.

Ltac absorb port :=
  repeat match goal with
         | |- context [selects ?p ?s ?v ?i] =>
             let S := fresh "S" in
             destruct (selects p s v i) eqn:S;
             [exfalso; pose proof (selects_member p s v i port eq_refl S); congruence|]
         end.

Section Initialize.
Context (calculate_scaling_factors : Model → Model).
Context (unit_initialize : string → Model → Model).
Context (_set_port : Path → Path → Model → Model).
Context (solver : Model → SolverResults).

Hypothesis scaling_fixed : ∀ m v i, fixed (calculate_scaling_factors m) v i = fixed m v i.
Hypothesis unit_fixed : ∀ u m v i, fixed (unit_initialize u m) v i = fixed m v i.
Hypothesis port_fixed : ∀ a b m v i, fixed (_set_port a b m) v i = fixed m v i.
Hypothesis scaling_active : ∀ m v i, active (calculate_scaling_factors m) v i = active m v i.
Hypothesis unit_active : ∀ u m v i, active (unit_initialize u m) v i = active m v i.
Hypothesis port_active : ∀ a b m v i, active (_set_port a b m) v i = active m v i.

Ltac acts :=
  repeat first
    [ exact (acts_nil _)
    | apply acts_cons_id; [first [exact (unit_fixed _) | exact (port_fixed _ _)
                                 | exact scaling_fixed
                                 | exact (acts_activate _) | exact (acts_deactivate _)]|]
    | apply acts_cons; [first [exact (acts_fix_var _ _ _) | exact (acts_unfix_var _ _)
                              | exact (acts_unfix_port _)]|] ].

Lemma acts_initialize_boiler :
  acts_on_fixed (initialize_boiler unit_initialize)
    (λ v _ x, if path_eqb ["boiler"; "inlet"; "pressure"] v
                 || path_eqb ["boiler"; "inlet"; "enth_mol"] v then false else x).
Proof.
  eapply acts_ext; [unfold initialize_boiler; acts|].
  intros v i x. cbn beta. unfold selects. cbn [in_slice]. rewrite !andb_true_r.
  by destruct (path_eqb _ v), (path_eqb _ v).
Qed.

Lemma acts_initialize_turbine_train :
  acts_on_fixed (initialize_turbine_train unit_initialize _set_port) (λ _ _ x, x).
Proof. unfold initialize_turbine_train. acts. Qed.

Lemma acts_initialize_condenser :
  acts_on_fixed (initialize_condenser unit_initialize _set_port)
    (λ v _ x, if port_member ["condenser_mix"; "drain"] v then false else x).
Proof.
  eapply acts_ext; [unfold initialize_condenser; acts|].
  intros v i x. cbn beta.
  destruct (port_member ["condenser_mix"; "drain"] v) eqn:E; [done|].
  absorb ["condenser_mix"; "drain"]. done.
Qed.

Lemma acts_initialize_low_pressure_fwh :
  acts_on_fixed (initialize_low_pressure_fwh unit_initialize _set_port)
    (λ v _ x, if port_member ["fwh1_mix"; "drain"] v || port_member ["fwh2_mix"; "drain"] v
                 || port_member ["fwh2_mix"; "steam"] v || port_member ["fwh3_mix"; "drain"] v
              then false else x).
Proof.
  eapply acts_ext; [unfold initialize_low_pressure_fwh; acts|].
  intros v i x. cbn beta.
  destruct (port_member ["fwh3_mix"; "drain"] v) eqn:E3; [by rewrite !orb_true_r|].
  absorb ["fwh3_mix"; "drain"].
  destruct (port_member ["fwh2_mix"; "steam"] v) eqn:E2s; [by rewrite !orb_true_r|].
  destruct (port_member ["fwh2_mix"; "drain"] v) eqn:E2; [by rewrite !orb_true_r|].
  absorb ["fwh2_mix"; "drain"].
  destruct (port_member ["fwh1_mix"; "drain"] v) eqn:E1; [done|].
  absorb ["fwh1_mix"; "drain"]. done.
Qed.

Lemma acts_initialize_deaerator_and_pump :
  acts_on_fixed (initialize_deaerator_and_pump unit_initialize _set_port)
    (λ v _ x, if port_member ["fwh5_da"; "drain"] v then false else x).
Proof.
  eapply acts_ext; [unfold initialize_deaerator_and_pump; acts|].
  intros v i x. cbn beta.
  destruct (port_member ["fwh5_da"; "drain"] v) eqn:E; [done|].
  absorb ["fwh5_da"; "drain"]. done.
Qed.

Lemma acts_initialize_high_pressure_fwh :
  acts_on_fixed (initialize_high_pressure_fwh unit_initialize _set_port)
    (λ v _ x, if port_member ["fwh6_mix"; "drain"] v || port_member ["fwh7_mix"; "drain"] v
                 || port_member ["fwh8"; "inlet_1"] v then false else x).
Proof.
  eapply acts_ext; [unfold initialize_high_pressure_fwh; acts|].
  intros v i x. cbn beta.
  destruct (port_member ["fwh8"; "inlet_1"] v) eqn:E8; [by rewrite !orb_true_r|].
  destruct (port_member ["fwh7_mix"; "drain"] v) eqn:E7; [by rewrite !orb_true_r|].
  absorb ["fwh7_mix"; "drain"].
  destruct (port_member ["fwh6_mix"; "drain"] v) eqn:E6; [done|].
  absorb ["fwh6_mix"; "drain"]. done.
Qed.

Lemma acts_initialize_units :
  acts_on_fixed (initialize_units unit_initialize _set_port)
    (λ v _ x, if existsb (λ port, port_member port v) released_ports then false else x).
Proof.
  eapply acts_ext.
  { unfold initialize_units.
    apply acts_cons_id; [exact acts_initialize_turbine_train|].
    apply acts_cons; [exact acts_initialize_condenser|].
    apply acts_cons; [exact acts_initialize_low_pressure_fwh|].
    apply acts_cons; [exact acts_initialize_deaerator_and_pump|].
    apply acts_cons; [exact acts_initialize_high_pressure_fwh|].
    exact (acts_nil _). }
  intros v i x. cbn beta. unfold released_ports. cbn [existsb].
  destruct (port_member ["condenser_mix"; "drain"] v),
    (port_member ["fwh1_mix"; "drain"] v), (port_member ["fwh2_mix"; "drain"] v),
    (port_member ["fwh2_mix"; "steam"] v), (port_member ["fwh3_mix"; "drain"] v),
    (port_member ["fwh5_da"; "drain"] v), (port_member ["fwh6_mix"; "drain"] v),
    (port_member ["fwh7_mix"; "drain"] v), (port_member ["fwh8"; "inlet_1"] v);
    reflexivity.
Qed.

Lemma acts_before_final_solve :
  acts_on_fixed (before_final_solve calculate_scaling_factors unit_initialize _set_port)
    (λ v i x, if freed_by_initialize v i then false else x).
Proof.
  eapply acts_ext.
  { unfold before_final_solve.
    apply acts_cons_id; [exact scaling_fixed|].
    apply acts_cons; [exact acts_initialize_boiler|].
    apply (acts_cons _ _ _ (λ v i x, if is_assumed v i then true else x));
      [exact fixed_fix_split_fractions|].
    apply acts_cons_id; [intros m v i; by rewrite fixed_deactivate_constraints|].
    apply acts_cons; [exact acts_initialize_units|].
    apply (acts_cons _ _ _ (λ v i x, if is_assumed v i then false else x));
      [exact fixed_unfix_split_fractions|].
    apply acts_cons_id; [intros m v i; by rewrite fixed_activate_constraints|].
    exact (acts_nil _). }
  intros v i x. cbn beta. unfold freed_by_initialize.
  destruct (is_assumed v i), (path_eqb ["boiler"; "inlet"; "pressure"] v),
    (path_eqb ["boiler"; "inlet"; "enth_mol"] v),
    (existsb (λ port, port_member port v) released_ports); reflexivity.
Qed.

Ltac quiet :=
  repeat first
    [ exact (acts_nil _)
    | apply acts_cons_id; [first [exact (unit_active _) | exact (port_active _ _)
                                 | exact scaling_active | exact (active_fix_var _ _ _)
                                 | exact (active_unfix_var _ _)
                                 | exact (active_unfix_port _)]|] ].

Lemma active_initialize_units :
  acts_on_active (initialize_units unit_initialize _set_port) (λ _ _ x, x).
Proof.
  unfold initialize_units.
  apply acts_cons_id; [unfold initialize_turbine_train; quiet|].
  apply acts_cons_id; [unfold initialize_condenser; quiet|].
  apply acts_cons_id; [unfold initialize_low_pressure_fwh; quiet|].
  apply acts_cons_id; [unfold initialize_deaerator_and_pump; quiet|].
  apply acts_cons_id; [unfold initialize_high_pressure_fwh; quiet|].
  exact (acts_nil _).
Qed.

Lemma active_before_final_solve :
  acts_on_active (before_final_solve calculate_scaling_factors unit_initialize _set_port)
    (λ c _ x, if is_decoupled c then true else x).
Proof.
  eapply acts_ext.
  { unfold before_final_solve.
    apply acts_cons_id; [exact scaling_active|].
    apply acts_cons_id; [unfold initialize_boiler; quiet|].
    apply acts_cons_id; [intros m v i; by rewrite active_fix_split_fractions|].
    apply (acts_cons _ _ _ (λ c i x, if is_decoupled c then false else x));
      [exact active_deactivate_constraints|].
    apply acts_cons_id; [exact active_initialize_units|].
    apply acts_cons_id; [intros m v i; by rewrite active_unfix_split_fractions|].
    apply (acts_cons _ _ _ (λ c i x, if is_decoupled c then true else x));
      [exact active_activate_constraints|].
    exact (acts_nil _). }
  intros c i x. cbn beta. by destruct (is_decoupled c).
Qed.

(** The flags [initialize] leaves, when the scaling routine, the unit
    initialisers and the port copies leave every flag as they found it. *)
Lemma flags_initialize m v i :
  let m' := (initialize calculate_scaling_factors unit_initialize _set_port solver m).1 in
  fixed m' v i = (if freed_by_initialize v i then false else fixed m v i) ∧
  active m' v i = (if is_decoupled v then true else active m v i).
Proof.
  cbv zeta.
  pose proof (initialize_flags calculate_scaling_factors unit_initialize _set_port solver m)
    as H.
  cbv zeta in H. destruct H as [-> ->]. split.
  - exact (acts_before_final_solve m v i).
  - exact (active_before_final_solve m v i).
Qed.

End Initialize.


(** No input of [set_model_input] is among the variables [initialize]
    leaves free. *)
Lemma inputs_not_freed v i :
  fixed (set_model_input declared) v i = true → freed_by_initialize v i = false.
Proof.
  unfold set_model_input, statements, fix_var, set_value, declared. cbn [foldl fixed].
  repeat match goal with
         | |- context [selects ?p ?s v i] =>
             let S := fresh "S" in
             destruct (selects p s v i) eqn:S;
             [apply andb_true_iff in S as [<-%FlowsheetTheorems.path_eqb_eq S]; intros _;
              first [ by vm_compute
                    | destruct i as [|[t|l] [|[t'|l'] [|? ?]]]; cbn [in_slice] in S; try done;
                      apply String.eqb_eq in S as <-; by vm_compute ]|]
         end.
  done.
Qed.

Section Neutral.
Context (calculate_scaling_factors : Model → Model).
Context (unit_initialize : string → Model → Model).
Context (_set_port : Path → Path → Model → Model).
Context (solver : Model → SolverResults).

Hypothesis scaling_fixed : ∀ m v i, fixed (calculate_scaling_factors m) v i = fixed m v i.
Hypothesis unit_fixed : ∀ u m v i, fixed (unit_initialize u m) v i = fixed m v i.
Hypothesis port_fixed : ∀ a b m v i, fixed (_set_port a b m) v i = fixed m v i.
Hypothesis scaling_active : ∀ m v i, active (calculate_scaling_factors m) v i = active m v i.
Hypothesis unit_active : ∀ u m v i, active (unit_initialize u m) v i = active m v i.
Hypothesis port_active : ∀ a b m v i, active (_set_port a b m) v i = active m v i.

(** On a model whose inputs [set_model_input] has set, and in which none
    of the variables [initialize] frees was fixed and the decoupled
    constraints were active, [initialize] returns every flag as it was. *)
Lemma initialize_neutral m0 v i :
  (∀ v i, freed_by_initialize v i = true → fixed m0 v i = false) →
  (∀ c i, is_decoupled c = true → active m0 c i = true) →
  let m := set_model_input m0 in
  let m' := (initialize calculate_scaling_factors unit_initialize _set_port solver m).1 in
  fixed m' v i = fixed m v i ∧ active m' v i = active m v i.
Proof.
  intros Hfree Hact m m'.
  destruct (flags_initialize calculate_scaling_factors unit_initialize _set_port solver
    scaling_fixed unit_fixed port_fixed scaling_active unit_active port_active m v i)
    as [Hf Ha].
  fold m' in Hf, Ha. rewrite Hf, Ha. subst m. split.
  - destruct (freed_by_initialize v i) eqn:E; [|done].
    destruct (set_model_input_overlay m0 v i) as (-> & _).
    rewrite (Hfree _ _ E), orb_false_r.
    destruct (fixed (set_model_input declared) v i) eqn:E'; [|done].
    apply inputs_not_freed in E'. congruence.
  - destruct (is_decoupled v) eqn:E; [|done].
    destruct (set_model_input_overlay m0 v i) as (_ & _ & -> & _). by rewrite Hact.
Qed.

Context (create_model : Model).
Context (degrees_of_freedom : Model → Z).

Hypothesis dof_flags : ∀ m m',
  (∀ v i, fixed m v i = fixed m' v i) → (∀ c i, active m c i = active m' c i) →
  degrees_of_freedom m = degrees_of_freedom m'.

(** [build_plant_model] under these assumptions: the assertion after
    [initialize] cannot fail once the assertion before it has passed. *)
Lemma build_plant_model_asserts :
  (∀ v i, freed_by_initialize v i = true → fixed create_model v i = false) →
  (∀ c i, is_decoupled c = true → active create_model c i = true) →
  build_plant_model calculate_scaling_factors unit_initialize _set_port solver
    create_model degrees_of_freedom =
  if decide (degrees_of_freedom (set_model_input create_model) = 0%Z)
  then Ok (initialize calculate_scaling_factors unit_initialize _set_port solver
             (set_model_input create_model)).1
  else Raise AssertionError.
Proof.
  intros Hfree Hact. unfold build_plant_model. cbv zeta.
  destruct (decide (degrees_of_freedom (set_model_input create_model) = 0%Z)) as [E|E];
    [|done].
  rewrite decide_True; [done|]. rewrite <- E. apply dof_flags.
  - intros v i. exact (proj1 (initialize_neutral create_model v i Hfree Hact)).
  - intros c i. exact (proj2 (initialize_neutral create_model c i Hfree Hact)).
Qed.

End Neutral.


End FlowsheetMore.

(** * The property-package initialiser: further statements *)

Module ActivityCoeffProperties.
Import ActivityCoeff ActivityCoeffFacts Examples ActivityCoeffMore.

Lemma vle_block_keys : NoDup vle_block.*1.
Proof. repeat constructor. apply not_elem_of_nil. Qed.

Lemma vle_block_components :
  Forall (λ kb, NoDup (component_list (params kb.2))) vle_block.
Proof. constructor; [|constructor]. vm_compute. repeat constructor; set_solver. Qed.

Lemma vle_block_ready :
  has_state_vars (built (benzene_toluene NRTL Vap_Liq) true true) ∧
  equipped (built (benzene_toluene NRTL Vap_Liq) true true).
Proof.
  assert (build (benzene_toluene NRTL Vap_Liq) true true =
          Ok (built (benzene_toluene NRTL Vap_Liq) true true)) as Hb
    by (apply ActivityCoeffTheorems.build_Ok; vm_compute; reflexivity).
  split.
  - exact (build_has_state_vars _ _ _ _ Hb).
  - apply (build_equipped _ _ _ _ Hb). right. reflexivity.
Qed.

(** X1.  In the modes that do not hold the state ([hold_state=False], or
    [state_vars_fixed=True]), [initialize] returns no flags and, in every
    data object of an indexed block with distinct keys and component lists
    without repetition, every variable has the [fixed] flag it had before
    the call, except [activity_coeff_comp] of a non-ideal data object, which
    is left free. *)
Theorem fixed_flags_restored_without_hold (degrees_of_freedom : BlockData → Z)
    (solver : nat → StateBlock → SolverResults) blk fm mf T P hold svf outlvl r blk1 tr :
  NoDup blk.*1 → Forall (λ kb, NoDup (component_list (params kb.2))) blk →
  hold = false ∨ svf = true →
  initialize degrees_of_freedom solver blk fm mf T P hold svf outlvl = Ok (r, blk1, tr) →
  r = None ∧ length blk1 = length blk ∧
  ∀ p k b, blk !! p = Some (k, b) →
    ∃ b1, blk1 !! p = Some (k, b1) ∧
      ∀ n i, fixed <$> lookup_var b1 n i =
        (λ d, if not_ideal b && bool_decide (n = "activity_coeff_comp") then false
              else fixed d) <$> lookup_var b n i.
Proof. apply initialize_fixed_flags_other_modes. Qed.

Lemma fixed_flags_restored_without_hold_witness :
  (result vle_run_released).1.1 = None ∧
  length (result vle_run_released).1.2 = length vle_block.
Proof.
  destruct (fixed_flags_restored_without_hold square (reports optimal) vle_block
              None None None None false false 1
              (result vle_run_released).1.1 (result vle_run_released).1.2
              (result vle_run_released).2) as (H1 & H2 & _).
  - exact vle_block_keys.
  - exact vle_block_components.
  - left. reflexivity.
  - apply ActivityCoeffTheorems.result_Ok. vm_compute. reflexivity.
  - split; [exact H1|exact H2].
Defined.

(** X2.  The [active] flag of every constraint of every data object when
    each of the five solves receives the block and when [initialize]
    returns: [eq_total], [eq_comp], [eq_sum_mol_frac] and
    [eq_phase_equilibrium] are off at the first solve and on from the
    second; [eq_Gij_coeff], [eq_A] and [eq_B] are on from the third and
    [eq_activity_coeff] from the fourth solve of a non-ideal data object and
    stay off for an ideal one; [eq_enth_mol_phase] and [eq_entr_mol_phase]
    are on only from the fifth; [eq_mol_frac_out] of a data object that is
    not a defined state is off at every solve and on at return; every other
    constraint keeps the flag it had. *)
Theorem constraint_schedule (degrees_of_freedom : BlockData → Z)
    (solver : nat → StateBlock → SolverResults) blk fm mf T P hold svf outlvl r blk1 tr :
  initialize degrees_of_freedom solver blk fm mf T P hold svf outlvl = Ok (r, blk1, tr) →
  ∀ p k b, blk !! p = Some (k, b) →
    (∀ stage S, (1 ≤ stage ≤ 5)%nat → snapshot stage tr = Some S →
       ∃ s, S !! p = Some (k, s) ∧
         ∀ c i, lookup_con s c i =
           constraint_active_at stage (not_ideal b) (defined_state b) c <$> lookup_con b c i) ∧
    (∃ b1, blk1 !! p = Some (k, b1) ∧
       ∀ c i, lookup_con b1 c i =
         constraint_active_at 6 (not_ideal b) (defined_state b) c <$> lookup_con b c i).
Proof. apply constraint_schedule_general. Qed.

Lemma constraint_schedule_witness :
  ∃ b1, (result vle_run).1.2 !! 0%nat = Some (0%nat, b1) ∧
    ∀ c i, lookup_con b1 c i =
      constraint_active_at 6 (not_ideal (built (benzene_toluene NRTL Vap_Liq) true true))
        (defined_state (built (benzene_toluene NRTL Vap_Liq) true true)) c
      <$> lookup_con (built (benzene_toluene NRTL Vap_Liq) true true) c i.
Proof.
  destruct (constraint_schedule square (reports optimal) vle_block None None None None
              true false 1 (result vle_run).1.1 (result vle_run).1.2 (result vle_run).2
              (ActivityCoeffTheorems.result_Ok vle_run ltac:(vm_compute; reflexivity))
              0%nat 0%nat (built (benzene_toluene NRTL Vap_Liq) true true) eq_refl)
    as [_ H].
  exact H.
Defined.

(** X3.  With [state_vars_fixed=False], in an indexed block with distinct
    keys and component lists without repetition: a state variable the
    caller left free is fixed, when each solve receives the block, at the
    value given for it or at the default of the routine (1 for [flow_mol],
    [1/len(component_list)] for [mole_frac], 101325 for [pressure], 300 for
    [temperature]); on return it is still fixed there with
    [hold_state=True], and is free again with that value with
    [hold_state=False].  A state variable the caller had fixed keeps its
    value and stays fixed. *)
Theorem state_variables_held (degrees_of_freedom : BlockData → Z)
    (solver : nat → StateBlock → SolverResults) blk fm mf T P hold outlvl r blk1 tr :
  NoDup blk.*1 → Forall (λ kb, NoDup (component_list (params kb.2))) blk →
  initialize degrees_of_freedom solver blk fm mf T P hold false outlvl = Ok (r, blk1, tr) →
  ∀ p k b n i, blk !! p = Some (k, b) →
    (n, i) ∈ state_vars (component_list (params b)) →
    let held d := if fixed d then d
                  else mkVar (held_value fm mf T P (component_list (params b)) n i) true in
    (∀ stage S, (1 ≤ stage ≤ 5)%nat → snapshot stage tr = Some S →
       ∃ s, S !! p = Some (k, s) ∧ lookup_var s n i = held <$> lookup_var b n i) ∧
    (∃ b1, blk1 !! p = Some (k, b1) ∧
       lookup_var b1 n i =
         (λ d, if hold then held d else mkVar (value (held d)) (fixed d)) <$> lookup_var b n i).
Proof. apply state_variables_held_general. Qed.

Lemma state_variables_held_witness :
  ∃ b1, (result vle_run).1.2 !! 0%nat = Some (0%nat, b1) ∧
        lookup_var b1 "temperature" [] = Some (mkVar (Some 300%Q) true).
Proof.
  destruct (state_variables_held square (reports optimal) vle_block None None None None
              true 1 (result vle_run).1.1 (result vle_run).1.2 (result vle_run).2
              vle_block_keys vle_block_components
              (ActivityCoeffTheorems.result_Ok vle_run ltac:(vm_compute; reflexivity))
              0%nat 0%nat (built (benzene_toluene NRTL Vap_Liq) true true)
              "temperature" [] eq_refl)
    as [_ (b1 & H1 & H2)].
  - apply elem_of_state_vars. right. right. right. split; reflexivity.
  - exists b1. split; [exact H1|]. rewrite H2.
    assert (lookup_var (built (benzene_toluene NRTL Vap_Liq) true true) "temperature" []
            = Some (mkVar (Some 298.15%Q) false)) as ->
      by (vm_compute; reflexivity).
    reflexivity.
Defined.

(** X4.  A variable the caller had fixed before [initialize] has the same
    value and is still fixed when each solve receives the block and when
    [initialize] returns, whatever the solver returns and in every mode;
    the one exception is [activity_coeff_comp] of a non-ideal data
    object. *)
Theorem fixed_variables_untouched (degrees_of_freedom : BlockData → Z)
    (solver : nat → StateBlock → SolverResults) blk fm mf T P hold svf outlvl r blk1 tr :
  NoDup blk.*1 → Forall (λ kb, NoDup (component_list (params kb.2))) blk →
  initialize degrees_of_freedom solver blk fm mf T P hold svf outlvl = Ok (r, blk1, tr) →
  ∀ p k b n i d, blk !! p = Some (k, b) →
    lookup_var b n i = Some d → fixed d = true →
    not_ideal b && bool_decide (n = "activity_coeff_comp") = false →
    (∀ stage S, (1 ≤ stage ≤ 5)%nat → snapshot stage tr = Some S →
       ∃ s, S !! p = Some (k, s) ∧ lookup_var s n i = Some d) ∧
    (∃ b1, blk1 !! p = Some (k, b1) ∧ lookup_var b1 n i = Some d).
Proof. apply fixed_variables_general. Qed.

Lemma fixed_variables_untouched_witness :
  ∃ b1, (result vle_run).1.2 !! 0%nat = Some (0%nat, b1) ∧
        lookup_var b1 "Gij_coeff" ["benzene"; "benzene"] = Some (mkVar (Some 1%Q) true).
Proof.
  destruct (fixed_variables_untouched square (reports optimal) vle_block None None None None
              true false 1 (result vle_run).1.1 (result vle_run).1.2 (result vle_run).2
              vle_block_keys vle_block_components
              (ActivityCoeffTheorems.result_Ok vle_run ltac:(vm_compute; reflexivity))
              0%nat 0%nat (built (benzene_toluene NRTL Vap_Liq) true true)
              "Gij_coeff" ["benzene"; "benzene"] (mkVar (Some 1%Q) true) eq_refl)
    as [_ H].
  - vm_compute. reflexivity.
  - reflexivity.
  - vm_compute. reflexivity.
  - exact H.
Defined.

(** X5.  [initialize] with [hold_state=False] (and
    [state_vars_fixed=False]) returns exactly when [initialize] with
    [hold_state=True] returns and [release_state] succeeds on the flags it
    returned; its block is the one [release_state] leaves, it returns no
    flags, and its trace is that of the holding run followed by the closing
    log record. *)
Theorem release_mode_is_hold_then_release (degrees_of_freedom : BlockData → Z)
    (solver : nat → StateBlock → SolverResults) blk fm mf T P outlvl r blk2 tr :
  initialize degrees_of_freedom solver blk fm mf T P false false outlvl = Ok (r, blk2, tr) ↔
  r = None ∧
  ∃ fl blk1 tr1,
    initialize degrees_of_freedom solver blk fm mf T P true false outlvl
      = Ok (Some fl, blk1, tr1) ∧
    release_state blk1 (Some fl) 0 = Ok (blk2, []) ∧
    tr = tr1 ++ (if (0 <? outlvl)%Z then [Log INFO initialisation_completed] else []).
Proof. apply initialize_release_iff. Qed.

(** X6.  [initialize] raises [UnboundLocalError] (the loop variable [k]
    read after a loop that never ran) exactly on an indexed block with no
    element, whatever its other arguments. *)
Theorem unbound_local_error_iff_empty (degrees_of_freedom : BlockData → Z)
    (solver : nat → StateBlock → SolverResults) blk fm mf T P hold svf outlvl :
  initialize degrees_of_freedom solver blk fm mf T P hold svf outlvl = Raise UnboundLocalError
  ↔ blk = [].
Proof. apply initialize_unbound_iff_empty. Qed.

(** X7.  [initialize] raises the degrees-of-freedom exception exactly when
    [state_vars_fixed] is set, the outlet constraints could be switched
    off, and some data object then has degrees of freedom other than
    zero. *)
Theorem dof_exception_iff (degrees_of_freedom : BlockData → Z)
    (solver : nat → StateBlock → SolverResults) blk fm mf T P hold svf outlvl :
  initialize degrees_of_freedom solver blk fm mf T P hold svf outlvl = Raise DofException
  ↔ svf = true ∧
    ∃ blk0, for_each (λ _, outlet_constraint false) blk = Ok blk0 ∧
            Exists (λ kb, degrees_of_freedom kb.2 ≠ 0%Z) blk0.
Proof. apply initialize_dof_exception_iff. Qed.

(** X8.  [initialize] returns (raises nothing) on every non-empty indexed
    block with distinct keys and component lists without repetition whose
    data objects have the components the routine refers to by name
    ([eq_mol_frac_out] when not a defined state; [activity_coeff_comp] and
    [eq_activity_coeff] when the model is not ideal), provided that: with
    [state_vars_fixed=True] every data object has zero degrees of freedom
    once the outlet constraints are off; with [state_vars_fixed=False] the
    state variables are declared and a [mole_frac] argument has an entry
    for every component. *)
Theorem initialize_returns (degrees_of_freedom : BlockData → Z)
    (solver : nat → StateBlock → SolverResults) blk fm mf T P hold svf outlvl :
  blk ≠ [] → NoDup blk.*1 →
  Forall (λ kb, NoDup (component_list (params kb.2))) blk →
  Forall (λ kb, equipped kb.2) blk →
  (svf = true → ∀ blk0, for_each (λ _, outlet_constraint false) blk = Ok blk0 →
                 Forall (λ kb, degrees_of_freedom kb.2 = 0%Z) blk0) →
  (svf = false → Forall (λ kb, has_state_vars kb.2 ∧ covers mf kb.2) blk) →
  ∃ r blk1 tr,
    initialize degrees_of_freedom solver blk fm mf T P hold svf outlvl = Ok (r, blk1, tr).
Proof. apply initialize_total. Qed.

(** X9.  [build] on a parameter block with at least one component: the
    four state variables are declared for every component, free, with the
    initial values 1 ([flow_mol]), [1/len(component_list)] ([mole_frac]),
    101325 ([pressure]) and 298.15 ([temperature]), whatever else [build]
    declares afterwards; and unless the block is single-phase with a
    non-ideal model, it has every component [initialize] refers to by
    name. *)
Theorem build_declares p defined has_pe b :
  component_list p ≠ [] →
  build p defined has_pe = Ok b →
  params b = p ∧ defined_state b = defined ∧ has_phase_equilibrium b = has_pe ∧
  (∀ n i, (n, i) ∈ state_vars (component_list p) →
     lookup_var b n i =
       Some (mkVar (Some (initial_state_value (component_list p) n)) false)) ∧
  has_state_vars b ∧
  (activity_coeff_model p = Ideal ∨ two_phase has_pe p = true → equipped b).
Proof.
  intros _ Hb. destruct (build_config _ _ _ _ Hb) as (Hp & Hd & Hpe). split_and!; try done.
  - intros n i. exact (build_state_vars _ _ _ _ n i Hb).
  - by eapply build_has_state_vars.
  - exact (build_equipped _ _ _ _ Hb).
Qed.

Lemma build_declares_witness :
  has_state_vars (built (benzene_toluene NRTL Vap_Liq) true true) ∧
  equipped (built (benzene_toluene NRTL Vap_Liq) true true).
Proof.
  destruct (build_declares (benzene_toluene NRTL Vap_Liq) true true
              (built (benzene_toluene NRTL Vap_Liq) true true))
    as (_ & _ & _ & _ & H1 & H2).
  - discriminate.
  - apply ActivityCoeffTheorems.build_Ok. vm_compute. reflexivity.
  - split; [exact H1|]. apply H2. right. reflexivity.
Defined.

Lemma initialize_returns_witness :
  ∃ r blk1 tr, vle_run_released = Ok (r, blk1, tr).
Proof.
  destruct vle_block_ready as [Hs He].
  apply (initialize_returns square (reports optimal) vle_block None None None None
           false false 1).
  - discriminate.
  - exact vle_block_keys.
  - exact vle_block_components.
  - constructor; [exact He|constructor].
  - discriminate.
  - intros _. constructor; [|constructor]. split; [exact Hs|]. intros mf j. discriminate.
Defined.

(** X10.  [outlvl] changes nothing but what is logged: with any other
    value [initialize] raises the same exception, or returns the same flags
    and the same block after the same solver calls on the same blocks with
    the same termination conditions.  (The solver's own console output,
    which [outlvl] also switches, is not part of the model.) *)
Theorem outlvl_changes_only_the_log (degrees_of_freedom : BlockData → Z)
    (solver : nat → StateBlock → SolverResults) blk fm mf T P hold svf outlvl outlvl' :
  same_outcome same_but_log
    (initialize degrees_of_freedom solver blk fm mf T P hold svf outlvl)
    (initialize degrees_of_freedom solver blk fm mf T P hold svf outlvl').
Proof. apply initialize_log_free. Qed.

(** X11.  The dictionary [initialize] returns with [hold_state=True] and
    [state_vars_fixed=False] records, for each key of the block and each
    state variable of its data object, whether the variable was fixed
    before the call; it has no entry for a key that is not in the block. *)
Theorem returned_flags (degrees_of_freedom : BlockData → Z)
    (solver : nat → StateBlock → SolverResults) blk fm mf T P outlvl r blk1 tr :
  NoDup blk.*1 → Forall (λ kb, NoDup (component_list (params kb.2))) blk →
  initialize degrees_of_freedom solver blk fm mf T P true false outlvl = Ok (r, blk1, tr) →
  ∃ fl, r = Some fl ∧
    (∀ p k b n i, blk !! p = Some (k, b) →
       (n, i) ∈ state_vars (component_list (params b)) →
       ∃ d, lookup_var b n i = Some d ∧ flag_of fl k n i = Some (fixed d)) ∧
    (∀ k n i, k ∉ blk.*1 → flag_of fl k n i = None).
Proof. apply initialize_flags_general. Qed.

Lemma returned_flags_witness :
  ∃ fl, (result vle_run).1.1 = Some fl ∧ flag_of fl 1 "pressure" [] = None.
Proof.
  destruct (returned_flags square (reports optimal) vle_block None None None None 1
              (result vle_run).1.1 (result vle_run).1.2 (result vle_run).2
              vle_block_keys vle_block_components
              (ActivityCoeffTheorems.result_Ok vle_run ltac:(vm_compute; reflexivity)))
    as (fl & H1 & _ & H2).
  exists fl. split; [exact H1|]. apply H2.
  unfold vle_block. cbn [fmap list_fmap fst].
  intros [[=]|[]%elem_of_nil]%elem_of_cons.
Defined.

(** X12.  [release_state] with no flags does nothing, not even log.  With
    flags, if it returns, it has unfixed the state variables whose flag is
    [False], keeping their values, and changed no other variable, no value
    and no constraint; it logs one record when [outlvl] is positive. *)
Theorem release_state_changes_flags_only (blk : StateBlock) flags outlvl blk' tr :
  release_state blk flags outlvl = Ok (blk', tr) →
  match flags with
  | None => blk' = blk ∧ tr = []
  | Some fl =>
      tr = (if (0 <? outlvl)%Z then [Log INFO state_released] else []) ∧
      length blk' = length blk ∧
      ∀ p k b, blk !! p = Some (k, b) →
        ∃ b', blk' !! p = Some (k, b') ∧
          (∀ n i, lookup_var b' n i =
             (λ d, if bool_decide ((n, i) ∈ state_vars (component_list (params b)))
                      && bool_decide (flag_of fl k n i = Some false)
                   then mkVar (value d) false else d) <$> lookup_var b n i) ∧
          (∀ c i, lookup_con b' c i = lookup_con b c i)
  end.
Proof. apply release_state_effect. Qed.

Lemma release_state_changes_flags_only_witness :
  ∃ blk' tr, release_state vle_block (Some released_flags) 0 = Ok (blk', tr) ∧
             tr = [] ∧ length blk' = length vle_block.
Proof.
  exists (from_Ok ([], []) (release_state vle_block (Some released_flags) 0)).1,
    (from_Ok ([], []) (release_state vle_block (Some released_flags) 0)).2.
  assert (release_state vle_block (Some released_flags) 0 =
          Ok ((from_Ok ([], []) (release_state vle_block (Some released_flags) 0)).1,
              (from_Ok ([], []) (release_state vle_block (Some released_flags) 0)).2))
    as HR by (apply ActivityCoeffTheorems.from_Ok_Ok; vm_compute; reflexivity).
  split; [exact HR|].
  destruct (release_state_changes_flags_only _ _ _ _ _ HR) as (H1 & H2 & _).
  split; [exact H1|exact H2].
Defined.


End ActivityCoeffProperties.

(** * The flowsheet: further statements *)

Module FlowsheetProperties.
Import Flowsheet FlowsheetFacts FlowsheetMore.

(** X13.  [set_model_input] on any model: the [fixed] flag it leaves on a
    variable is the one it leaves on a freshly declared model, or the one
    the variable had (it never unfixes); the value is the one it assigns, or
    else the one the variable had; no constraint is switched; and applying
    it twice is the same as applying it once. *)
Theorem set_model_input_is_an_overlay (m : Model) (v : Path) (i : Idx) :
  fixed (set_model_input m) v i = fixed (set_model_input declared) v i || fixed m v i ∧
  value (set_model_input m) v i =
    from_option Some (value m v i) (value (set_model_input declared) v i) ∧
  active (set_model_input m) v i = active m v i ∧
  fixed (set_model_input (set_model_input m)) v i = fixed (set_model_input m) v i ∧
  value (set_model_input (set_model_input m)) v i = value (set_model_input m) v i.
Proof. apply set_model_input_overlay. Qed.

(** X14.  When the scaling routine, the unit initialisers and the port
    copies leave every [fixed] and [active] flag as they find it, the
    flowsheet [initialize] leaves free the eight assumed split fractions,
    the boiler inlet pressure and enthalpy and the members of the ports
    [condenser_mix.drain], [fwh1_mix.drain], [fwh2_mix.drain],
    [fwh2_mix.steam], [fwh3_mix.drain], [fwh5_da.drain], [fwh6_mix.drain],
    [fwh7_mix.drain] and [fwh8.inlet_1], whatever they were before, and
    every other variable as it was; it leaves the eight decoupled
    constraints active and every other constraint as it was. *)
Theorem initialize_leaves_flags (calculate_scaling_factors : Model → Model)
    (unit_initialize : string → Model → Model) (_set_port : Path → Path → Model → Model)
    (solver : Model → SolverResults) (m : Model) (v : Path) (i : Idx) :
  (∀ m v i, fixed (calculate_scaling_factors m) v i = fixed m v i) →
  (∀ u m v i, fixed (unit_initialize u m) v i = fixed m v i) →
  (∀ a b m v i, fixed (_set_port a b m) v i = fixed m v i) →
  (∀ m v i, active (calculate_scaling_factors m) v i = active m v i) →
  (∀ u m v i, active (unit_initialize u m) v i = active m v i) →
  (∀ a b m v i, active (_set_port a b m) v i = active m v i) →
  let m' := (initialize calculate_scaling_factors unit_initialize _set_port solver m).1 in
  fixed m' v i = (if freed_by_initialize v i then false else fixed m v i) ∧
  active m' v i = (if is_decoupled v then true else active m v i).
Proof.
  intros H1 H2 H3 H4 H5 H6.
  exact (flags_initialize calculate_scaling_factors unit_initialize _set_port solver
           H1 H2 H3 H4 H5 H6 m v i).
Qed.

Lemma initialize_leaves_flags_witness :
  fixed (initialize (λ m, m) (λ _ m, m) (λ _ _ m, m) (λ _, mkResults optimal (λ _ _, None))
           (set_model_input declared)).1
    ["t4_splitter"; "split_fraction"] [time 0; label "outlet_2"] = true ∧
  fixed (initialize (λ m, m) (λ _ m, m) (λ _ _ m, m) (λ _, mkResults optimal (λ _ _, None))
           (set_model_input declared)).1
    ["t4_splitter"; "split_fraction"] [time 0; label "outlet_1"] = false.
Proof.
  split.
  - pose proof (initialize_leaves_flags (λ m, m) (λ _ m, m) (λ _ _ m, m)
                  (λ _, mkResults optimal (λ _ _, None)) (set_model_input declared)
                  ["t4_splitter"; "split_fraction"] [time 0; label "outlet_2"]
                  (λ _ _ _, eq_refl) (λ _ _ _ _, eq_refl) (λ _ _ _ _ _, eq_refl)
                  (λ _ _ _, eq_refl) (λ _ _ _ _, eq_refl) (λ _ _ _ _ _, eq_refl)) as [H _].
    etrans; [exact H|]. vm_compute. reflexivity.
  - pose proof (initialize_leaves_flags (λ m, m) (λ _ m, m) (λ _ _ m, m)
                  (λ _, mkResults optimal (λ _ _, None)) (set_model_input declared)
                  ["t4_splitter"; "split_fraction"] [time 0; label "outlet_1"]
                  (λ _ _ _, eq_refl) (λ _ _ _ _, eq_refl) (λ _ _ _ _ _, eq_refl)
                  (λ _ _ _, eq_refl) (λ _ _ _ _, eq_refl) (λ _ _ _ _ _, eq_refl)) as [H _].
    etrans; [exact H|]. vm_compute. reflexivity.
Defined.

(** X15.  Under the same assumption on the collaborators, on a model
    whose inputs [set_model_input] has set and in which, before that, none
    of the variables [initialize] frees was fixed and the eight decoupled
    constraints were active, [initialize] returns every [fixed] flag and
    every [active] flag as it received them: every input is still fixed and
    nothing else is. *)
Theorem initialize_keeps_the_specification (calculate_scaling_factors : Model → Model)
    (unit_initialize : string → Model → Model) (_set_port : Path → Path → Model → Model)
    (solver : Model → SolverResults) (m0 : Model) (v : Path) (i : Idx) :
  (∀ m v i, fixed (calculate_scaling_factors m) v i = fixed m v i) →
  (∀ u m v i, fixed (unit_initialize u m) v i = fixed m v i) →
  (∀ a b m v i, fixed (_set_port a b m) v i = fixed m v i) →
  (∀ m v i, active (calculate_scaling_factors m) v i = active m v i) →
  (∀ u m v i, active (unit_initialize u m) v i = active m v i) →
  (∀ a b m v i, active (_set_port a b m) v i = active m v i) →
  (∀ v i, freed_by_initialize v i = true → fixed m0 v i = false) →
  (∀ c i, is_decoupled c = true → active m0 c i = true) →
  let m := set_model_input m0 in
  let m' := (initialize calculate_scaling_factors unit_initialize _set_port solver m).1 in
  fixed m' v i = fixed m v i ∧ active m' v i = active m v i.
Proof.
  intros H1 H2 H3 H4 H5 H6 Hfree Hact.
  exact (initialize_neutral calculate_scaling_factors unit_initialize _set_port solver
           H1 H2 H3 H4 H5 H6 m0 v i Hfree Hact).
Qed.

Lemma initialize_keeps_the_specification_witness :
  fixed (initialize (λ m, m) (λ _ m, m) (λ _ _ m, m) (λ _, mkResults optimal (λ _ _, None))
           (set_model_input declared)).1 ["boiler"; "inlet"; "flow_mol"] [time 0] =
  fixed (set_model_input declared) ["boiler"; "inlet"; "flow_mol"] [time 0].
Proof.
  pose proof (initialize_keeps_the_specification (λ m, m) (λ _ m, m) (λ _ _ m, m)
                (λ _, mkResults optimal (λ _ _, None)) declared
                ["boiler"; "inlet"; "flow_mol"] [time 0]
                (λ _ _ _, eq_refl) (λ _ _ _ _, eq_refl) (λ _ _ _ _ _, eq_refl)
                (λ _ _ _, eq_refl) (λ _ _ _ _, eq_refl) (λ _ _ _ _ _, eq_refl)
                (λ _ _ _, eq_refl) (λ _ _ _, eq_refl)) as [H _].
  exact H.
Defined.

(** X16.  [build_plant_model], up to its second assertion, under the same
    assumptions and when the degrees of freedom of a model depend only on
    its [fixed] and [active] flags: the assertion after [initialize] cannot
    fail once the assertion before it has passed, so the routine gets past
    both with the initialised model exactly when the model has zero degrees
    of freedom after [set_model_input], and raises [AssertionError]
    otherwise. *)
Theorem build_plant_model_second_assertion (calculate_scaling_factors : Model → Model)
    (unit_initialize : string → Model → Model) (_set_port : Path → Path → Model → Model)
    (solver : Model → SolverResults) (create_model : Model)
    (degrees_of_freedom : Model → Z) :
  (∀ m v i, fixed (calculate_scaling_factors m) v i = fixed m v i) →
  (∀ u m v i, fixed (unit_initialize u m) v i = fixed m v i) →
  (∀ a b m v i, fixed (_set_port a b m) v i = fixed m v i) →
  (∀ m v i, active (calculate_scaling_factors m) v i = active m v i) →
  (∀ u m v i, active (unit_initialize u m) v i = active m v i) →
  (∀ a b m v i, active (_set_port a b m) v i = active m v i) →
  (∀ m m', (∀ v i, fixed m v i = fixed m' v i) → (∀ c i, active m c i = active m' c i) →
           degrees_of_freedom m = degrees_of_freedom m') →
  (∀ v i, freed_by_initialize v i = true → fixed create_model v i = false) →
  (∀ c i, is_decoupled c = true → active create_model c i = true) →
  build_plant_model calculate_scaling_factors unit_initialize _set_port solver
    create_model degrees_of_freedom =
  if decide (degrees_of_freedom (set_model_input create_model) = 0%Z)
  then Ok (initialize calculate_scaling_factors unit_initialize _set_port solver
             (set_model_input create_model)).1
  else Raise AssertionError.
Proof.
  intros H1 H2 H3 H4 H5 H6 Hdof Hfree Hact.
  exact (build_plant_model_asserts calculate_scaling_factors unit_initialize _set_port solver
           H1 H2 H3 H4 H5 H6 create_model degrees_of_freedom Hdof Hfree Hact).
Qed.

Lemma build_plant_model_second_assertion_witness :
  build_plant_model (λ m, m) (λ _ m, m) (λ _ _ m, m) (λ _, mkResults optimal (λ _ _, None))
    declared (λ _, 0%Z) =
  Ok (initialize (λ m, m) (λ _ m, m) (λ _ _ m, m) (λ _, mkResults optimal (λ _ _, None))
        (set_model_input declared)).1.
Proof.
  pose proof (build_plant_model_second_assertion (λ m, m) (λ _ m, m) (λ _ _ m, m)
                (λ _, mkResults optimal (λ _ _, None)) declared (λ _, 0%Z)
                (λ _ _ _, eq_refl) (λ _ _ _ _, eq_refl) (λ _ _ _ _ _, eq_refl)
                (λ _ _ _, eq_refl) (λ _ _ _ _, eq_refl) (λ _ _ _ _ _, eq_refl)
                (λ _ _ _ _, eq_refl) (λ _ _ _, eq_refl) (λ _ _ _, eq_refl)) as H.
  etrans; [exact H|]. cbn beta. destruct (decide (0 = 0)%Z); [reflexivity|done].
Defined.


End FlowsheetProperties.
